(** * RadarScan: session coordinator, scan workflow, retry policy and
      error classifier

    A shallow embedding of the worker's core:
    - [worker/utils/retry.ts]               (retryWithBackoff, isRetryableError)
    - [worker/utils/error-messages.ts]      (getUserFriendlyError)
    - [worker/durable-objects/session-manager.ts] (SessionManager)
    - [worker/workflows/scan-workflow.ts]   (ScanWorkflow.run)

    JavaScript numbers are modelled as [Z] (every number the code handles
    is an integer: milliseconds, attempt counters, HTTP status codes),
    strings as [string] with ASCII case mapping, thrown values as
    [Thrown], and asynchronous effectful code as state passing over an
    explicit world that also holds the answers of the environment
    (clock readings, HTTP responses, storage faults). *)

From Stdlib Require Import ZArith Lia Bool Ascii String DecimalString.
From Stdlib Require Import List Sorted.
From stdpp Require Import base option gmap strings.
Import ListNotations.

Local Open Scope Z_scope.

(* ===================================================================== *)
(** ** JavaScript strings *)
(* ===================================================================== *)

Module Js.

(** [c.toLowerCase()] on one code unit; only A-Z are mapped. *)
Definition lower_ascii (c : ascii) : ascii :=
  let n := nat_of_ascii c in
  if (Nat.leb 65 n && Nat.leb n 90)%bool then ascii_of_nat (n + 32) else c.

(** [s.toLowerCase()] *)
Fixpoint toLowerCase (s : string) : string :=
  match s with
  | EmptyString => EmptyString
  | String c rest => String (lower_ascii c) (toLowerCase rest)
  end.

(** [s.startsWith(search)] *)
Fixpoint startsWith (s search : string) : bool :=
  match search, s with
  | EmptyString, _ => true
  | String _ _, EmptyString => false
  | String b search', String a s' =>
      if Ascii.eqb a b then startsWith s' search' else false
  end.

(** [s.includes(search)] *)
Fixpoint includes (s search : string) : bool :=
  if startsWith s search then true
  else match s with
       | EmptyString => false
       | String _ rest => includes rest search
       end.

(** [String(n)] / template interpolation of an integer. *)
Definition string_of_number (n : Z) : string :=
  NilEmpty.string_of_int (Z.to_int n).

End Js.

(* ===================================================================== *)
(** ** Thrown values and outcomes *)
(* ===================================================================== *)

(** An [Error] instance: its message and the optional [status] property
    the workflow attaches to HTTP failures. *)
Record JsError := mkError {
  err_message : string;
  err_status : option Z
}.

(** What a [catch (error)] clause can receive here: an [Error] object or
    the value [undefined]. *)
Inductive Thrown :=
| Undefined
| ErrorObj (e : JsError).

Definition new_Error (msg : string) : Thrown := ErrorObj (mkError msg None).

(** The result of awaiting a promise: fulfilled or rejected. *)
Inductive Outcome (A : Type) :=
| Returned (a : A)
| Threw (e : Thrown).
Arguments Returned {A} a.
Arguments Threw {A} e.

(** An asynchronous computation over a world [W]. *)
Definition Eff (W A : Type) : Type := W -> Outcome A * W.

Definition ret {W A} (a : A) : Eff W A := fun w => (Returned a, w).
Definition throw {W A} (e : Thrown) : Eff W A := fun w => (Threw e, w).
Definition bind {W A B} (m : Eff W A) (k : A -> Eff W B) : Eff W B :=
  fun w => match m w with
           | (Returned a, w') => k a w'
           | (Threw e, w') => (Threw e, w')
           end.
(** [try { m } catch (error) { h error }] *)
Definition try_catch {W A} (m : Eff W A) (h : Thrown -> Eff W A) : Eff W A :=
  fun w => match m w with
           | (Returned a, w') => (Returned a, w')
           | (Threw e, w') => h e w'
           end.

Declare Scope eff_scope.
Delimit Scope eff_scope with eff.
(** [const x = await m; k] and [await m; k] *)
Notation "'let!' x ':=' m 'in' k" := (bind m (fun x => k))
  (at level 10, x name, m at level 100, k at level 200) : eff_scope.
Notation "'await!' m 'in' k" := (bind m (fun _ => k))
  (at level 10, m at level 100, k at level 200) : eff_scope.

(* ===================================================================== *)
(** ** worker/utils/retry.ts *)
(* ===================================================================== *)

(** The module-level [sleep(ms)] needs a timer facility of the world. *)
Class Timers (W : Type) := setTimeout : Z -> W -> W.

Definition sleep {W} `{Timers W} (ms : Z) : Eff W unit :=
  fun w => (Returned tt, setTimeout ms w).

(** [interface RetryOptions]: every key is optional. *)
Record RetryOptions := {
  maxAttempts : option Z;
  initialDelayMs : option Z;
  maxDelayMs : option Z;
  backoffMultiplier : option Z;
  retryableErrors : option (Thrown -> bool)
}.

(** [Required<RetryOptions>] *)
Record ResolvedRetryOptions := {
  opt_maxAttempts : Z;
  opt_initialDelayMs : Z;
  opt_maxDelayMs : Z;
  opt_backoffMultiplier : Z;
  opt_retryableErrors : Thrown -> bool
}.

Definition DEFAULT_OPTIONS : ResolvedRetryOptions := {|
  opt_maxAttempts := 3;
  opt_initialDelayMs := 1000;
  opt_maxDelayMs := 10000;
  opt_backoffMultiplier := 2;
  opt_retryableErrors := fun _ => true (* Retry all errors by default *)
|}.

Definition no_options : RetryOptions := {|
  maxAttempts := None; initialDelayMs := None; maxDelayMs := None;
  backoffMultiplier := None; retryableErrors := None |}.

(** [{ ...DEFAULT_OPTIONS, ...options }] *)
Definition spread_options (d : ResolvedRetryOptions) (o : RetryOptions)
  : ResolvedRetryOptions := {|
  opt_maxAttempts := default (opt_maxAttempts d) (maxAttempts o);
  opt_initialDelayMs := default (opt_initialDelayMs d) (initialDelayMs o);
  opt_maxDelayMs := default (opt_maxDelayMs d) (maxDelayMs o);
  opt_backoffMultiplier := default (opt_backoffMultiplier d) (backoffMultiplier o);
  opt_retryableErrors := default (opt_retryableErrors d) (retryableErrors o)
|}.

(** [Math.min(initialDelayMs * Math.pow(backoffMultiplier, attempt - 1), maxDelayMs)] *)
Definition backoff_delay (opts : ResolvedRetryOptions) (attempt : Z) : Z :=
  Z.min (opt_initialDelayMs opts * opt_backoffMultiplier opts ^ (attempt - 1))
        (opt_maxDelayMs opts).

Section Retry.
Context {W : Type} `{Timers W} {T : Type}.

(** The [for (let attempt = 1; attempt <= opts.maxAttempts; attempt++)]
    loop.  [remaining] counts the iterations still allowed by the loop
    condition, that is [opts.maxAttempts - attempt + 1]; when it is
    exhausted, control reaches the final [throw lastError].  The
    variable [lastError] starts out unassigned, which is [Undefined]. *)
Fixpoint retry_loop (fn : Eff W T) (opts : ResolvedRetryOptions)
    (remaining : nat) (attempt : Z) (lastError : Thrown) : Eff W T :=
  match remaining with
  | O => throw lastError
  | S remaining' =>
      fun w =>
        match fn w with
        | (Returned v, w1) => (Returned v, w1)
        | (Threw error, w1) =>
            (* lastError = error *)
            if negb (opt_retryableErrors opts error) then (Threw error, w1)
            else if attempt =? opt_maxAttempts opts then
              (* break; then throw lastError *)
              (Threw error, w1)
            else
              bind (sleep (backoff_delay opts attempt))
                   (fun _ => retry_loop fn opts remaining' (attempt + 1) error)
                   w1
        end
  end.

Definition retryWithBackoff (fn : Eff W T) (options : RetryOptions) : Eff W T :=
  let opts := spread_options DEFAULT_OPTIONS options in
  retry_loop fn opts (Z.to_nat (opt_maxAttempts opts)) 1 Undefined.

(** What the retry policy is documented to do with an action that
    fails on every call: run it, sleep, run it, ..., run it; one run
    more than there are delays, and the last run's rejection is the
    result. *)
Fixpoint failing_run (fn : Eff W T) (delays : list Z) : Eff W T :=
  match delays with
  | [] => fn
  | d :: ds => fun w => failing_run fn ds (setTimeout d (snd (fn w)))
  end.
End Retry.

(** The delays slept after attempts [from], [from+1], ... ([count] of them). *)
Fixpoint delays_from (opts : ResolvedRetryOptions) (from : Z) (count : nat)
  : list Z :=
  match count with
  | O => []
  | S c => backoff_delay opts from :: delays_from opts (from + 1) c
  end.

(** [isRetryableError]: network-class messages, then the HTTP status. *)
Definition isRetryableError (error : Thrown) : bool :=
  let network_class :=
    match error with
    | ErrorObj e =>
        let message := Js.toLowerCase (err_message e) in
        Js.includes message "network" || Js.includes message "timeout" ||
        Js.includes message "econnreset" || Js.includes message "enotfound"
    | Undefined => false
    end in
  if network_class then true
  else match error with
       | ErrorObj e =>
           match err_status e with
           | Some status => (status >=? 500) || (status =? 429)
           | None => false
           end
       | Undefined => false
       end.

(** [isRetryableD1Error] *)
Definition isRetryableD1Error (error : Thrown) : bool :=
  let d1_class :=
    match error with
    | ErrorObj e =>
        let message := Js.toLowerCase (err_message e) in
        Js.includes message "database is locked" || Js.includes message "busy" ||
        Js.includes message "timeout" || Js.includes message "too many requests"
    | Undefined => false
    end in
  if d1_class then true else isRetryableError error.

(** A recording world for exercising the retry policy on its own: the
    action leaves a mark each time it is invoked, the timer each time it
    is armed. *)
Inductive ProbeEvent :=
| Invoked
| Slept (ms : Z).

#[export] Instance probe_timers : Timers (list ProbeEvent) :=
  fun ms tr => tr ++ [Slept ms].

Definition is_invoked (ev : ProbeEvent) : bool :=
  match ev with Invoked => true | Slept _ => false end.

Definition invocations (tr : list ProbeEvent) : nat :=
  length (List.filter is_invoked tr).

(** An action that rejects on every call, the k-th call with [errs k]. *)
Definition rejecting (errs : nat -> Thrown) : Eff (list ProbeEvent) unit :=
  fun tr => (Threw (errs (invocations tr)), tr ++ [Invoked]).

(* ===================================================================== *)
(** ** worker/utils/error-messages.ts *)
(* ===================================================================== *)

Record UserFriendlyError := {
  title : string;
  message : string;
  action : option string
}.

(** [error instanceof Error ? error.message : String(error)] *)
Definition error_text (error : Thrown) : string :=
  match error with
  | ErrorObj e => err_message e
  | Undefined => "undefined"
  end.

Definition getUserFriendlyError (error : Thrown) : UserFriendlyError :=
  let errorMessage := error_text error in
  let errorLower := Js.toLowerCase errorMessage in
  (* Radar API errors *)
  if Js.includes errorLower "radar api" then
    if Js.includes errorLower "401" || Js.includes errorLower "unauthorized" then
      {| title := "Authentication Error";
         message := "Unable to connect to the scanning service. Please try again later.";
         action := Some "If this persists, contact support." |}
    else if Js.includes errorLower "429" || Js.includes errorLower "rate limit" then
      {| title := "Too Many Requests";
         message := "We're receiving a high volume of scan requests right now.";
         action := Some "Please wait a few minutes and try again." |}
    else if Js.includes errorLower "400" || Js.includes errorLower "bad request" then
      {| title := "Invalid URL";
         message := "The URL you provided couldn't be scanned.";
         action := Some "Please check the URL and try again." |}
    else if Js.includes errorLower "timeout" then
      {| title := "Scan Timeout";
         message := "The scan took longer than expected to complete.";
         action := Some "Please try scanning this URL again." |}
    else
      {| title := "Scanning Service Error";
         message := "We encountered an issue while scanning your URL.";
         action := Some "Please try again in a few moments." |}
  (* Network errors *)
  else if Js.includes errorLower "network" || Js.includes errorLower "fetch" then
    {| title := "Connection Error";
       message := "Unable to connect to our servers.";
       action := Some "Please check your internet connection and try again." |}
  (* Timeout errors *)
  else if Js.includes errorLower "timeout" then
    {| title := "Request Timeout";
       message := "The request took too long to complete.";
       action := Some "Please try again." |}
  (* R2 storage errors *)
  else if Js.includes errorLower "r2" || Js.includes errorLower "storage" then
    {| title := "Storage Error";
       message := "We couldn't save your scan report.";
       action := Some "Please try scanning again." |}
  (* Database errors *)
  else if Js.includes errorLower "database" || Js.includes errorLower "d1" then
    {| title := "Database Error";
       message := "We encountered an issue saving your scan data.";
       action := Some "Your scan may still complete. Please check back in a moment." |}
  (* PDF generation errors *)
  else if Js.includes errorLower "pdf" then
    {| title := "Report Generation Error";
       message := "We couldn't generate your PDF report.";
       action := Some "Please try scanning again." |}
  (* Workflow errors *)
  else if Js.includes errorLower "workflow" then
    {| title := "Processing Error";
       message := "We encountered an issue processing your scan.";
       action := Some "Please try again." |}
  (* Email errors *)
  else if Js.includes errorLower "email" || Js.includes errorLower "resend" then
    {| title := "Email Delivery Failed";
       message := "We couldn't send the report to your email.";
       action := Some "You can still download the report from this page." |}
  (* Generic error *)
  else
    {| title := "Something Went Wrong";
       message := "We encountered an unexpected error.";
       action := Some "Please try again. If the problem persists, contact support." |}.

(** The workflow's
    [`${title}: ${message}${action ? ' ' + action : ''}`]; an empty
    [action] is falsy. *)
Definition displayMessage (friendlyError : UserFriendlyError) : string :=
  title friendlyError +:+ ": " +:+ message friendlyError +:+
  match action friendlyError with
  | Some a => if String.eqb a "" then "" else " " +:+ a
  | None => ""
  end.

(** The display strings of the classifier's Radar API (scanning
    service) branch. *)
Definition scanning_service_messages : list string :=
  [ "Authentication Error: Unable to connect to the scanning service. Please try again later. If this persists, contact support.";
    "Too Many Requests: We're receiving a high volume of scan requests right now. Please wait a few minutes and try again.";
    "Invalid URL: The URL you provided couldn't be scanned. Please check the URL and try again.";
    "Scan Timeout: The scan took longer than expected to complete. Please try scanning this URL again.";
    "Scanning Service Error: We encountered an issue while scanning your URL. Please try again in a few moments." ].

(** The display string the Radar API branch answers with, as a
    function of the lower-cased text it searches: the first keyword
    pair found decides, in the order of the source. *)
Definition scanning_service_entry (lower : string) : string :=
  if Js.includes lower "401" || Js.includes lower "unauthorized" then
    "Authentication Error: Unable to connect to the scanning service. Please try again later. If this persists, contact support."
  else if Js.includes lower "429" || Js.includes lower "rate limit" then
    "Too Many Requests: We're receiving a high volume of scan requests right now. Please wait a few minutes and try again."
  else if Js.includes lower "400" || Js.includes lower "bad request" then
    "Invalid URL: The URL you provided couldn't be scanned. Please check the URL and try again."
  else if Js.includes lower "timeout" then
    "Scan Timeout: The scan took longer than expected to complete. Please try scanning this URL again."
  else
    "Scanning Service Error: We encountered an issue while scanning your URL. Please try again in a few moments.".

(* ===================================================================== *)
(** ** worker/types.ts: SessionState *)
(* ===================================================================== *)

Inductive Status :=
| queued | scanning | generating | uploading | sending
| completed | failed | expired.

#[export] Instance Status_eq_dec : EqDecision Status.
Proof. solve_decision. Defined.

(** [interface SessionState], together with the three keys that callers
    add through [/update] without declaring them ([progressPercent],
    [progressMessage], [workflowInstanceId]): the object spread keeps
    them on the stored object. *)
Record SessionState := {
  sessionId : string;
  url : string;
  email : string;
  status : Status;
  jobId : option string;
  radarUuid : option string;
  r2Key : option string;
  error : option string;
  createdAt : Z;
  updatedAt : Z;
  expiresAt : Z;
  ipAddress : option string;
  userAgent : option string;
  country : option string;
  progressPercent : option Z;
  progressMessage : option string;
  workflowInstanceId : option string
}.

(** [Partial<SessionState>] as it arrives in a JSON body: [None] is an
    absent key. *)
Record SessionUpdate := {
  upd_sessionId : option string;
  upd_url : option string;
  upd_email : option string;
  upd_status : option Status;
  upd_jobId : option string;
  upd_radarUuid : option string;
  upd_r2Key : option string;
  upd_error : option string;
  upd_createdAt : option Z;
  upd_updatedAt : option Z;
  upd_expiresAt : option Z;
  upd_ipAddress : option string;
  upd_userAgent : option string;
  upd_country : option string;
  upd_progressPercent : option Z;
  upd_progressMessage : option string;
  upd_workflowInstanceId : option string
}.

(** The body of [/init]; the handler reads [sessionId], [url] and
    [email] with a non-null assertion. *)
Record SessionInit := {
  init_sessionId : string;
  init_url : string;
  init_email : string;
  init_ipAddress : option string;
  init_userAgent : option string;
  init_country : option string
}.

(** A key of the right operand of a spread wins when it is present. *)
Definition override {A} (new old : option A) : option A :=
  match new with
  | Some v => Some v
  | None => old
  end.

(** [{ ...sessionData, ...update }] *)
Definition spread (s : SessionState) (u : SessionUpdate) : SessionState := {|
  sessionId := default (sessionId s) (upd_sessionId u);
  url := default (url s) (upd_url u);
  email := default (email s) (upd_email u);
  status := default (status s) (upd_status u);
  jobId := override (upd_jobId u) (jobId s);
  radarUuid := override (upd_radarUuid u) (radarUuid s);
  r2Key := override (upd_r2Key u) (r2Key s);
  error := override (upd_error u) (error s);
  createdAt := default (createdAt s) (upd_createdAt u);
  updatedAt := default (updatedAt s) (upd_updatedAt u);
  expiresAt := default (expiresAt s) (upd_expiresAt u);
  ipAddress := override (upd_ipAddress u) (ipAddress s);
  userAgent := override (upd_userAgent u) (userAgent s);
  country := override (upd_country u) (country s);
  progressPercent := override (upd_progressPercent u) (progressPercent s);
  progressMessage := override (upd_progressMessage u) (progressMessage s);
  workflowInstanceId := override (upd_workflowInstanceId u) (workflowInstanceId s)
|}.

(** [{ ...s, updatedAt: now }] *)
Definition stamp (s : SessionState) (now : Z) : SessionState := {|
  sessionId := sessionId s; url := url s; email := email s;
  status := status s; jobId := jobId s; radarUuid := radarUuid s;
  r2Key := r2Key s; error := error s; createdAt := createdAt s;
  updatedAt := now;
  expiresAt := expiresAt s; ipAddress := ipAddress s;
  userAgent := userAgent s; country := country s;
  progressPercent := progressPercent s;
  progressMessage := progressMessage s;
  workflowInstanceId := workflowInstanceId s
|}.

(** Building JSON bodies for [/update]. *)
Definition no_update : SessionUpdate := {|
  upd_sessionId := None; upd_url := None; upd_email := None;
  upd_status := None; upd_jobId := None; upd_radarUuid := None;
  upd_r2Key := None; upd_error := None; upd_createdAt := None;
  upd_updatedAt := None; upd_expiresAt := None; upd_ipAddress := None;
  upd_userAgent := None; upd_country := None;
  upd_progressPercent := None; upd_progressMessage := None;
  upd_workflowInstanceId := None |}.

Definition update_of (st : option Status) (uuid key err : option string)
    (pct : option Z) (msg : option string) : SessionUpdate := {|
  upd_sessionId := None; upd_url := None; upd_email := None;
  upd_status := st; upd_jobId := None; upd_radarUuid := uuid;
  upd_r2Key := key; upd_error := err; upd_createdAt := None;
  upd_updatedAt := None; upd_expiresAt := None; upd_ipAddress := None;
  upd_userAgent := None; upd_country := None;
  upd_progressPercent := pct; upd_progressMessage := msg;
  upd_workflowInstanceId := None |}.

(* ===================================================================== *)
(** ** worker/durable-objects/session-manager.ts *)
(* ===================================================================== *)

(** The server end of a [WebSocketPair]; [send] and [close] throw once
    the peer is gone. *)
Record WebSocket := {
  ws_id : nat;
  ws_open : bool
}.

(** The envelopes pushed to clients. *)
Inductive Envelope :=
| StateMessage (data : SessionState) (timestamp : Z)
| UpdateMessage (data : SessionUpdate) (timestamp : Z).

(** What travels to the clients, in order. *)
Inductive Frame :=
| Sent (ws : nat) (payload : Envelope)
| Closed (ws : nat) (code : Z) (reason : string).

(** One row of the D1 table [sessions] (schema.sql). *)
Record SessionRow := {
  row_id : string;
  row_url : string;
  row_email : string;
  row_status : Status;
  row_job_id : option string;
  row_radar_uuid : option string;
  row_r2_key : option string;
  row_error : option string;
  row_created_at : Z;
  row_updated_at : Z;
  row_expires_at : Z;
  row_ip_address : option string;
  row_user_agent : option string;
  row_country : option string
}.

(** The lines the durable object writes with [console.log] and
    [console.error]. *)
Inductive LogLine :=
| LogWebSocketClosed (clientId : string)
| LogWebSocketError
| LogWebSocketConnected (clientId : string) (total : nat)
| LogSessionInitialized (id : string)
| LogSessionUpdated (id : string) (st : Status)
| LogSendFailed
| LogBroadcasted (clients : nat)
| LogPersistedToD1 (id : string)
| LogPersistToD1Failed
| LogAlarmTriggered
| LogNoSessionInAlarm
| LogSessionExpired (id : string)
| LogCloseFailed
| LogMarkExpiredFailed
| LogCleanupComplete.

(** One durable object instance with the platform state it reaches:
    its fields, [ctx.storage], the D1 binding, the sockets' wire and the
    console.  [clock] gives the successive readings of [Date.now()];
    [d1_fails k] tells whether the k-th D1 statement throws. *)
Record SessionManager := {
  sessions : list (WebSocket * string);
  sessionData : option SessionState;
  storage : gmap string SessionState;
  alarm_time : option Z;
  radar_scanner_db : gmap string SessionRow;
  console : list LogLine;
  wire : list Frame;
  ticks : nat;
  clock : nat -> Z;
  d1_calls : nat;
  d1_fails : nat -> bool
}.

Definition set_sessions (v : list (WebSocket * string)) (o : SessionManager) :=
  {| sessions := v; sessionData := sessionData o; storage := storage o;
     alarm_time := alarm_time o; radar_scanner_db := radar_scanner_db o;
     console := console o; wire := wire o; ticks := ticks o;
     clock := clock o; d1_calls := d1_calls o; d1_fails := d1_fails o |}.
Definition set_sessionData (v : option SessionState) (o : SessionManager) :=
  {| sessions := sessions o; sessionData := v; storage := storage o;
     alarm_time := alarm_time o; radar_scanner_db := radar_scanner_db o;
     console := console o; wire := wire o; ticks := ticks o;
     clock := clock o; d1_calls := d1_calls o; d1_fails := d1_fails o |}.
Definition set_storage (v : gmap string SessionState) (o : SessionManager) :=
  {| sessions := sessions o; sessionData := sessionData o; storage := v;
     alarm_time := alarm_time o; radar_scanner_db := radar_scanner_db o;
     console := console o; wire := wire o; ticks := ticks o;
     clock := clock o; d1_calls := d1_calls o; d1_fails := d1_fails o |}.
Definition set_alarm_time (v : option Z) (o : SessionManager) :=
  {| sessions := sessions o; sessionData := sessionData o; storage := storage o;
     alarm_time := v; radar_scanner_db := radar_scanner_db o;
     console := console o; wire := wire o; ticks := ticks o;
     clock := clock o; d1_calls := d1_calls o; d1_fails := d1_fails o |}.
Definition set_radar_scanner_db (v : gmap string SessionRow) (o : SessionManager) :=
  {| sessions := sessions o; sessionData := sessionData o; storage := storage o;
     alarm_time := alarm_time o; radar_scanner_db := v;
     console := console o; wire := wire o; ticks := ticks o;
     clock := clock o; d1_calls := d1_calls o; d1_fails := d1_fails o |}.
Definition set_console (v : list LogLine) (o : SessionManager) :=
  {| sessions := sessions o; sessionData := sessionData o; storage := storage o;
     alarm_time := alarm_time o; radar_scanner_db := radar_scanner_db o;
     console := v; wire := wire o; ticks := ticks o;
     clock := clock o; d1_calls := d1_calls o; d1_fails := d1_fails o |}.
Definition set_wire (v : list Frame) (o : SessionManager) :=
  {| sessions := sessions o; sessionData := sessionData o; storage := storage o;
     alarm_time := alarm_time o; radar_scanner_db := radar_scanner_db o;
     console := console o; wire := v; ticks := ticks o;
     clock := clock o; d1_calls := d1_calls o; d1_fails := d1_fails o |}.
Definition set_ticks (v : nat) (o : SessionManager) :=
  {| sessions := sessions o; sessionData := sessionData o; storage := storage o;
     alarm_time := alarm_time o; radar_scanner_db := radar_scanner_db o;
     console := console o; wire := wire o; ticks := v;
     clock := clock o; d1_calls := d1_calls o; d1_fails := d1_fails o |}.
Definition set_d1_calls (v : nat) (o : SessionManager) :=
  {| sessions := sessions o; sessionData := sessionData o; storage := storage o;
     alarm_time := alarm_time o; radar_scanner_db := radar_scanner_db o;
     console := console o; wire := wire o; ticks := ticks o;
     clock := clock o; d1_calls := v; d1_fails := d1_fails o |}.

(** [console.log(...)] *)
Definition console_log (l : LogLine) (o : SessionManager) : SessionManager :=
  set_console (console o ++ [l]) o.

(** [Date.now()] *)
Definition Date_now (o : SessionManager) : Z * SessionManager :=
  (clock o (ticks o), set_ticks (S (ticks o)) o).

(** [new SessionManager(ctx, env)]: a cold start keeps only what is
    durable. *)
Definition constructor (o : SessionManager) : SessionManager :=
  set_sessionData None (set_sessions [] o).

(** [x || null] on an optional string: the empty string is falsy. *)
Definition or_null (x : option string) : option string :=
  match x with
  | Some v => if String.eqb v "" then None else Some v
  | None => None
  end.

(** The values bound to [INSERT OR REPLACE INTO sessions]. *)
Definition row_of (s : SessionState) : SessionRow := {|
  row_id := sessionId s;
  row_url := url s;
  row_email := email s;
  row_status := status s;
  row_job_id := or_null (jobId s);
  row_radar_uuid := or_null (radarUuid s);
  row_r2_key := or_null (r2Key s);
  row_error := or_null (error s);
  row_created_at := createdAt s;
  row_updated_at := updatedAt s;
  row_expires_at := expiresAt s;
  row_ip_address := or_null (ipAddress s);
  row_user_agent := or_null (userAgent s);
  row_country := or_null (country s)
|}.

(** [UPDATE sessions SET status = 'expired'] on one row. *)
Definition expire_row (r : SessionRow) : SessionRow := {|
  row_id := row_id r; row_url := row_url r; row_email := row_email r;
  row_status := expired;
  row_job_id := row_job_id r; row_radar_uuid := row_radar_uuid r;
  row_r2_key := row_r2_key r; row_error := row_error r;
  row_created_at := row_created_at r; row_updated_at := row_updated_at r;
  row_expires_at := row_expires_at r; row_ip_address := row_ip_address r;
  row_user_agent := row_user_agent r; row_country := row_country r
|}.

(** A prepared D1 statement, [run()]: it throws when the platform says
    so and applies [stmt] to the table otherwise.  The result tells
    whether it went through. *)
Definition d1_run (stmt : gmap string SessionRow -> gmap string SessionRow)
    (o : SessionManager) : bool * SessionManager :=
  let o1 := set_d1_calls (S (d1_calls o)) o in
  if d1_fails o (d1_calls o) then (false, o1)
  else (true, set_radar_scanner_db (stmt (radar_scanner_db o)) o1).

Definition persistToD1 (o : SessionManager) : SessionManager :=
  match sessionData o with
  | None => o
  | Some s =>
      (* try { ... } catch (error) { console.error(...) } *)
      match d1_run (fun db => <[sessionId s := row_of s]> db) o with
      | (true, o1) => console_log (LogPersistedToD1 (sessionId s)) o1
      | (false, o1) => console_log LogPersistToD1Failed o1
      end
  end.

(** The loop of [broadcast]: [ws.send(payload)] on every key of
    [this.sessions]; returns the dead sockets. *)
Fixpoint send_all (payload : Envelope) (keys : list (WebSocket * string))
    (o : SessionManager) : list nat * SessionManager :=
  match keys with
  | [] => ([], o)
  | (ws, _) :: rest =>
      if ws_open ws then
        send_all payload rest (set_wire (wire o ++ [Sent (ws_id ws) payload]) o)
      else
        let '(dead, o') := send_all payload rest (console_log LogSendFailed o) in
        (ws_id ws :: dead, o')
  end.

(** [this.sessions.delete(ws)] *)
Definition sessions_delete (ws : nat) (l : list (WebSocket * string))
  : list (WebSocket * string) :=
  List.filter (fun entry => negb (Nat.eqb (ws_id (fst entry)) ws)) l.

Definition broadcast (payload : Envelope) (o : SessionManager) : SessionManager :=
  let '(deadSockets, o1) := send_all payload (sessions o) o in
  let o2 := set_sessions (fold_left (fun l ws => sessions_delete ws l)
                                    deadSockets (sessions o1)) o1 in
  console_log (LogBroadcasted (length (sessions o2))) o2.

Record Response := {
  resp_status : Z;
  resp_body : option (string + SessionState)
}.

(** [response.ok] *)
Definition ok (r : Response) : bool :=
  (200 <=? resp_status r) && (resp_status r <=? 299).

Definition text_response (st : Z) (body : string) : Response :=
  {| resp_status := st; resp_body := Some (inl body) |}.
Definition json_success : Response :=
  {| resp_status := 200; resp_body := Some (inl "{success:true}") |}.
Definition json_session (s : SessionState) : Response :=
  {| resp_status := 200; resp_body := Some (inr s) |}.

(** [this.sessionData = await this.ctx.storage.get('sessionData') || null]
    when nothing is in memory. *)
Definition load (o : SessionManager) : SessionManager :=
  match sessionData o with
  | Some _ => o
  | None => set_sessionData (storage o !! "sessionData") o
  end.

Definition handleWebSocket (server : WebSocket) (clientId : string)
    (o : SessionManager) : Response * SessionManager :=
  let o1 := set_sessions (sessions o ++ [(server, clientId)]) o in
  let o2 := load o1 in
  let o3 :=
    match sessionData o2 with
    | Some s =>
        let '(now, o') := Date_now o2 in
        (* server.send right after accept: the socket is open *)
        set_wire (wire o' ++ [Sent (ws_id server) (StateMessage s now)]) o'
    | None => o2
    end in
  let o4 := console_log (LogWebSocketConnected clientId (length (sessions o3))) o3 in
  ({| resp_status := 101; resp_body := None |}, o4).

(** The [close] and [error] listeners registered by [handleWebSocket]. *)
Definition on_close (server : WebSocket) (clientId : string)
    (o : SessionManager) : SessionManager :=
  console_log (LogWebSocketClosed clientId)
    (set_sessions (sessions_delete (ws_id server) (sessions o)) o).
Definition on_error (server : WebSocket) (o : SessionManager) : SessionManager :=
  set_sessions (sessions_delete (ws_id server) (sessions o))
    (console_log LogWebSocketError o).

Definition handleInit (data : SessionInit) (o : SessionManager)
  : Response * SessionManager :=
  let '(t_created, o1) := Date_now o in
  let '(t_updated, o2) := Date_now o1 in
  let '(t_expires, o3) := Date_now o2 in
  let s := {|
    sessionId := init_sessionId data;
    url := init_url data;
    email := init_email data;
    status := queued;
    jobId := None; radarUuid := None; r2Key := None; error := None;
    createdAt := t_created;
    updatedAt := t_updated;
    expiresAt := t_expires + (24 * 60 * 60 * 1000);
    ipAddress := init_ipAddress data;
    userAgent := init_userAgent data;
    country := init_country data;
    progressPercent := None; progressMessage := None;
    workflowInstanceId := None |} in
  let o4 := set_sessionData (Some s) o3 in
  let o5 := set_storage (<["sessionData" := s]> (storage o4)) o4 in
  let o6 := persistToD1 o5 in
  let o7 := set_alarm_time (Some (expiresAt s)) o6 in
  let o8 := console_log (LogSessionInitialized (sessionId s)) o7 in
  (json_success, o8).

Definition handleUpdate (update : SessionUpdate) (o : SessionManager)
  : Response * SessionManager :=
  let o1 := load o in
  match sessionData o1 with
  | None => (text_response 404 "Session not found", o1)
  | Some current =>
      let '(now, o2) := Date_now o1 in
      let s := stamp (spread current update) now in
      let o3 := set_sessionData (Some s) o2 in
      let o4 := set_storage (<["sessionData" := s]> (storage o3)) o3 in
      let o5 := persistToD1 o4 in
      let '(timestamp, o6) := Date_now o5 in
      let o7 := broadcast (UpdateMessage update timestamp) o6 in
      let o8 := console_log (LogSessionUpdated (sessionId s) (status s)) o7 in
      (text_response 200 "OK", o8)
  end.

Definition handleGetState (o : SessionManager) : Response * SessionManager :=
  let o1 := load o in
  match sessionData o1 with
  | None => (text_response 404 "Session not found", o1)
  | Some s => (json_session s, o1)
  end.

(** The loop of [alarm]: [ws.close(1000, 'Session expired')] on every
    key, errors swallowed. *)
Fixpoint close_all (keys : list (WebSocket * string)) (o : SessionManager)
  : SessionManager :=
  match keys with
  | [] => o
  | (ws, _) :: rest =>
      if ws_open ws then
        close_all rest
          (set_wire (wire o ++ [Closed (ws_id ws) 1000 "Session expired"]) o)
      else close_all rest (console_log LogCloseFailed o)
  end.

Definition alarm (o : SessionManager) : SessionManager :=
  let o1 := load (console_log LogAlarmTriggered o) in
  match sessionData o1 with
  | None => console_log LogNoSessionInAlarm o1
  | Some s =>
      let '(now, o2) := Date_now o1 in
      if now >=? expiresAt s then
        let o3 := console_log (LogSessionExpired (sessionId s)) o2 in
        let o4 := close_all (sessions o3) o3 in
        let o5 := set_sessions [] o4 in
        let o6 :=
          match d1_run (alter expire_row (sessionId s)) o5 with
          | (true, o') => o'
          | (false, o') => console_log LogMarkExpiredFailed o'
          end in
        let o7 := set_storage ∅ o6 in
        let o8 := set_sessionData None o7 in
        console_log LogCleanupComplete o8
      else o2
  end.

(** What reaches [fetch]: the upgrade header or the path, with the
    parsed JSON body. *)
Inductive Request :=
| WebSocketUpgrade (server : WebSocket) (clientId : string)
| PostUpdate (update : SessionUpdate)
| GetState
| PostInit (data : SessionInit)
| OtherPath.

Definition fetch (request : Request) (o : SessionManager)
  : Response * SessionManager :=
  match request with
  | WebSocketUpgrade server clientId => handleWebSocket server clientId o
  | PostUpdate update => handleUpdate update o
  | GetState => handleGetState o
  | PostInit data => handleInit data o
  | OtherPath => (text_response 404 "Not found", o)
  end.

(* ===================================================================== *)
(** ** worker/workflows/scan-workflow.ts *)
(* ===================================================================== *)

(** What the global [fetch] gives back for a Radar API request: a
    response (status and body text) or a rejection. *)
Inductive FetchResult :=
| HttpResponse (st : Z) (text : string)
| FetchRejected (e : JsError).

(** The workflow's requests to the outside and its suspensions, in
    order. *)
Inductive WfEvent :=
| ScanRequested (target : string)
| ResultRequested (uuid : string)
| TimerSet (ms : Z)
| StepSleep (name : string) (seconds : Z)
| PdfRequested (target : string)
| R2Put (key : string).

(** The world of one workflow run: the session's durable object, the
    event trace, and the environment's answers: the k-th scan
    submission gets [scan_api k], the k-th result request
    [result_api k], the k-th [put] throws [r2_put k] if that is some
    error; [generatePDFReport] is the renderer of
    [services/pdf-generator]. *)
Record World := {
  sessionDO : SessionManager;
  trace : list WfEvent;
  scan_api : nat -> FetchResult;
  scans : nat;
  result_api : nat -> FetchResult;
  polls : nat;
  r2_put : nat -> option Thrown;
  puts : nat;
  generatePDFReport : string -> string -> Outcome string
}.

Definition set_sessionDO (v : SessionManager) (w : World) : World :=
  {| sessionDO := v; trace := trace w; scan_api := scan_api w;
     scans := scans w; result_api := result_api w; polls := polls w;
     r2_put := r2_put w; puts := puts w;
     generatePDFReport := generatePDFReport w |}.
Definition set_trace (v : list WfEvent) (w : World) : World :=
  {| sessionDO := sessionDO w; trace := v; scan_api := scan_api w;
     scans := scans w; result_api := result_api w; polls := polls w;
     r2_put := r2_put w; puts := puts w;
     generatePDFReport := generatePDFReport w |}.
Definition set_scans (v : nat) (w : World) : World :=
  {| sessionDO := sessionDO w; trace := trace w; scan_api := scan_api w;
     scans := v; result_api := result_api w; polls := polls w;
     r2_put := r2_put w; puts := puts w;
     generatePDFReport := generatePDFReport w |}.
Definition set_polls (v : nat) (w : World) : World :=
  {| sessionDO := sessionDO w; trace := trace w; scan_api := scan_api w;
     scans := scans w; result_api := result_api w; polls := v;
     r2_put := r2_put w; puts := puts w;
     generatePDFReport := generatePDFReport w |}.
Definition set_puts (v : nat) (w : World) : World :=
  {| sessionDO := sessionDO w; trace := trace w; scan_api := scan_api w;
     scans := scans w; result_api := result_api w; polls := polls w;
     r2_put := r2_put w; puts := v;
     generatePDFReport := generatePDFReport w |}.

Definition emit (ev : WfEvent) (w : World) : World :=
  set_trace (trace w ++ [ev]) w.

#[export] Instance world_timers : Timers World :=
  fun ms w => emit (TimerSet ms) w.

(** [step.do(name, callback)]: the callback runs and its result, or its
    rejection, is the step's. *)
Definition step_do {A} (name : string) (callback : Eff World A) : Eff World A :=
  callback.

(** [step.sleep(name, duration)] *)
Definition step_sleep (name : string) (seconds : Z) : Eff World unit :=
  fun w => (Returned tt, emit (StepSleep name seconds) w).

(** [sessionDO.fetch('https://do/...')] *)
Definition sessionDO_fetch (request : Request) : Eff World Response :=
  fun w => let '(r, o) := fetch request (sessionDO w) in
           (Returned r, set_sessionDO o w).

Definition answer (r : FetchResult) (w : World) : Outcome (Z * string) * World :=
  match r with
  | HttpResponse st text => (Returned (st, text), w)
  | FetchRejected e => (Threw (ErrorObj e), w)
  end.

(** [fetch(.../urlscanner/v2/scan, { method: 'POST', ... })] *)
Definition fetch_scan (target : string) : Eff World (Z * string) :=
  fun w => answer (scan_api w (scans w))
                  (set_scans (S (scans w)) (emit (ScanRequested target) w)).

(** [fetch(.../urlscanner/v2/result/${uuid})] *)
Definition fetch_result (uuid : string) : Eff World (Z * string) :=
  fun w => answer (result_api w (polls w))
                  (set_polls (S (polls w)) (emit (ResultRequested uuid) w)).

(** [this.env.radar_scan_reports.put(key, pdfBuffer, ...)] *)
Definition radar_scan_reports_put (key : string) : Eff World unit :=
  fun w => let w' := set_puts (S (puts w)) (emit (R2Put key) w) in
           match r2_put w (puts w) with
           | Some e => (Threw e, w')
           | None => (Returned tt, w')
           end.

Definition render_pdf (scanResult target : string) : Eff World string :=
  fun w => (generatePDFReport w scanResult target, emit (PdfRequested target) w).

(** [`Radar API error (${response.status}): ${errorText}`] *)
Definition radar_api_error (st : Z) (errorText : string) : string :=
  "Radar API error (" +:+ Js.string_of_number st +:+ "): " +:+ errorText.

(** The action of step 'submit to radar api'.  The body of a successful
    response stands for the [uuid] of the parsed [RadarScanResponse]. *)
Definition submit_scan (target : string) : Eff World string :=
  (let! response := fetch_scan target in
   let '(st, text) := response in
   if negb ((200 <=? st) && (st <=? 299)) then
     throw (ErrorObj {| err_message := radar_api_error st text;
                        err_status := Some st |})
   else ret text)%eff.

Definition submit_options : RetryOptions := {|
  maxAttempts := Some 3;
  initialDelayMs := Some 2000;
  maxDelayMs := Some 10000;
  backoffMultiplier := None;
  retryableErrors := Some isRetryableError |}.

Definition upload_options : RetryOptions := {|
  maxAttempts := Some 3;
  initialDelayMs := Some 1000;
  maxDelayMs := Some 5000;
  backoffMultiplier := None;
  retryableErrors := Some isRetryableError |}.

(** [Math.min(15 + Math.floor((attempt / maxAttempts) * 50), 65)] with
    [maxAttempts = 40]; for the forty values of [attempt] the
    double-precision quotient and product floor to [attempt * 50 / 40]. *)
Definition poll_progress (attempt : Z) : Z :=
  Z.min (15 + (attempt * 50) / 40) 65.

(** [`Analyzing URL... (${attempt + 1}/${maxAttempts})`] *)
Definition poll_message (attempt : Z) : string :=
  "Analyzing URL... (" +:+ Js.string_of_number (attempt + 1) +:+ "/40)".

(** The sleep chosen after a not-ready answer to attempt number
    [attempt] (counted from 0). *)
Definition poll_interval (attempt : Z) : Z :=
  if attempt <? 5 then 5 else if attempt <? 15 then 10 else 15.

(** The [for (let attempt = 0; attempt < maxAttempts; attempt++)] loop
    of step 'poll for scan results', [maxAttempts = 40]; [remaining] is
    [maxAttempts - attempt], and when it is exhausted control reaches
    the [throw] after the loop. *)
Fixpoint poll_loop (uuid : string) (remaining : nat) (attempt : Z)
  : Eff World string :=
  match remaining with
  | O => throw (new_Error "Scan timeout after 10 minutes")
  | S remaining' =>
      (await! sessionDO_fetch (PostUpdate
         (update_of None None None None
            (Some (poll_progress attempt)) (Some (poll_message attempt)))) in
       let! response := fetch_result uuid in
       let '(st, text) := response in
       if st =? 200 then ret text
       else if st =? 404 then
         await! (if attempt <? 40 - 1
                 then step_sleep "wait for scan" (poll_interval attempt)
                 else ret tt) in
         poll_loop uuid remaining' (attempt + 1)
       else throw (new_Error (radar_api_error st text)))%eff
  end.

Definition poll_for_scan_results (uuid : string) : Eff World string :=
  poll_loop uuid 40 0.

(** [response.json<SessionState>()] on the answer of [/state]. *)
Definition response_session (r : Response) : Eff World SessionState :=
  match resp_body r with
  | Some (inr s) => ret s
  | _ => throw (new_Error "Unexpected end of JSON input")
  end.

Definition post_update (u : SessionUpdate) : Eff World unit :=
  (await! sessionDO_fetch (PostUpdate u) in ret tt)%eff.

(** The [try] block of [ScanWorkflow.run]. *)
Definition run_steps (sessionId : string) : Eff World unit :=
  ((* Step 1: Get session data *)
   let! sessionState := step_do "fetch session data"
     (let! response := sessionDO_fetch GetState in
      if negb (ok response)
      then throw (new_Error "Failed to fetch session state")
      else response_session response) in
   await! step_do "update progress: starting"
     (post_update (update_of None None None None
        (Some 5) (Some "Submitting URL to Cloudflare Radar..."))) in
   (* Step 2: Submit to Radar API with retry logic *)
   let! radarScan := step_do "submit to radar api"
     (retryWithBackoff (submit_scan (url sessionState)) submit_options) in
   await! step_do "update session with radar uuid"
     (post_update (update_of (Some scanning) (Some radarScan) None None
        (Some 15) (Some "Scan submitted. Waiting for results..."))) in
   (* Step 3: Poll for scan results with adaptive intervals *)
   let! scanResult := step_do "poll for scan results"
     (poll_for_scan_results radarScan) in
   (* Step 4: Update status to generating *)
   await! step_do "update status to generating"
     (post_update (update_of (Some generating) None None None
        (Some 70) (Some "Scan complete! Generating PDF report..."))) in
   (* Step 5: Generate PDF *)
   let! pdfBuffer := step_do "generate pdf"
     (render_pdf scanResult (url sessionState)) in
   (* Step 6: Update status to uploading *)
   await! step_do "update status to uploading"
     (post_update (update_of (Some uploading) None None None
        (Some 85) (Some "Uploading report to cloud storage..."))) in
   (* Step 7: Upload to R2 with retry logic *)
   let! r2Key := step_do "upload to r2"
     (let key := "sessions/" +:+ sessionId +:+ "/report.pdf" in
      await! retryWithBackoff (radar_scan_reports_put key) upload_options in
      ret key) in
   (* Step 8: Mark as completed (ready for download) *)
   step_do "mark completed"
     (post_update (update_of (Some completed) None (Some r2Key) None
        (Some 100) (Some "Scan complete! Your report is ready."))))%eff.

(** The [catch (error)] block. *)
Definition mark_failed (error : Thrown) : Eff World unit :=
  (let friendlyError := getUserFriendlyError error in
   await! step_do "mark failed"
     (post_update (update_of (Some failed) None None
        (Some (displayMessage friendlyError)) None None)) in
   (* Re-throw to mark workflow as failed *)
   throw error)%eff.

Definition run (sessionId : string) : Eff World unit :=
  try_catch (run_steps sessionId) mark_failed.

(* ===================================================================== *)
(** ** The status state machine of the specification *)
(* ===================================================================== *)





(** The statuses the durable object logged with 'Session updated', in
    order: one per accepted update. *)
Fixpoint updated_statuses (lines : list LogLine) : list Status :=
  match lines with
  | [] => []
  | LogSessionUpdated _ st :: rest => st :: updated_statuses rest
  | _ :: rest => updated_statuses rest
  end.

(** The session the durable object answers with: memory first, then
    storage. *)
Definition current (o : SessionManager) : option SessionState :=
  match sessionData o with
  | Some s => Some s
  | None => storage o !! "sessionData"
  end.

(* ===================================================================== *)
(** ** Scenarios *)
(* ===================================================================== *)

(** An action that rejects whatever the world it is called in. *)
Definition always_fails {W T} (fn : Eff W T) : Prop :=
  forall w, exists e, fst (fn w) = Threw e.

(** Three attempts, 100ms then 200ms, on the recording world. *)
Definition three_attempts : RetryOptions := {|
  maxAttempts := Some 3; initialDelayMs := Some 100; maxDelayMs := None;
  backoffMultiplier := Some 2; retryableErrors := Some (fun _ => true) |}.

Definition numbered_error (k : nat) : Thrown :=
  ErrorObj (mkError "boom" (Some (Z.of_nat k))).

Definition zero_attempts : RetryOptions := {|
  maxAttempts := Some 0; initialDelayMs := None; maxDelayMs := None;
  backoffMultiplier := None; retryableErrors := None |}.

(** An error outside the network and 5xx/429 classes. *)
Definition invalid_url_error : Thrown := new_Error "Invalid URL".

(** Options that pass the classifier explicitly, as the workflow does. *)
Definition classified_options : RetryOptions := {|
  maxAttempts := None; initialDelayMs := None; maxDelayMs := None;
  backoffMultiplier := None; retryableErrors := Some isRetryableError |}.

(* ===================================================================== *)
(** ** Reading the durable object's handlers *)
(* ===================================================================== *)

(** The entries whose socket accepts [send] and [close]. *)
Definition live (keys : list (WebSocket * string)) : list (WebSocket * string) :=
  List.filter (fun e => ws_open (fst e)) keys.

(** The sockets a broadcast finds dead. *)
Definition dead_ids (keys : list (WebSocket * string)) : list nat :=
  map (fun e => ws_id (fst e))
      (List.filter (fun e => negb (ws_open (fst e))) keys).

(** The registry once the dead sockets are deleted. *)
Definition prune (keys : list (WebSocket * string)) : list (WebSocket * string) :=
  fold_left (fun l ws => sessions_delete ws l) (dead_ids keys) keys.

Definition sent_frames (payload : Envelope) (keys : list (WebSocket * string))
  : list Frame :=
  map (fun e => Sent (ws_id (fst e)) payload) (live keys).

Definition closed_frames (keys : list (WebSocket * string)) : list Frame :=
  map (fun e => Closed (ws_id (fst e)) 1000 "Session expired") (live keys).

(** The D1 table and the log line after the next [persistToD1] of [s]. *)
Definition mirror_after (s : SessionState) (o : SessionManager)
  : gmap string SessionRow :=
  if d1_fails o (d1_calls o) then radar_scanner_db o
  else <[sessionId s := row_of s]> (radar_scanner_db o).
Definition persist_line (s : SessionState) (o : SessionManager) : LogLine :=
  if d1_fails o (d1_calls o) then LogPersistToD1Failed
  else LogPersistedToD1 (sessionId s).

(** The record [handleInit] builds in [o]. *)
Definition fresh_session (data : SessionInit) (o : SessionManager) : SessionState := {|
  sessionId := init_sessionId data;
  url := init_url data;
  email := init_email data;
  status := queued;
  jobId := None; radarUuid := None; r2Key := None; error := None;
  createdAt := clock o (ticks o);
  updatedAt := clock o (S (ticks o));
  expiresAt := clock o (S (S (ticks o))) + 86400000;
  ipAddress := init_ipAddress data;
  userAgent := init_userAgent data;
  country := init_country data;
  progressPercent := None; progressMessage := None;
  workflowInstanceId := None |}.

(** The record [handleUpdate] stores in [o] over [s]. *)
Definition updated (s : SessionState) (update : SessionUpdate)
    (o : SessionManager) : SessionState :=
  stamp (spread s update) (clock o (ticks o)).

(** A sequence of [/update] requests, each after a cold start of the
    object when flagged. *)
Fixpoint post_updates (us : list (bool * SessionUpdate)) (o : SessionManager)
  : list Response * SessionManager :=
  match us with
  | [] => ([], o)
  | (cold, u) :: rest =>
      let '(r, o1) := handleUpdate u (if cold : bool then constructor o else o) in
      let '(rs, o2) := post_updates rest o1 in
      (r :: rs, o2)
  end.

(** The session held after each of those requests. *)
Fixpoint snapshots (us : list (bool * SessionUpdate)) (o : SessionManager)
  : list (option SessionState) :=
  match us with
  | [] => []
  | (cold, u) :: rest =>
      let o1 := snd (handleUpdate u (if cold : bool then constructor o else o)) in
      current o1 :: snapshots rest o1
  end.

(** The record after a sequence of updates, as the handler builds it:
    one spread and one stamp per update, each stamp the clock reading
    its update takes (an update reads the clock twice). *)
Fixpoint merged (s : SessionState) (us : list SessionUpdate)
    (clock : nat -> Z) (tick : nat) : SessionState :=
  match us with
  | [] => s
  | u :: rest => merged (stamp (spread s u) (clock tick)) rest clock (S (S tick))
  end.

(** What the partials [us], applied in order, say about one key: the
    value of the last partial that carries it, if any does. *)
Fixpoint last_given {A} (key : SessionUpdate -> option A)
    (us : list SessionUpdate) : option A :=
  match us with
  | [] => None
  | u :: rest =>
      match last_given key rest with
      | Some v => Some v
      | None => key u
      end
  end.

(** A required field after the partials: the last value given, or the
    record's own. *)
Definition merged_field {A} (own : A) (given : option A) : A :=
  match given with
  | Some v => v
  | None => own
  end.

(** An optional field after the partials. *)
Definition merged_optional {A} (own given : option A) : option A :=
  match given with
  | Some v => Some v
  | None => own
  end.

(** The field-wise merge the specification speaks of, written field by
    field and without the handler's spread: every field of [record] is
    replaced by what the partials say about it; [updatedAt] is [stamped],
    whatever the partials say. *)
Definition field_wise_merge (record : SessionState) (us : list SessionUpdate)
    (stamped : Z) : SessionState := {|
  sessionId := merged_field (sessionId record) (last_given upd_sessionId us);
  url := merged_field (url record) (last_given upd_url us);
  email := merged_field (email record) (last_given upd_email us);
  status := merged_field (status record) (last_given upd_status us);
  jobId := merged_optional (jobId record) (last_given upd_jobId us);
  radarUuid := merged_optional (radarUuid record) (last_given upd_radarUuid us);
  r2Key := merged_optional (r2Key record) (last_given upd_r2Key us);
  error := merged_optional (error record) (last_given upd_error us);
  createdAt := merged_field (createdAt record) (last_given upd_createdAt us);
  updatedAt := stamped;
  expiresAt := merged_field (expiresAt record) (last_given upd_expiresAt us);
  ipAddress := merged_optional (ipAddress record) (last_given upd_ipAddress us);
  userAgent := merged_optional (userAgent record) (last_given upd_userAgent us);
  country := merged_optional (country record) (last_given upd_country us);
  progressPercent :=
    merged_optional (progressPercent record) (last_given upd_progressPercent us);
  progressMessage :=
    merged_optional (progressMessage record) (last_given upd_progressMessage us);
  workflowInstanceId :=
    merged_optional (workflowInstanceId record)
                    (last_given upd_workflowInstanceId us)
|}.

(** The [updatedAt] held after [n] updates that started reading the
    clock at [tick]: the record's own when there was none, else the
    first of the two readings of the last update. *)
Definition last_stamp (own : Z) (clock : nat -> Z) (tick n : nat) : Z :=
  match n with
  | O => own
  | S k => clock (tick + 2 * k)%nat
  end.

Definition updatedAt_of (s : option SessionState) : Z :=
  from_option updatedAt 0 s.

(** A clock that never runs backwards. *)
Definition monotone (clock : nat -> Z) : Prop :=
  forall i j, (i <= j)%nat -> clock i <= clock j.

(** A durable object that has not seen any request, with a clock that
    starts at 1000 and advances 1ms per reading; [mirror_down] is D1's
    fault schedule. *)
Definition blank_object (mirror_down : nat -> bool) : SessionManager := {|
  sessions := []; sessionData := None; storage := ∅; alarm_time := None;
  radar_scanner_db := ∅; console := []; wire := [];
  ticks := 0; clock := fun k => 1000 + Z.of_nat k;
  d1_calls := 0; d1_fails := mirror_down |}.

(** The same object with a clock that is set back 1ms at each reading,
    from 5000. *)
Definition backwards_object : SessionManager := {|
  sessions := []; sessionData := None; storage := ∅; alarm_time := None;
  radar_scanner_db := ∅; console := []; wire := [];
  ticks := 0; clock := fun k => 5000 - Z.of_nat k;
  d1_calls := 0; d1_fails := fun _ => false |}.

Definition init_example (target : string) : SessionInit := {|
  init_sessionId := "s-1"; init_url := target;
  init_email := "user@example.com";
  init_ipAddress := None; init_userAgent := None; init_country := None |}.

(** A session initialised on a blank object. *)
Definition started_object (mirror_down : nat -> bool) : SessionManager :=
  snd (handleInit (init_example "https://example.com") (blank_object mirror_down)).

Definition client (id : nat) (open : bool) : WebSocket * string :=
  ({| ws_id := id; ws_open := open |}, "client").

(** The D1 table after the alarm's [UPDATE ... SET status = 'expired']
    for session [id]. *)
Definition mirror_expired (id : string) (o : SessionManager)
  : gmap string SessionRow :=
  if d1_fails o (d1_calls o) then radar_scanner_db o
  else alter expire_row id (radar_scanner_db o).

(** A started session that has run to [completed], with two clients
    attached (one of them gone), at a time past its expiry. *)
Definition completed_object : SessionManager :=
  let o := snd (handleUpdate
                  (update_of (Some completed) None (Some "sessions/s-1/report.pdf")
                             None (Some 100) None)
                  (started_object (fun _ => false))) in
  {| sessions := [client 1 true; client 2 false; client 3 true];
     sessionData := sessionData o; storage := storage o;
     alarm_time := alarm_time o; radar_scanner_db := radar_scanner_db o;
     console := console o; wire := wire o; ticks := ticks o;
     clock := fun k => 1000 + 86400000 + Z.of_nat k;
     d1_calls := d1_calls o; d1_fails := d1_fails o |}.

(** The same object when D1 stops answering after the two statements
    that mirrored the session: the alarm's [UPDATE] throws. *)
Definition mirror_lost_object : SessionManager :=
  let o := completed_object in
  {| sessions := sessions o; sessionData := sessionData o;
     storage := storage o; alarm_time := alarm_time o;
     radar_scanner_db := radar_scanner_db o;
     console := console o; wire := wire o; ticks := ticks o;
     clock := clock o; d1_calls := d1_calls o;
     d1_fails := fun k => (2 <=? k)%nat |}.

(** A started session with three clients attached, one of them gone. *)
Definition watched_object (mirror_down : nat -> bool) : SessionManager :=
  set_sessions [client 1 true; client 2 false; client 3 true]
    (started_object mirror_down).

(** Two updates, the second one after a cold start. *)
Definition two_updates : list (bool * SessionUpdate) :=
  [ (false, update_of (Some scanning) (Some "uuid-1") None None (Some 15) None);
    (true, update_of None None None None (Some 20) (Some "Analyzing URL...")) ].

(* ===================================================================== *)
(** ** Reading the poll loop *)
(* ===================================================================== *)

(** The answer that keeps the loop polling: HTTP 404. *)
Definition not_ready (r : FetchResult) : bool :=
  match r with
  | HttpResponse st _ => st =? 404
  | FetchRejected _ => false
  end.

(** How many answers in a row, from request number [from] on and at
    most [limit], are not-ready. *)
Fixpoint not_ready_run (api : nat -> FetchResult) (from limit : nat) : nat :=
  match limit with
  | O => O
  | S l => if not_ready (api from) then S (not_ready_run api (S from) l) else O
  end.

(** What the loop does with an answer other than not-ready. *)
Definition poll_outcome (r : FetchResult) : Outcome string :=
  match r with
  | HttpResponse st text =>
      if st =? 200 then Returned text
      else Threw (new_Error (radar_api_error st text))
  | FetchRejected e => Threw (ErrorObj e)
  end.

(** The sleep after a not-ready answer to attempt [attempt] (from 0):
    none after the last attempt. *)
Definition sleep_after (attempt : Z) : list WfEvent :=
  if attempt <? 39 then [StepSleep "wait for scan" (poll_interval attempt)] else [].

(** The requests and sleeps of [count] not-ready attempts in a row,
    starting with attempt [attempt]. *)
Fixpoint poll_events (uuid : string) (attempt : Z) (count : nat) : list WfEvent :=
  match count with
  | O => []
  | S c => ResultRequested uuid :: sleep_after attempt
           ++ poll_events uuid (attempt + 1) c
  end.

(** [count] rounds of one request followed by a sleep of [seconds]. *)
Definition rounds (uuid : string) (seconds : Z) (count : nat) : list WfEvent :=
  concat (repeat [ResultRequested uuid; StepSleep "wait for scan" seconds] count).

Definition scan_timeout : Thrown := new_Error "Scan timeout after 10 minutes".

(** A workflow world around a started session: submissions answer 200
    with uuid-1, results answer [results], R2 and the renderer work. *)
Definition scan_world (submissions results : nat -> FetchResult) : World := {|
  sessionDO := started_object (fun _ => false);
  trace := [];
  scan_api := submissions; scans := 0;
  result_api := results; polls := 0;
  r2_put := fun _ => None; puts := 0;
  generatePDFReport := fun _ _ => Returned "%PDF-1.7" |}.

Definition accepts (k : nat) : FetchResult := HttpResponse 200 "uuid-1".

(** A result service that is not ready for its first 41 calls. *)
Definition slow_results (k : nat) : FetchResult :=
  if (k <? 41)%nat then HttpResponse 404 "not found" else HttpResponse 200 "{}".

(** The error the submit step throws for an HTTP 500 with body [text]. *)
Definition submission_error (text : string) : Thrown :=
  ErrorObj (mkError (radar_api_error 500 text) (Some 500)).

(** A submission service that always answers HTTP 500. *)
Definition always_500 (k : nat) : FetchResult :=
  HttpResponse 500 "Internal Server Error".

(** A submission service that always answers HTTP 500 with the body
    'Error'. *)
Definition terse_500 (k : nat) : FetchResult :=
  HttpResponse 500 "Error".

(* ===================================================================== *)
(** ** Reading a workflow run against the transition table *)
(* ===================================================================== *)



(** A session in [completed] that receives an update back to [queued]. *)
Definition requeue : SessionUpdate :=
  update_of (Some queued) None None None None None.

Ltac world_setters :=
  cbv [emit set_sessionDO set_trace set_scans set_polls set_puts
       sessionDO trace scan_api scans result_api polls r2_put puts
       generatePDFReport fst snd].

Ltac setters :=
  cbv [console_log Date_now set_sessions set_sessionData set_storage
       set_alarm_time set_radar_scanner_db set_console set_wire set_ticks
       set_d1_calls
       sessions sessionData storage alarm_time radar_scanner_db console wire
       ticks clock d1_calls d1_fails fst snd] in *.

(* ===================================================================== *)
(** ** Further scenarios for the retry policy *)
(* ===================================================================== *)

(** An action on the recording world whose k-th call settles as
    [script k]. *)
Definition scripted {T} (script : nat -> Outcome T) : Eff (list ProbeEvent) T :=
  fun tr => (script (invocations tr), tr ++ [Invoked]).

(** An action that rejects its first [k] calls, the i-th with [errs i],
    and fulfils every later one with [v]. *)
Definition flaky {T} (k : nat) (errs : nat -> Thrown) (v : T) (i : nat)
  : Outcome T :=
  if (i <? k)%nat then Threw (errs i) else Returned v.

(** Whether the loop goes round again after an outcome, the attempt
    limit aside: a rejection the predicate accepts. *)
Definition retried {T} (p : Thrown -> bool) (r : Outcome T) : bool :=
  match r with
  | Threw e => p e
  | Returned _ => false
  end.

(** How many outcomes in a row, from call [from] on and at most
    [limit], are retried. *)
Fixpoint retried_run {T} (p : Thrown -> bool) (script : nat -> Outcome T)
    (from limit : nat) : nat :=
  match limit with
  | O => O
  | S l => if retried p (script from)
           then S (retried_run p script (S from) l) else O
  end.

(** The recording of [failures] retried attempts followed by one more
    attempt, the first of them being attempt number [attempt]. *)
Fixpoint retries_trace (opts : ResolvedRetryOptions) (attempt : Z)
    (failures : nat) : list ProbeEvent :=
  match failures with
  | O => [Invoked]
  | S f => Invoked :: Slept (backoff_delay opts attempt)
           :: retries_trace opts (attempt + 1) f
  end.

(* ===================================================================== *)
(** ** The classifier's catalogue *)
(* ===================================================================== *)

(** The display strings of the entries outside the Radar API branch. *)
Definition general_messages : list string :=
  [ "Connection Error: Unable to connect to our servers. Please check your internet connection and try again.";
    "Request Timeout: The request took too long to complete. Please try again.";
    "Storage Error: We couldn't save your scan report. Please try scanning again.";
    "Database Error: We encountered an issue saving your scan data. Your scan may still complete. Please check back in a moment.";
    "Report Generation Error: We couldn't generate your PDF report. Please try scanning again.";
    "Processing Error: We encountered an issue processing your scan. Please try again.";
    "Email Delivery Failed: We couldn't send the report to your email. You can still download the report from this page.";
    "Something Went Wrong: We encountered an unexpected error. Please try again. If the problem persists, contact support." ].

(* ===================================================================== *)
(** ** Reading the connection registry *)
(* ===================================================================== *)

(** The identities of the registered sockets. *)
Definition socket_ids (keys : list (WebSocket * string)) : list nat :=
  map (fun e => ws_id (fst e)) keys.

(** A later update on the registry of [watched_object]. *)
Definition progress_20 : SessionUpdate :=
  update_of None None None None (Some 20) (Some "Analyzing URL...").

(* ===================================================================== *)
(** ** Reading a whole workflow run *)
(* ===================================================================== *)

(** Steps 4 to 8 of [ScanWorkflow.run], as they stand in [run_steps]
    after the poll step. *)
Definition finish_run (sessionId : string) (sessionState : SessionState)
    (scanResult : string) : Eff World unit :=
  (await! step_do "update status to generating"
     (post_update (update_of (Some generating) None None None
        (Some 70) (Some "Scan complete! Generating PDF report..."))) in
   let! pdfBuffer := step_do "generate pdf"
     (render_pdf scanResult (url sessionState)) in
   await! step_do "update status to uploading"
     (post_update (update_of (Some uploading) None None None
        (Some 85) (Some "Uploading report to cloud storage..."))) in
   let! r2Key := step_do "upload to r2"
     (let key := "sessions/" +:+ sessionId +:+ "/report.pdf" in
      await! retryWithBackoff (radar_scan_reports_put key) upload_options in
      ret key) in
   step_do "mark completed"
     (post_update (update_of (Some completed) None (Some r2Key) None
        (Some 100) (Some "Scan complete! Your report is ready."))))%eff.

(** The session exists and satisfies [P]. *)
Definition session_holds (P : SessionState -> Prop) (w : World) : Prop :=
  exists s, current (sessionDO w) = Some s /\ P s.

(** What the workflow never writes: the fields of [s0] that identify
    the session, and its error. *)
Definition same_identity (s0 s : SessionState) : Prop :=
  sessionId s = sessionId s0 /\ url s = url s0 /\ email s = email s0 /\
  createdAt s = createdAt s0 /\ expiresAt s = expiresAt s0 /\
  error s = error s0.

(** The R2 key of a session's report. *)
Definition report_key (sessionId : string) : string :=
  "sessions/" +:+ sessionId +:+ "/report.pdf".

(** A result service that is ready at its third call. *)
Definition ready_at_third (k : nat) : FetchResult :=
  if (k <? 2)%nat then HttpResponse 404 "not found" else HttpResponse 200 "{result}".

(** A result service that is never ready. *)
Definition never_ready (k : nat) : FetchResult := HttpResponse 404 "not found".

(** A workflow world around a durable object that holds no session. *)
Definition orphan_world : World := {|
  sessionDO := blank_object (fun _ => false);
  trace := [];
  scan_api := accepts; scans := 0;
  result_api := ready_at_third; polls := 0;
  r2_put := fun _ => None; puts := 0;
  generatePDFReport := fun _ _ => Returned "%PDF-1.7" |}.

(* ===================================================================== *)
(** ** The workflow over an unreliable stub *)
(* ===================================================================== *)

(** What can go wrong with one [sessionDO.fetch]: the promise rejects,
    either before the request reaches the durable object or after the
    object has handled it (its answer is lost). *)
Inductive Fault :=
| LostRequest (e : Thrown)
| LostResponse (e : Thrown).

(** The link between the workflow and the durable object: for a
    request made in a world, the fault that hits it, if any. *)
Definition Network : Type := Request -> World -> option Fault.

(** [sessionDO.fetch('https://do/...')] over a link: a call that is not
    hit by a fault is served by the durable object. *)
Definition sessionDO_fetch_over (net : Network) (request : Request)
  : Eff World Response :=
  fun w => match net request w with
           | None => sessionDO_fetch request w
           | Some (LostRequest e) => (Threw e, w)
           | Some (LostResponse e) => (Threw e, snd (sessionDO_fetch request w))
           end.

(** [ScanWorkflow.run] with its stub as a parameter: the text of
    [poll_loop], [run_steps], [mark_failed] and [run], with [stub] for
    [sessionDO.fetch]. *)
Section Stub.
Variable stub : Request -> Eff World Response.

Fixpoint poll_loop_via (uuid : string) (remaining : nat) (attempt : Z)
  : Eff World string :=
  match remaining with
  | O => throw (new_Error "Scan timeout after 10 minutes")
  | S remaining' =>
      (await! stub (PostUpdate
         (update_of None None None None
            (Some (poll_progress attempt)) (Some (poll_message attempt)))) in
       let! response := fetch_result uuid in
       let '(st, text) := response in
       if st =? 200 then ret text
       else if st =? 404 then
         await! (if attempt <? 40 - 1
                 then step_sleep "wait for scan" (poll_interval attempt)
                 else ret tt) in
         poll_loop_via uuid remaining' (attempt + 1)
       else throw (new_Error (radar_api_error st text)))%eff
  end.

Definition post_update_via (u : SessionUpdate) : Eff World unit :=
  (await! stub (PostUpdate u) in ret tt)%eff.

Definition run_steps_via (sessionId : string) : Eff World unit :=
  (let! sessionState := step_do "fetch session data"
     (let! response := stub GetState in
      if negb (ok response)
      then throw (new_Error "Failed to fetch session state")
      else response_session response) in
   await! step_do "update progress: starting"
     (post_update_via (update_of None None None None
        (Some 5) (Some "Submitting URL to Cloudflare Radar..."))) in
   let! radarScan := step_do "submit to radar api"
     (retryWithBackoff (submit_scan (url sessionState)) submit_options) in
   await! step_do "update session with radar uuid"
     (post_update_via (update_of (Some scanning) (Some radarScan) None None
        (Some 15) (Some "Scan submitted. Waiting for results..."))) in
   let! scanResult := step_do "poll for scan results"
     (poll_loop_via radarScan 40 0) in
   await! step_do "update status to generating"
     (post_update_via (update_of (Some generating) None None None
        (Some 70) (Some "Scan complete! Generating PDF report..."))) in
   let! pdfBuffer := step_do "generate pdf"
     (render_pdf scanResult (url sessionState)) in
   await! step_do "update status to uploading"
     (post_update_via (update_of (Some uploading) None None None
        (Some 85) (Some "Uploading report to cloud storage..."))) in
   let! r2Key := step_do "upload to r2"
     (let key := "sessions/" +:+ sessionId +:+ "/report.pdf" in
      await! retryWithBackoff (radar_scan_reports_put key) upload_options in
      ret key) in
   step_do "mark completed"
     (post_update_via (update_of (Some completed) None (Some r2Key) None
        (Some 100) (Some "Scan complete! Your report is ready."))))%eff.

Definition mark_failed_via (error : Thrown) : Eff World unit :=
  (let friendlyError := getUserFriendlyError error in
   await! step_do "mark failed"
     (post_update_via (update_of (Some failed) None None
        (Some (displayMessage friendlyError)) None None)) in
   throw error)%eff.

Definition run_via (sessionId : string) : Eff World unit :=
  try_catch (run_steps_via sessionId) mark_failed_via.

End Stub.

(** The body the [catch] block posts for [error]. *)
Definition failure_report (error : Thrown) : SessionUpdate :=
  update_of (Some failed) None None
    (Some (displayMessage (getUserFriendlyError error))) None None.

(** The session is there and its failure has not been recorded. *)
Definition unreported (w : World) : Prop :=
  session_holds (fun s => status s <> failed) w.

(** [m], started where [P] holds, ends where [Q] holds when it returns
    and where [R] holds when it throws. *)
Definition ensures {A} (P : World -> Prop) (m : Eff World A)
    (Q R : World -> Prop) : Prop :=
  forall w, P w ->
    match m w with
    | (Returned _, w') => Q w'
    | (Threw _, w') => R w'
    end.

(** A link without faults, and one that loses every failure report on
    its way to the durable object. *)
Definition reliable : Network := fun _ _ => None.

Definition connection_lost : Thrown := new_Error "Network connection lost.".

Definition loses_failure_report : Network :=
  fun request _ =>
    match request with
    | PostUpdate u =>
        if bool_decide (upd_status u = Some failed)
        then Some (LostRequest connection_lost)
        else None
    | _ => None
    end.

(* ===================================================================== *)
(** ** worker/utils/validation.ts: sanitizeString *)
(* ===================================================================== *)

(** For [trim], a string is read as a sequence of code units below 256;
    among those, the white space and line terminators of JavaScript are
    tab, line feed, vertical tab, form feed, carriage return, space and
    no-break space. *)
Definition is_white_space (c : ascii) : bool :=
  let n := nat_of_ascii c in
  (Nat.leb 9 n && Nat.leb n 13) || Nat.eqb n 32 || Nat.eqb n 160.

Definition is_angle (c : ascii) : bool :=
  Ascii.eqb c "<" || Ascii.eqb c ">".

(** [s.replace(/[<>]/g, '')] *)
Fixpoint remove_angles (s : string) : string :=
  match s with
  | EmptyString => EmptyString
  | String c rest =>
      if is_angle c then remove_angles rest else String c (remove_angles rest)
  end.

(** [s.trimStart()] *)
Fixpoint trimStart (s : string) : string :=
  match s with
  | EmptyString => EmptyString
  | String c rest => if is_white_space c then trimStart rest else s
  end.

(** [s.trimEnd()] *)
Fixpoint trimEnd (s : string) : string :=
  match s with
  | EmptyString => EmptyString
  | String c rest =>
      match trimEnd rest with
      | EmptyString => if is_white_space c then EmptyString else String c EmptyString
      | kept => String c kept
      end
  end.

(** [s.trim()] *)
Definition trim (s : string) : string := trimEnd (trimStart s).

Definition sanitizeString (input : string) : string :=
  String.substring 0 2048 (trim (remove_angles input)).

(** Every code unit of [s] satisfies [p]. *)
Fixpoint every (p : ascii -> bool) (s : string) : bool :=
  match s with
  | EmptyString => true
  | String c rest => p c && every p rest
  end.

(** [s] does not start with white space. *)
Definition starts_clean (s : string) : bool :=
  match s with
  | EmptyString => true
  | String c _ => negb (is_white_space c)
  end.

(** [s] does not end with white space. *)
Fixpoint ends_clean (s : string) : bool :=
  match s with
  | EmptyString => true
  | String c EmptyString => negb (is_white_space c)
  | String _ rest => ends_clean rest
  end.

(** The error the submit step throws for a response that is not ok. *)
Definition rejected_submission (st : Z) (text : string) : Thrown :=
  ErrorObj (mkError (radar_api_error st text) (Some st)).

(** A submission service that answers 403. *)
Definition forbids (k : nat) : FetchResult := HttpResponse 403 "Forbidden".

Ltac split_classifier :=
  repeat match goal with
         | |- context [if ?c then _ else _] => destruct c eqn:?
         end.

Ltac pick_message :=
  vm_compute; repeat (first [left; reflexivity | right]).

Ltac refute_membership H :=
  cbn [In scanning_service_messages] in H;
  repeat match type of H with
         | _ \/ _ => destruct H as [H | H]
         end;
  solve [ destruct H | vm_compute in H; discriminate ].

(* ===================================================================== *)
(** * Properties *)
(* ===================================================================== *)

(** ** Retry policy *)

Section RetryFacts.
Context {W : Type} `{Timers W} {T : Type}.
Implicit Types (fn : Eff W T) (opts : ResolvedRetryOptions).

Lemma retry_loop_zero fn opts attempt lastError w :
  retry_loop fn opts 0 attempt lastError w = (Threw lastError, w).
Proof. reflexivity. Qed.

(** One failed, retryable attempt that is not the last: sleep and go
    round again. *)
Lemma retry_loop_again fn opts remaining attempt lastError w e w1 :
  fn w = (Threw e, w1) ->
  opt_retryableErrors opts e = true ->
  attempt <> opt_maxAttempts opts ->
  retry_loop fn opts (S remaining) attempt lastError w =
  retry_loop fn opts remaining (attempt + 1) e
             (setTimeout (backoff_delay opts attempt) w1).
Proof.
  intros Hfn Hre Hne. cbn [retry_loop]. rewrite Hfn, Hre. cbn [negb].
  apply Z.eqb_neq in Hne. rewrite Hne. reflexivity.
Qed.

(** A failed attempt that the predicate refuses, or the last one,
    ends the loop with that attempt's error and without sleeping. *)
Lemma retry_loop_stop fn opts remaining attempt lastError w e w1 :
  fn w = (Threw e, w1) ->
  opt_retryableErrors opts e = false \/ attempt = opt_maxAttempts opts ->
  retry_loop fn opts (S remaining) attempt lastError w = (Threw e, w1).
Proof.
  intros Hfn Hstop. cbn [retry_loop]. rewrite Hfn.
  destruct (opt_retryableErrors opts e); cbn [negb]; [|reflexivity].
  destruct Hstop as [Hf | ->]; [discriminate|].
  rewrite Z.eqb_refl. reflexivity.
Qed.

Lemma retry_loop_failing fn opts :
  always_fails fn ->
  (forall e, opt_retryableErrors opts e = true) ->
  forall remaining attempt lastError w,
    attempt + Z.of_nat remaining = opt_maxAttempts opts ->
    retry_loop fn opts (S remaining) attempt lastError w =
    failing_run fn (delays_from opts attempt remaining) w.
Proof.
  intros Hfail Hre remaining.
  induction remaining as [|r IH]; intros attempt lastError w Hcount.
  - destruct (Hfail w) as [e He]. destruct (fn w) as [res w1] eqn:Hfn.
    cbn [fst] in He. subst res. cbn [delays_from failing_run].
    rewrite Hfn. eapply retry_loop_stop; [exact Hfn | right; lia].
  - destruct (Hfail w) as [e He]. destruct (fn w) as [res w1] eqn:Hfn.
    cbn [fst] in He. subst res.
    rewrite (retry_loop_again _ _ _ _ _ _ _ _ Hfn (Hre e)) by lia.
    rewrite IH by lia. cbn [delays_from failing_run]. rewrite Hfn.
    reflexivity.
Qed.

(** An always-failing action run through [failing_run] still fails. *)
Lemma failing_run_fails fn delays w :
  always_fails fn -> exists e, fst (failing_run fn delays w) = Threw e.
Proof.
  intros Hfail. revert w. induction delays as [|d ds IH]; intros w.
  - apply Hfail.
  - cbn [failing_run]. apply IH.
Qed.
End RetryFacts.

Lemma delays_from_length opts from count :
  length (delays_from opts from count) = count.
Proof.
  revert from. induction count as [|c IH]; intros from; cbn; [|rewrite IH]; reflexivity.
Qed.

Lemma delays_from_nth opts from count (i : nat) :
  (i < count)%nat ->
  nth_error (delays_from opts from count) i =
  Some (backoff_delay opts (from + Z.of_nat i)).
Proof.
  revert from i. induction count as [|c IH]; intros from i Hi; [lia|].
  destruct i as [|i]; cbn [delays_from nth_error].
  - f_equal. f_equal. lia.
  - rewrite IH by lia. f_equal. f_equal. lia.
Qed.

(** C5: an action that fails on every call, run with [maxAttempts = n >= 1]
    and a predicate that accepts every error, is invoked exactly [n]
    times: the run is the action, a sleep, the action, ..., the action,
    with [n - 1] sleeps in between, the one after the k-th failed attempt
    lasting [min (initialDelayMs * backoffMultiplier ^ (k - 1), maxDelayMs)];
    nothing is slept after the n-th attempt, and the run fails with
    that attempt's error. *)
Theorem retry_always_failing {W : Type} `{Timers W} {T : Type}
    (fn : Eff W T) (options : RetryOptions) (n : Z) :
  let opts := spread_options DEFAULT_OPTIONS options in
  let delays := delays_from opts 1 (Z.to_nat (n - 1)) in
  always_fails fn ->
  maxAttempts options = Some n ->
  1 <= n ->
  (forall e, opt_retryableErrors opts e = true) ->
  (forall w, retryWithBackoff fn options w = failing_run fn delays w) /\
  (forall w, exists e, fst (retryWithBackoff fn options w) = Threw e) /\
  Z.of_nat (length delays) = n - 1 /\
  (forall k, 1 <= k < n ->
     nth_error delays (Z.to_nat (k - 1)) =
     Some (Z.min (opt_initialDelayMs opts * opt_backoffMultiplier opts ^ (k - 1))
                 (opt_maxDelayMs opts))).
Proof.
  intros opts delays Hfail Hmax Hn Hre.
  assert (Hopt : opt_maxAttempts opts = n).
  { subst opts. cbn. rewrite Hmax. reflexivity. }
  assert (Hrun : forall w, retryWithBackoff fn options w = failing_run fn delays w).
  { intros w. unfold retryWithBackoff. fold opts. rewrite Hopt.
    replace (Z.to_nat n) with (S (Z.to_nat (n - 1))) by lia.
    apply retry_loop_failing; [assumption | assumption | lia]. }
  split; [exact Hrun|]. split.
  - intros w. rewrite Hrun. apply failing_run_fails, Hfail.
  - split.
    + subst delays. rewrite delays_from_length. lia.
    + intros k Hk. subst delays. rewrite delays_from_nth by lia.
      unfold backoff_delay. do 4 f_equal. lia.
Qed.

Lemma rejecting_always_fails errs : always_fails (rejecting errs).
Proof. intros w. eexists. reflexivity. Qed.

Lemma retry_always_failing_witness :
  retryWithBackoff (rejecting numbered_error) three_attempts [] =
  (Threw (numbered_error 2), [Invoked; Slept 100; Invoked; Slept 200; Invoked]).
Proof.
  destruct (retry_always_failing (rejecting numbered_error) three_attempts 3
              (rejecting_always_fails numbered_error) eq_refl
              ltac:(lia) (fun _ => eq_refl)) as [Hrun _].
  rewrite Hrun. reflexivity.
Defined.

(** C10: with [maxAttempts <= 0] the loop body never runs: whatever the
    action, the call rejects with [undefined] and the world is the one
    it started in, so the action was not invoked and nothing was slept. *)
Theorem retry_without_attempts {W : Type} `{Timers W} {T : Type}
    (fn : Eff W T) (options : RetryOptions) (n : Z) (w : W) :
  maxAttempts options = Some n ->
  n <= 0 ->
  retryWithBackoff fn options w = (Threw Undefined, w).
Proof.
  intros Hmax Hn. unfold retryWithBackoff.
  replace (opt_maxAttempts (spread_options DEFAULT_OPTIONS options)) with n
    by (cbn; rewrite Hmax; reflexivity).
  replace (Z.to_nat n) with O by lia. reflexivity.
Qed.

Lemma retry_without_attempts_witness :
  retryWithBackoff (rejecting numbered_error) zero_attempts [] =
  (Threw Undefined, []) /\
  invocations (snd (retryWithBackoff (rejecting numbered_error) zero_attempts []))
  = 0%nat.
Proof.
  rewrite (retry_without_attempts (rejecting numbered_error) zero_attempts 0 []
             eq_refl ltac:(lia)).
  split; reflexivity.
Defined.

(** C6, as stated, fails: with the predicate omitted, an error outside
    the network and 5xx/429 classes is still retried, and the action
    runs three times. *)
Lemma default_predicate_counterexample :
  isRetryableError invalid_url_error = false /\
  opt_retryableErrors (spread_options DEFAULT_OPTIONS no_options)
                      invalid_url_error = true /\
  retryWithBackoff (rejecting (fun _ => invalid_url_error)) no_options [] =
  (Threw invalid_url_error, [Invoked; Slept 1000; Invoked; Slept 2000; Invoked]) /\
  invocations (snd (retryWithBackoff (rejecting (fun _ => invalid_url_error))
                                     no_options [])) <> 1%nat.
Proof. repeat split; try reflexivity. vm_compute. discriminate. Qed.

Lemma isRetryableError_spec (error : Thrown) :
  isRetryableError error = true <->
  exists e, error = ErrorObj e /\
    (let message := Js.toLowerCase (err_message e) in
     Js.includes message "network" = true \/
     Js.includes message "timeout" = true \/
     Js.includes message "econnreset" = true \/
     Js.includes message "enotfound" = true \/
     exists st, err_status e = Some st /\ (500 <= st \/ st = 429)).
Proof.
  unfold isRetryableError. destruct error as [|e].
  - split; [discriminate | intros (e & He & _); discriminate].
  - cbn zeta.
    destruct (Js.includes (Js.toLowerCase (err_message e)) "network") eqn:H1;
      cbn [orb]; [split; eauto 10|].
    destruct (Js.includes (Js.toLowerCase (err_message e)) "timeout") eqn:H2;
      cbn [orb]; [split; eauto 10|].
    destruct (Js.includes (Js.toLowerCase (err_message e)) "econnreset") eqn:H3;
      cbn [orb]; [split; eauto 10|].
    destruct (Js.includes (Js.toLowerCase (err_message e)) "enotfound") eqn:H4;
      cbn [orb]; [split; eauto 10|].
    split.
    + intros Hst. exists e. split; [reflexivity|]. do 4 right.
      destruct (err_status e) as [st|]; [|discriminate].
      exists st. split; [reflexivity|].
      apply orb_true_iff in Hst. destruct Hst as [Hst | Hst]; lia.
    + intros (e' & He & Hcase). injection He as <-.
      destruct Hcase as [Hc | [Hc | [Hc | [Hc | (st & Hst & Hrange)]]]];
        try congruence.
      rewrite Hst. apply orb_true_iff. lia.
Qed.

(** C6, amended: when the options omit the predicate, the default one
    accepts every error, so a default-configured run of an always-failing
    action makes all three attempts (sleeping 1000ms, then 2000ms).  The
    classification as network-class or HTTP 5xx/429 is [isRetryableError],
    which applies when a caller passes it: then an error outside those
    classes ends the run after a single attempt, with that error. *)
Theorem default_retries_every_error :
  (forall options e,
     retryableErrors options = None ->
     opt_retryableErrors (spread_options DEFAULT_OPTIONS options) e = true) /\
  (forall (W : Type) (TW : Timers W) (T : Type) (fn : Eff W T) w,
     always_fails fn ->
     retryWithBackoff fn no_options w = failing_run fn [1000; 2000] w) /\
  (forall (W : Type) (TW : Timers W) (T : Type) (fn : Eff W T) options w e w1,
     retryableErrors options = Some isRetryableError ->
     1 <= opt_maxAttempts (spread_options DEFAULT_OPTIONS options) ->
     fn w = (Threw e, w1) ->
     isRetryableError e = false ->
     retryWithBackoff fn options w = (Threw e, w1)) /\
  (forall e st, isRetryableError (ErrorObj (mkError e (Some st))) = false ->
     st < 500 /\ st <> 429).
Proof.
  split; [|split; [|split]].
  - intros options e Hnone. cbn. rewrite Hnone. reflexivity.
  - intros W TW T fn w Hfail. unfold retryWithBackoff.
    change (Z.to_nat (opt_maxAttempts (spread_options DEFAULT_OPTIONS no_options)))
      with 3%nat.
    rewrite retry_loop_failing; [reflexivity | assumption | reflexivity | reflexivity].
  - intros W TW T fn options w e w1 Hpred Hmax Hfn Hno.
    unfold retryWithBackoff.
    destruct (Z.to_nat (opt_maxAttempts (spread_options DEFAULT_OPTIONS options)))
      as [|r] eqn:Hr; [lia|].
    eapply retry_loop_stop; [exact Hfn|]. left. cbn. rewrite Hpred. exact Hno.
  - intros e st Hno.
    destruct (Z.lt_ge_cases st 500) as [Hlt | Hge].
    + split; [assumption|]. intros ->.
      assert (isRetryableError (ErrorObj (mkError e (Some 429))) = true) as Hyes.
      { apply isRetryableError_spec. eexists. split; [reflexivity|].
        do 4 right. exists 429. split; [reflexivity | lia]. }
      congruence.
    + assert (isRetryableError (ErrorObj (mkError e (Some st))) = true) as Hyes.
      { apply isRetryableError_spec. eexists. split; [reflexivity|].
        do 4 right. exists st. split; [reflexivity | lia]. }
      congruence.
Qed.

Lemma default_retries_every_error_witness :
  retryWithBackoff (rejecting (fun _ => invalid_url_error)) classified_options [] =
  (Threw invalid_url_error, [Invoked]).
Proof.
  destruct default_retries_every_error as (_ & _ & Hone & _).
  apply (Hone (list ProbeEvent) probe_timers unit
              (rejecting (fun _ => invalid_url_error)) classified_options []);
    [reflexivity | cbn; lia | reflexivity | reflexivity].
Defined.

(** ** Session coordinator *)

Lemma send_all_eq payload keys o :
  send_all payload keys o =
  (dead_ids keys,
   set_console (console o ++ repeat LogSendFailed (length (dead_ids keys)))
     (set_wire (wire o ++ sent_frames payload keys) o)).
Proof.
  revert o. induction keys as [|[ws cid] rest IH]; intros o.
  - destruct o; cbn. rewrite !app_nil_r. reflexivity.
  - cbn [send_all]. destruct (ws_open ws) eqn:Hopen; rewrite IH;
      unfold dead_ids, sent_frames, live; cbn [List.filter fst];
      rewrite Hopen; cbn [negb map length repeat];
      destruct o; cbn; rewrite <- app_assoc; reflexivity.
Qed.

Lemma broadcast_eq payload o :
  broadcast payload o =
  set_console (console o ++ repeat LogSendFailed (length (dead_ids (sessions o)))
                 ++ [LogBroadcasted (length (prune (sessions o)))])
    (set_wire (wire o ++ sent_frames payload (sessions o))
       (set_sessions (prune (sessions o)) o)).
Proof.
  unfold broadcast. rewrite send_all_eq. unfold prune.
  destruct o; setters. rewrite <- app_assoc. reflexivity.
Qed.

Lemma persistToD1_eq o s :
  sessionData o = Some s ->
  persistToD1 o =
  set_console (console o ++ [persist_line s o])
    (set_radar_scanner_db (mirror_after s o)
       (set_d1_calls (S (d1_calls o)) o)).
Proof.
  intros Hs. unfold persistToD1, d1_run, mirror_after, persist_line. rewrite Hs.
  destruct o as [ss sd sto al db con wi ti cl dc df]; setters.
  destruct (df dc); reflexivity.
Qed.

Lemma load_current o : sessionData (load o) = current o.
Proof. unfold load, current. destruct (sessionData o) eqn:E; [exact E | reflexivity]. Qed.

(** [handleInit] in closed form. *)
Lemma handleInit_eq data o :
  let s := fresh_session data o in
  handleInit data o =
  (json_success,
   {| sessions := sessions o;
      sessionData := Some s;
      storage := <["sessionData" := s]> (storage o);
      alarm_time := Some (expiresAt s);
      radar_scanner_db := mirror_after s o;
      console := console o ++ [persist_line s o; LogSessionInitialized (sessionId s)];
      wire := wire o;
      ticks := S (S (S (ticks o)));
      clock := clock o;
      d1_calls := S (d1_calls o);
      d1_fails := d1_fails o |}).
Proof.
  intros s. unfold handleInit, Date_now.
  erewrite persistToD1_eq by reflexivity.
  unfold mirror_after, persist_line in *. subst s. unfold fresh_session.
  destruct o as [ss sd sto al db con wi ti cl dc df]; setters.
  rewrite <- app_assoc. reflexivity.
Qed.

(** [handleUpdate] on an existing session, in closed form. *)
Lemma handleUpdate_eq update o s :
  current o = Some s ->
  let s' := updated s update o in
  handleUpdate update o =
  (text_response 200 "OK",
   {| sessions := prune (sessions o);
      sessionData := Some s';
      storage := <["sessionData" := s']> (storage o);
      alarm_time := alarm_time o;
      radar_scanner_db := mirror_after s' o;
      console := console o ++ [persist_line s' o]
                   ++ repeat LogSendFailed (length (dead_ids (sessions o)))
                   ++ [LogBroadcasted (length (prune (sessions o)));
                       LogSessionUpdated (sessionId s') (status s')];
      wire := wire o ++ sent_frames (UpdateMessage update (clock o (S (ticks o))))
                                    (sessions o);
      ticks := S (S (ticks o));
      clock := clock o;
      d1_calls := S (d1_calls o);
      d1_fails := d1_fails o |}).
Proof.
  intros Hcur s'. unfold handleUpdate.
  rewrite load_current, Hcur. unfold Date_now.
  rewrite (persistToD1_eq _ (updated s update o)).
  2:{ unfold load. destruct (sessionData o); reflexivity. }
  rewrite broadcast_eq.
  unfold mirror_after, persist_line, load, updated in *.
  destruct o as [ss sd sto al db con wi ti cl dc df]; setters.
  destruct sd; setters; rewrite <- ?app_assoc; reflexivity.
Qed.

Lemma handleUpdate_missing update o :
  current o = None ->
  handleUpdate update o = (text_response 404 "Session not found", o).
Proof.
  intros Hcur. unfold handleUpdate. rewrite load_current, Hcur.
  unfold load, current in *. destruct (sessionData o) eqn:E; [discriminate|].
  rewrite Hcur. destruct o; setters. subst. reflexivity.
Qed.

Lemma handleGetState_found o s :
  current o = Some s ->
  handleGetState o = (json_session s, set_sessionData (Some s) o).
Proof.
  intros Hcur. unfold handleGetState. rewrite load_current, Hcur.
  unfold load, current in *. destruct (sessionData o) eqn:E.
  - injection Hcur as ->. destruct o; setters. subst. reflexivity.
  - rewrite Hcur. reflexivity.
Qed.

Lemma handleGetState_missing o :
  current o = None ->
  handleGetState o = (text_response 404 "Session not found", o).
Proof.
  intros Hcur. unfold handleGetState. rewrite load_current, Hcur.
  unfold load, current in *. destruct (sessionData o) eqn:E; [discriminate|].
  rewrite Hcur. destruct o; setters. subst. reflexivity.
Qed.

Lemma close_all_eq keys o :
  close_all keys o =
  set_console (console o ++ repeat LogCloseFailed (length (dead_ids keys)))
    (set_wire (wire o ++ closed_frames keys) o).
Proof.
  revert o. induction keys as [|[ws cid] rest IH]; intros o.
  - destruct o; cbn. rewrite !app_nil_r. reflexivity.
  - cbn [close_all]. destruct (ws_open ws) eqn:Hopen; rewrite IH;
      unfold dead_ids, closed_frames, live; cbn [List.filter fst];
      rewrite Hopen; cbn [negb map length repeat];
      destruct o; cbn; rewrite <- app_assoc; reflexivity.
Qed.

(** [alarm] on an existing session whose expiry has come, in closed
    form. *)
Lemma alarm_eq o s :
  current o = Some s ->
  clock o (ticks o) >= expiresAt s ->
  alarm o =
  {| sessions := [];
     sessionData := None;
     storage := ∅;
     alarm_time := alarm_time o;
     radar_scanner_db := mirror_expired (sessionId s) o;
     console := console o ++ [LogAlarmTriggered; LogSessionExpired (sessionId s)]
                  ++ repeat LogCloseFailed (length (dead_ids (sessions o)))
                  ++ (if d1_fails o (d1_calls o) then [LogMarkExpiredFailed] else [])
                  ++ [LogCleanupComplete];
     wire := wire o ++ closed_frames (sessions o);
     ticks := S (ticks o);
     clock := clock o;
     d1_calls := S (d1_calls o);
     d1_fails := d1_fails o |}.
Proof.
  intros Hcur Hdue. unfold alarm.
  assert (Hcur' : current (console_log LogAlarmTriggered o) = Some s)
    by (destruct o; exact Hcur).
  rewrite load_current, Hcur'. unfold Date_now.
  replace (clock (load (console_log LogAlarmTriggered o))
                 (ticks (load (console_log LogAlarmTriggered o))))
    with (clock o (ticks o))
    by (unfold load; destruct o as [ss sd sto al db con wi ti cl dc df];
        destruct sd; reflexivity).
  apply Z.geb_ge in Hdue. rewrite Hdue.
  rewrite close_all_eq. unfold d1_run, mirror_expired, load.
  destruct o as [ss sd sto al db con wi ti cl dc df]; setters.
  destruct sd; setters; destruct (df dc); setters;
    rewrite <- ?app_assoc; cbn; reflexivity.
Qed.

(** C3, as stated, fails: on a [completed] session whose expiry has
    come, with the alarm's D1 statement throwing, the teardown goes
    through ([getState] answers 404, storage is empty) and the mirror
    row is not marked: it still says [completed]. *)
Lemma mirror_row_survives_counterexample :
  let o := mirror_lost_object in
  let o' := alarm o in
  status <$> current o = Some completed /\
  (expiresAt <$> current o = Some 86401002 /\ clock o (ticks o) = 86401005) /\
  row_status <$> (radar_scanner_db o !! "s-1") = Some completed /\
  fst (handleGetState o') = text_response 404 "Session not found" /\
  storage o' = ∅ /\
  row_status <$> (radar_scanner_db o' !! "s-1") = Some completed /\
  row_status <$> (radar_scanner_db o' !! "s-1") <> Some expired.
Proof.
  cbv zeta. repeat split; try (vm_compute; reflexivity).
  vm_compute. discriminate.
Qed.

(** C3, amended: when the alarm fires on an existing session at or after
    [expiresAt], whatever the session's status (also [completed] or
    [failed]): every live connection is closed with code 1000, the
    registry is emptied, one D1 statement is issued to mark the row
    [expired], storage and memory are cleared, and the next [getState]
    answers 404 'Session not found'.  The mirror is best-effort: when
    the statement goes through, the row of that id, if the table has
    one, is marked [expired] and no other row changes; when it throws,
    the failure is logged, the table is left as it was, and the
    teardown is the same. *)
Theorem alarm_tears_down (o : SessionManager) (s : SessionState) :
  current o = Some s ->
  clock o (ticks o) >= expiresAt s ->
  let o' := alarm o in
  wire o' = wire o ++ closed_frames (sessions o) /\
  (forall e, In e (sessions o) -> ws_open (fst e) = true ->
     In (Closed (ws_id (fst e)) 1000 "Session expired") (wire o')) /\
  sessions o' = [] /\
  d1_calls o' = S (d1_calls o) /\
  (d1_fails o (d1_calls o) = false ->
     radar_scanner_db o' = alter expire_row (sessionId s) (radar_scanner_db o) /\
     (forall r, radar_scanner_db o !! sessionId s = Some r ->
        radar_scanner_db o' !! sessionId s = Some (expire_row r) /\
        row_status <$> (radar_scanner_db o' !! sessionId s) = Some expired) /\
     (radar_scanner_db o !! sessionId s = None ->
        radar_scanner_db o' = radar_scanner_db o) /\
     (forall id, id <> sessionId s ->
        radar_scanner_db o' !! id = radar_scanner_db o !! id) /\
     ~ In LogMarkExpiredFailed (skipn (length (console o)) (console o'))) /\
  (d1_fails o (d1_calls o) = true ->
     radar_scanner_db o' = radar_scanner_db o /\
     In LogMarkExpiredFailed (skipn (length (console o)) (console o'))) /\
  storage o' = ∅ /\
  sessionData o' = None /\
  current o' = None /\
  fst (handleGetState o') = text_response 404 "Session not found".
Proof.
  intros Hcur Hdue o'. subst o'. rewrite (alarm_eq o s Hcur Hdue).
  cbn [wire sessions radar_scanner_db storage sessionData d1_calls console].
  rewrite skipn_app, skipn_all, Nat.sub_diag. cbn [skipn app].
  split; [reflexivity|]. split.
  { intros e He Hopen. apply in_or_app. right. unfold closed_frames, live.
    apply in_map_iff. exists e. split; [reflexivity|].
    apply filter_In. split; assumption. }
  split; [reflexivity|]. split; [reflexivity|]. split.
  { intros Hup. unfold mirror_expired. rewrite Hup.
    split; [reflexivity|]. split.
    { intros r Hr. rewrite lookup_alter_eq, Hr. split; reflexivity. }
    split.
    { intros Hnone. apply map_eq. intros id.
      destruct (decide (id = sessionId s)) as [->|Hne].
      - rewrite lookup_alter_eq, Hnone. reflexivity.
      - rewrite lookup_alter_ne by congruence. reflexivity. }
    split.
    { intros id Hne. rewrite lookup_alter_ne by congruence. reflexivity. }
    intros [Hin | [Hin | Hin]]; try discriminate.
    apply in_app_or in Hin. destruct Hin as [Hin | [Hin | []]]; [|discriminate].
    apply repeat_spec in Hin. discriminate. }
  split.
  { intros Hdown. unfold mirror_expired. rewrite Hdown.
    split; [reflexivity|].
    right. right. apply in_or_app. right. left. reflexivity. }
  split; [reflexivity|]. split; [reflexivity|]. split; [reflexivity|].
  rewrite handleGetState_missing; reflexivity.
Qed.

Lemma alarm_tears_down_witness :
  status <$> current completed_object = Some completed /\
  wire (alarm completed_object) =
    wire completed_object ++ [Closed 1 1000 "Session expired";
                              Closed 3 1000 "Session expired"] /\
  row_status <$> (radar_scanner_db (alarm completed_object) !! "s-1") = Some expired /\
  fst (handleGetState (alarm completed_object)) =
    text_response 404 "Session not found".
Proof.
  assert (Hcur : current completed_object =
                 Some (updated (fresh_session (init_example "https://example.com")
                                              (blank_object (fun _ => false)))
                         (update_of (Some completed) None
                            (Some "sessions/s-1/report.pdf") None (Some 100) None)
                         (started_object (fun _ => false))))
    by (vm_compute; reflexivity).
  destruct (alarm_tears_down completed_object _ Hcur ltac:(vm_compute; discriminate))
    as (Hwire & _ & _ & _ & Hrow & _ & _ & _ & _ & Hget).
  split; [vm_compute; reflexivity|]. split; [exact Hwire|]. split; [|exact Hget].
  destruct (Hrow eq_refl) as (_ & Hmark & _).
  assert (Hhas : radar_scanner_db completed_object !! "s-1" =
                 Some (row_of (updated (fresh_session (init_example "https://example.com")
                                                      (blank_object (fun _ => false)))
                         (update_of (Some completed) None
                            (Some "sessions/s-1/report.pdf") None (Some 100) None)
                         (started_object (fun _ => false)))))
    by (vm_compute; reflexivity).
  exact (proj2 (Hmark _ Hhas)).
Defined.

(** C8, as stated, fails: a second [init] for the same id with another
    [url] answers success like the first, and the session then carries
    the second [url]. *)
Lemma second_init_counterexample :
  let first := handleInit (init_example "https://a.example") (blank_object (fun _ => false)) in
  let second := handleInit (init_example "https://b.example") (snd first) in
  fst first = json_success /\
  url <$> current (snd first) = Some "https://a.example" /\
  fst second = json_success /\ ok (fst second) = true /\
  url <$> current (snd second) = Some "https://b.example".
Proof. cbv zeta. rewrite !handleInit_eq. repeat split. Qed.

(** C8, amended: [init] does not look at what is stored.  Called again
    for the same id, with whatever fields, it answers success and
    replaces the session by a fresh [queued] record built from the new
    fields and new clock readings, persists it and re-arms the alarm. *)
Theorem init_replaces_session (data1 data2 : SessionInit) (o : SessionManager) :
  let o1 := snd (handleInit data1 o) in
  let '(r, o2) := handleInit data2 o1 in
  let s := fresh_session data2 o1 in
  r = json_success /\ ok r = true /\
  sessionData o2 = Some s /\
  storage o2 !! "sessionData" = Some s /\
  alarm_time o2 = Some (expiresAt s) /\
  status s = queued /\ url s = init_url data2 /\ email s = init_email data2.
Proof.
  cbv zeta. rewrite (handleInit_eq data2). cbn [sessionData storage alarm_time].
  rewrite lookup_insert_eq. repeat split.
Qed.

(** C9: when the D1 statement of [persistToD1] throws, [init] and
    [update] answer as usual; the session is set in memory and in
    storage, [init] arms the alarm, [update] sends the update envelope
    to every live connection; only the mirror table is left as it was,
    and the failure is logged. *)
Theorem mirror_failure_is_swallowed (o : SessionManager) :
  d1_fails o (d1_calls o) = true ->
  (forall data,
     let '(r, o') := handleInit data o in
     let s := fresh_session data o in
     r = json_success /\
     sessionData o' = Some s /\ storage o' !! "sessionData" = Some s /\
     alarm_time o' = Some (expiresAt s) /\
     radar_scanner_db o' = radar_scanner_db o /\
     In LogPersistToD1Failed (console o')) /\
  (forall update current_session,
     current o = Some current_session ->
     let '(r, o') := handleUpdate update o in
     let s := updated current_session update o in
     r = text_response 200 "OK" /\
     sessionData o' = Some s /\ storage o' !! "sessionData" = Some s /\
     fst (handleGetState o') = json_session s /\
     wire o' = wire o ++ sent_frames (UpdateMessage update (clock o (S (ticks o))))
                                     (sessions o) /\
     (forall e, In e (sessions o) -> ws_open (fst e) = true ->
        In (Sent (ws_id (fst e)) (UpdateMessage update (clock o (S (ticks o)))))
           (wire o')) /\
     radar_scanner_db o' = radar_scanner_db o /\
     In LogPersistToD1Failed (console o')).
Proof.
  intros Hdown. split.
  - intros data. rewrite handleInit_eq.
    cbn [sessionData storage alarm_time radar_scanner_db console].
    unfold mirror_after, persist_line. rewrite Hdown, lookup_insert_eq.
    repeat split. apply in_or_app. right. left. reflexivity.
  - intros update s Hcur. rewrite (handleUpdate_eq update o s Hcur).
    cbn [sessionData storage wire radar_scanner_db console].
    unfold mirror_after, persist_line. rewrite Hdown, lookup_insert_eq.
    repeat split.
    + intros e He Hopen. apply in_or_app. right. unfold sent_frames, live.
      apply in_map_iff. exists e. split; [reflexivity|].
      apply filter_In. split; assumption.
    + apply in_or_app. right. left. reflexivity.
Qed.

Lemma mirror_failure_is_swallowed_witness :
  let o := watched_object (fun _ => true) in
  let u := update_of (Some scanning) (Some "uuid-1") None None (Some 15) None in
  fst (handleUpdate u o) = text_response 200 "OK" /\
  status <$> current (snd (handleUpdate u o)) = Some scanning /\
  wire (snd (handleUpdate u o)) =
    [Sent 1 (UpdateMessage u 1004); Sent 3 (UpdateMessage u 1004)] /\
  radar_scanner_db (snd (handleUpdate u o)) = ∅.
Proof.
  cbv zeta.
  destruct (mirror_failure_is_swallowed (watched_object (fun _ => true)) eq_refl)
    as [_ Hupd].
  specialize (Hupd (update_of (Some scanning) (Some "uuid-1") None None (Some 15) None)
                   (fresh_session (init_example "https://example.com")
                                  (blank_object (fun _ => true)))
                   eq_refl).
  destruct (handleUpdate _ (watched_object (fun _ => true))) as [r o'].
  destruct Hupd as (Hr & Hmem & _ & _ & Hwire & _ & Hdb & _).
  cbn [fst snd]. split; [exact Hr|]. split.
  - unfold current. rewrite Hmem. reflexivity.
  - split; [rewrite Hwire; reflexivity | rewrite Hdb; reflexivity].
Defined.

(** A cold start, or none, keeps a stored session reachable and does
    not touch the clock. *)
Lemma cold_start_keeps (cold : bool) o s :
  current o = Some s ->
  storage o !! "sessionData" = Some s ->
  let o' := if cold then constructor o else o in
  current o' = Some s /\ storage o' = storage o /\
  clock o' = clock o /\ ticks o' = ticks o.
Proof.
  intros Hcur Hsto. destruct cold; cbn zeta.
  - unfold constructor, current in *. destruct o; setters.
    repeat split; assumption.
  - repeat split; assumption.
Qed.

Lemma post_updates_spec us : forall o s,
  current o = Some s ->
  storage o !! "sessionData" = Some s ->
  let '(rs, o2) := post_updates us o in
  Forall (fun r => r = text_response 200 "OK") rs /\
  length rs = length us /\
  current o2 = Some (merged s (map snd us) (clock o) (ticks o)) /\
  storage o2 !! "sessionData" = current o2.
Proof.
  induction us as [|[cold u] rest IH]; intros o s Hcur Hsto.
  - cbn. repeat split; try constructor; congruence.
  - cbn [post_updates map snd merged].
    destruct (cold_start_keeps cold o s Hcur Hsto) as (Hc & Hs & Hcl & Hti).
    rewrite (handleUpdate_eq u _ s Hc). cbv zeta.
    match goal with |- context [post_updates rest ?o1] => set (o1' := o1) end.
    specialize (IH o1' (updated s u (if cold then constructor o else o))).
    destruct (post_updates rest o1') as [rs o2].
    destruct IH as (Hall & Hlen & Hfin & Hst).
    { reflexivity. }
    { subst o1'. cbn [storage]. apply lookup_insert_eq. }
    split; [constructor; [reflexivity | exact Hall]|].
    split; [cbn; congruence|].
    split; [|exact Hst].
    rewrite Hfin. subst o1'. cbn [clock ticks]. unfold updated.
    rewrite Hcl, Hti. reflexivity.
Qed.

Lemma snapshots_sorted us : forall o s lo,
  monotone (clock o) ->
  current o = Some s ->
  storage o !! "sessionData" = Some s ->
  lo <= clock o (ticks o) ->
  StronglySorted Z.le (lo :: map updatedAt_of (snapshots us o)).
Proof.
  induction us as [|[cold u] rest IH]; intros o s lo Hmono Hcur Hsto Hlo.
  - cbn. constructor; constructor.
  - cbn [snapshots map].
    destruct (cold_start_keeps cold o s Hcur Hsto) as (Hc & Hs & Hcl & Hti).
    rewrite (handleUpdate_eq u _ s Hc). cbv zeta. cbn [snd].
    match goal with |- context [snapshots rest ?o1] => set (o1' := o1) end.
    assert (Hnow : updatedAt_of (current o1') = clock o (ticks o)).
    { subst o1'. unfold current, updated. cbn. rewrite Hcl, Hti. reflexivity. }
    rewrite Hnow.
    specialize (IH o1' (updated s u (if cold then constructor o else o))
                   (clock o (ticks o))).
    assert (Htail : StronglySorted Z.le
              (clock o (ticks o) :: map updatedAt_of (snapshots rest o1'))).
    { apply IH.
      - subst o1'. cbn [clock]. rewrite Hcl. exact Hmono.
      - reflexivity.
      - subst o1'. cbn [storage]. apply lookup_insert_eq.
      - subst o1'. cbn [clock ticks]. rewrite Hcl, Hti. apply Hmono. lia. }
    constructor; [exact Htail|].
    constructor; [exact Hlo|].
    apply StronglySorted_inv in Htail. destruct Htail as [_ Hall].
    eapply List.Forall_impl; [|exact Hall]. cbn. intros a Ha. lia.
Qed.

Lemma merged_field_wise us : forall s clock tick,
  merged s us clock tick =
  field_wise_merge s us (last_stamp (updatedAt s) clock tick (length us)).
Proof.
  induction us as [|u rest IH]; intros s clock tick.
  - destruct s; reflexivity.
  - cbn [merged]. rewrite IH. unfold field_wise_merge.
    cbn [last_given length stamp spread sessionId url email status jobId
         radarUuid r2Key error createdAt updatedAt expiresAt ipAddress
         userAgent country progressPercent progressMessage workflowInstanceId].
    f_equal;
      try (match goal with
           | |- context [last_given ?key rest] =>
               destruct (last_given key rest); [reflexivity|];
               destruct (key u); reflexivity
           end).
    destruct rest as [|u' rest']; cbn [length last_stamp]; f_equal; lia.
Qed.

Lemma snapshots_stamps us : forall o s,
  current o = Some s ->
  storage o !! "sessionData" = Some s ->
  map updatedAt_of (snapshots us o) =
  map (fun k => clock o (ticks o + 2 * k)%nat) (seq 0 (length us)).
Proof.
  induction us as [|[cold u] rest IH]; intros o s Hcur Hsto; [reflexivity|].
  cbn [snapshots map length seq].
  destruct (cold_start_keeps cold o s Hcur Hsto) as (Hc & Hs & Hcl & Hti).
  rewrite (handleUpdate_eq u _ s Hc). cbv zeta. cbn [snd].
  match goal with |- context [snapshots rest ?o1] => set (o1' := o1) end.
  rewrite (IH o1' (updated s u (if cold then constructor o else o))).
  - f_equal.
    + subst o1'. unfold current, updated. cbn. rewrite Hcl, Hti.
      f_equal. lia.
    + rewrite <- seq_shift, map_map. apply map_ext. intros k.
      subst o1'. cbn [clock ticks]. rewrite Hcl, Hti. f_equal. lia.
  - reflexivity.
  - subst o1'. cbn [storage]. apply lookup_insert_eq.
Qed.

(** C2, as stated, fails in its second half: on a clock that is set
    back between readings, two accepted updates after [init] store
    [updatedAt] values below the ones stored before them. *)
Lemma backwards_clock_counterexample :
  let o1 := snd (handleInit (init_example "https://example.com") backwards_object) in
  fst (post_updates two_updates o1) =
    [text_response 200 "OK"; text_response 200 "OK"] /\
  updatedAt_of (current o1) = 4999 /\
  map updatedAt_of (snapshots two_updates o1) = [4997; 4995] /\
  ~ StronglySorted Z.le (4999 :: map updatedAt_of (snapshots two_updates o1)).
Proof.
  cbv zeta.
  assert (Hstamps : map updatedAt_of
            (snapshots two_updates
               (snd (handleInit (init_example "https://example.com")
                                backwards_object))) = [4997; 4995])
    by (vm_compute; reflexivity).
  split; [vm_compute; reflexivity|]. split; [vm_compute; reflexivity|].
  split; [exact Hstamps|].
  rewrite Hstamps. intros Hsorted.
  apply StronglySorted_inv in Hsorted. destruct Hsorted as [_ Hall].
  apply Forall_inv in Hall. lia.
Qed.

(** C2, amended: after [init] and any sequence of [update] requests
    (with cold starts of the object in between or not), every update
    answers OK and [getState] answers exactly the field-wise merge of
    the init record with the partials in order: each field holds the
    value of the last partial that carries it, and the init record's
    value when none does.  The one exception is [updatedAt]: an
    [updatedAt] carried by a partial is overwritten, and every update
    stores its own clock reading.  So the [updatedAt] values stored are
    the clock readings of the updates, and each is at least every
    [updatedAt] stored before it, the one of [init] included, whenever
    the clock does not run backwards. *)
Theorem updates_merge_in_order (o : SessionManager) (data : SessionInit)
    (us : list (bool * SessionUpdate)) :
  let o1 := snd (handleInit data o) in
  let record := fresh_session data o in
  let reading k := clock o (ticks o + 3 + 2 * k)%nat in
  let '(rs, o2) := post_updates us o1 in
  Forall (fun r => r = text_response 200 "OK") rs /\
  length rs = length us /\
  fst (handleGetState o2) =
    json_session
      (field_wise_merge record (map snd us)
         (match length us with
          | O => updatedAt record
          | S n => reading n
          end)) /\
  map updatedAt_of (snapshots us o1) = map reading (seq 0 (length us)) /\
  (monotone (clock o) ->
   StronglySorted Z.le (updatedAt record :: map updatedAt_of (snapshots us o1))).
Proof.
  cbv zeta. rewrite handleInit_eq. cbn [snd].
  match goal with |- context [post_updates us ?o1] => set (o1' := o1) end.
  assert (Hcur : current o1' = Some (fresh_session data o)) by reflexivity.
  assert (Hsto : storage o1' !! "sessionData" = Some (fresh_session data o))
    by (subst o1'; cbn [storage]; apply lookup_insert_eq).
  pose proof (post_updates_spec us o1' _ Hcur Hsto) as Hspec.
  destruct (post_updates us o1') as [rs o2].
  destruct Hspec as (Hall & Hlen & Hfin & _).
  split; [exact Hall|]. split; [exact Hlen|]. split; [|split].
  - rewrite (handleGetState_found _ _ Hfin). cbn [fst].
    rewrite merged_field_wise, length_map. subst o1'. cbn [clock ticks].
    unfold last_stamp. destruct (length us) as [|n]; [reflexivity|].
    do 3 f_equal. lia.
  - rewrite (snapshots_stamps us o1' _ Hcur Hsto). apply map_ext. intros k.
    subst o1'. cbn [clock ticks]. f_equal. lia.
  - intros Hmono.
    apply (snapshots_sorted us o1' (fresh_session data o)); try assumption.
    cbn. apply Hmono. lia.
Qed.

Lemma blank_clock_monotone down : monotone (clock (blank_object down)).
Proof. intros i j Hij. cbn. lia. Qed.

Lemma updates_merge_in_order_witness :
  let o := blank_object (fun _ => false) in
  let o1 := snd (handleInit (init_example "https://example.com") o) in
  fst (handleGetState (snd (post_updates two_updates o1))) =
    json_session
      {| sessionId := "s-1"; url := "https://example.com";
         email := "user@example.com"; status := scanning;
         jobId := None; radarUuid := Some "uuid-1"; r2Key := None;
         error := None; createdAt := 1000; updatedAt := 1005;
         expiresAt := 86401002; ipAddress := None; userAgent := None;
         country := None; progressPercent := Some 20;
         progressMessage := Some "Analyzing URL...";
         workflowInstanceId := None |} /\
  StronglySorted Z.le (1001 :: map updatedAt_of (snapshots two_updates o1)) /\
  map updatedAt_of (snapshots two_updates o1) = [1003; 1005].
Proof.
  cbv zeta.
  pose proof (updates_merge_in_order (blank_object (fun _ => false))
                (init_example "https://example.com") two_updates) as Hthm.
  cbv zeta in Hthm.
  destruct (post_updates two_updates _) as [rs o2].
  destruct Hthm as (_ & _ & Hget & Hstamps & Hsorted).
  cbn [snd]. split; [rewrite Hget; reflexivity|].
  split; [exact (Hsorted (blank_clock_monotone _))|].
  rewrite Hstamps. reflexivity.
Defined.

(** ** Workflow: the poll loop *)

Lemma post_update_eq u w :
  post_update u w =
  (Returned tt, set_sessionDO (snd (handleUpdate u (sessionDO w))) w).
Proof.
  unfold post_update, bind, sessionDO_fetch, fetch, ret.
  destruct (handleUpdate u (sessionDO w)); reflexivity.
Qed.

Lemma poll_loop_spec uuid : forall remaining attempt w,
  let j := not_ready_run (result_api w) (polls w) remaining in
  let '(out, w') := poll_loop uuid remaining attempt w in
  trace w' = trace w ++ poll_events uuid attempt j
               ++ (if (j <? remaining)%nat then [ResultRequested uuid] else []) /\
  polls w' = (polls w + j + (if (j <? remaining)%nat then 1 else 0))%nat /\
  result_api w' = result_api w /\
  out = if (j <? remaining)%nat
        then poll_outcome (result_api w (polls w + j)%nat)
        else Threw scan_timeout.
Proof.
  induction remaining as [|r IH]; intros attempt w; cbv zeta.
  - cbn. rewrite app_nil_r. repeat split; lia.
  - cbn [poll_loop not_ready_run].
    unfold bind at 1. unfold sessionDO_fetch at 1.
    destruct (fetch _ (sessionDO w)) as [resp o1].
    unfold bind at 1. unfold fetch_result at 1.
    destruct w as [sd tr sa sc ra po rp pu pdf]. world_setters.
    destruct (ra po) as [st text | e] eqn:Hans; cbn [answer not_ready].
    + destruct (st =? 200) eqn:H200.
      * assert (Hne : (st =? 404) = false)
          by (apply Z.eqb_eq in H200; subst st; reflexivity).
        rewrite Hne. cbn [ret poll_events]. world_setters.
        change (0 <? S r)%nat with true. cbv iota.
        rewrite Nat.add_0_r, Hans. cbn [poll_outcome]. rewrite H200.
        repeat split; try reflexivity; lia.
      * destruct (st =? 404) eqn:H404.
        -- unfold bind at 1.
           assert (Hsleep :
             (if attempt <? 40 - 1
              then step_sleep "wait for scan" (poll_interval attempt)
              else ret tt)
               {| sessionDO := o1; trace := tr ++ [ResultRequested uuid];
                  scan_api := sa; scans := sc; result_api := ra; polls := S po;
                  r2_put := rp; puts := pu; generatePDFReport := pdf |} =
             (Returned tt,
              {| sessionDO := o1;
                 trace := tr ++ ResultRequested uuid :: sleep_after attempt;
                 scan_api := sa; scans := sc; result_api := ra; polls := S po;
                 r2_put := rp; puts := pu; generatePDFReport := pdf |})).
           { unfold sleep_after. change (40 - 1) with 39.
             destruct (attempt <? 39); unfold step_sleep, ret; world_setters.
             - rewrite <- app_assoc. reflexivity.
             - reflexivity. }
           rewrite Hsleep. clear Hsleep.
           match goal with
           | |- context [poll_loop uuid r (attempt + 1) ?w3] =>
               specialize (IH (attempt + 1) w3)
           end.
           cbv zeta in IH. cbn [trace polls result_api] in IH.
           set (j := not_ready_run ra (S po) r) in *.
           destruct (poll_loop uuid r (attempt + 1) _) as [out w'].
           destruct IH as (Ht & Hp & Ha & Ho).
           destruct w' as [sd' tr' sa' sc' ra' po' rp' pu' pdf'].
           cbn [trace polls result_api] in Ht, Hp, Ha. cbv iota.
           cbn [poll_events]. change (S j <? S r)%nat with (j <? r)%nat.
           split; [rewrite Ht; cbn [app]; rewrite <- !app_assoc; cbn [app];
                   rewrite <- ?app_assoc; reflexivity|].
           split; [lia|]. split; [assumption|].
           rewrite Ho. replace (po + S j)%nat with (S po + j)%nat by lia.
           reflexivity.
        -- cbn [throw poll_events]. world_setters.
           change (0 <? S r)%nat with true. cbv iota.
           rewrite Nat.add_0_r, Hans. cbn [poll_outcome]. rewrite H200.
           repeat split; try reflexivity; lia.
    + cbn [poll_events]. world_setters.
      change (0 <? S r)%nat with true. cbv iota.
      rewrite Nat.add_0_r, Hans. cbn [poll_outcome].
      repeat split; try reflexivity; lia.
Qed.

Lemma not_ready_run_le api : forall limit from,
  (not_ready_run api from limit <= limit)%nat.
Proof.
  induction limit as [|l IH]; intros from; cbn; [lia|].
  destruct (not_ready (api from)); [specialize (IH (S from))|]; lia.
Qed.

(** C4: the poll loop, against any result service.  With [j] the number
    of not-ready answers in a row the service gives (counted up to 40):
    the loop makes [j + 1] requests, or 40 when [j = 40], never more;
    after the not-ready answer to attempt [a] (counted from 1) it
    sleeps 5s for [a <= 5], 10s for [a <= 15], 15s after that, and not at
    all for [a = 40]; the first other answer ends the loop, with the
    result for a 200 and with an error for anything else; and forty
    not-ready answers end it with the timeout error after exactly forty
    requests. *)
Theorem polling_stops_at_forty (uuid : string) (w : World) :
  let j := not_ready_run (result_api w) (polls w) 40 in
  let '(out, w') := poll_for_scan_results uuid w in
  (polls w' <= polls w + 40)%nat /\
  polls w' = (polls w + j + (if (j <? 40)%nat then 1 else 0))%nat /\
  trace w' = trace w ++ poll_events uuid 0 j
               ++ (if (j <? 40)%nat then [ResultRequested uuid] else []) /\
  out = (if (j <? 40)%nat
         then poll_outcome (result_api w (polls w + j)%nat)
         else Threw scan_timeout) /\
  (forall a, 1 <= a <= 40 ->
     sleep_after (a - 1) =
     if a =? 40 then []
     else [StepSleep "wait for scan"
             (if a <=? 5 then 5 else if a <=? 15 then 10 else 15)]) /\
  (forall st text, st <> 200 -> st <> 404 ->
     poll_outcome (HttpResponse st text) =
     Threw (new_Error (radar_api_error st text))) /\
  (j = 40%nat ->
     out = Threw scan_timeout /\
     polls w' = (polls w + 40)%nat /\
     trace w' = trace w ++ rounds uuid 5 5 ++ rounds uuid 10 10
                  ++ rounds uuid 15 24 ++ [ResultRequested uuid]).
Proof.
  cbv zeta. unfold poll_for_scan_results.
  pose proof (poll_loop_spec uuid 40 0 w) as Hspec. cbv zeta in Hspec.
  pose proof (not_ready_run_le (result_api w) 40 (polls w)) as Hle.
  set (j := not_ready_run (result_api w) (polls w) 40) in *.
  destruct (poll_loop uuid 40 0 w) as [out w'].
  destruct Hspec as (Ht & Hp & _ & Ho).
  split; [destruct (j <? 40)%nat eqn:E; [apply Nat.ltb_lt in E|]; lia|].
  split; [exact Hp|]. split; [exact Ht|]. split; [exact Ho|]. split.
  { intros a Ha. unfold sleep_after, poll_interval.
    destruct (a =? 40) eqn:E40; [apply Z.eqb_eq in E40; subst a; reflexivity|].
    apply Z.eqb_neq in E40.
    replace (a - 1 <? 39) with true by (symmetry; apply Z.ltb_lt; lia).
    destruct (a <=? 5) eqn:E5.
    - apply Z.leb_le in E5.
      replace (a - 1 <? 5) with true by (symmetry; apply Z.ltb_lt; lia).
      reflexivity.
    - apply Z.leb_gt in E5.
      replace (a - 1 <? 5) with false by (symmetry; apply Z.ltb_ge; lia).
      destruct (a <=? 15) eqn:E15.
      + apply Z.leb_le in E15.
        replace (a - 1 <? 15) with true by (symmetry; apply Z.ltb_lt; lia).
        reflexivity.
      + apply Z.leb_gt in E15.
        replace (a - 1 <? 15) with false by (symmetry; apply Z.ltb_ge; lia).
        reflexivity. }
  split.
  { intros st text H200 H404. cbn [poll_outcome].
    apply Z.eqb_neq in H200. rewrite H200. reflexivity. }
  intros Hj. rewrite Hj in *. cbn [Nat.ltb Nat.leb] in *.
  split; [exact Ho|]. split; [lia|]. rewrite Ht. reflexivity.
Qed.

Lemma polling_stops_at_forty_witness :
  let '(out, w') := poll_for_scan_results "uuid-1" (scan_world accepts slow_results) in
  out = Threw scan_timeout /\ polls w' = 40%nat /\
  length (List.filter (fun ev => match ev with ResultRequested _ => true | _ => false end)
                      (trace w')) = 40%nat.
Proof.
  pose proof (polling_stops_at_forty "uuid-1" (scan_world accepts slow_results)) as Hthm.
  cbv zeta in Hthm.
  destruct (poll_for_scan_results "uuid-1" (scan_world accepts slow_results)) as [out w'].
  destruct Hthm as (_ & _ & _ & _ & _ & _ & Hall).
  destruct (Hall eq_refl) as (Hout & Hpolls & Htrace).
  split; [exact Hout|]. split; [exact Hpolls|].
  rewrite Htrace. reflexivity.
Defined.

(** ** Strings *)

Lemma startsWith_search_app s a b :
  Js.startsWith s (a +:+ b) = true -> Js.startsWith s a = true.
Proof.
  revert s. induction a as [|c a IH]; intros s Hs; [destruct s; reflexivity|].
  destruct s as [|d s]; simpl in *; [discriminate|].
  destruct (Ascii.eqb d c); [apply IH; exact Hs | discriminate].
Qed.

Lemma includes_search_app s a b :
  Js.includes s (a +:+ b) = true -> Js.includes s a = true.
Proof.
  induction s as [|d s IH]; intros Hs.
  - unfold Js.includes in *.
    destruct (Js.startsWith "" (a +:+ b)) eqn:E; [|discriminate].
    rewrite (startsWith_search_app _ _ _ E). reflexivity.
  - cbn [Js.includes] in *.
    destruct (Js.startsWith (String d s) (a +:+ b)) eqn:E.
    + rewrite (startsWith_search_app _ _ _ E). reflexivity.
    + rewrite (IH Hs). destruct (Js.startsWith (String d s) a); reflexivity.
Qed.

(** ** Error classifier *)

Lemma radar_error_lower st text :
  Js.includes (Js.toLowerCase (radar_api_error st text)) "radar api" = true.
Proof. reflexivity. Qed.

Lemma radar_error_classified st text status :
  In (displayMessage (getUserFriendlyError
        (ErrorObj (mkError (radar_api_error st text) status))))
     scanning_service_messages.
Proof.
  unfold getUserFriendlyError. cbn [error_text err_message].
  rewrite radar_error_lower.
  set (lower := Js.toLowerCase (radar_api_error st text)).
  destruct (Js.includes lower "401" || Js.includes lower "unauthorized");
    [vm_compute; tauto|].
  destruct (Js.includes lower "429" || Js.includes lower "rate limit");
    [vm_compute; tauto|].
  destruct (Js.includes lower "400" || Js.includes lower "bad request");
    [vm_compute; tauto|].
  destruct (Js.includes lower "timeout"); vm_compute; tauto.
Qed.

Lemma scanning_messages_hide_raw m st text :
  In m scanning_service_messages ->
  Js.includes m (radar_api_error st text) = false.
Proof.
  intros Hin. destruct (Js.includes m (radar_api_error st text)) eqn:E; [|reflexivity].
  apply includes_search_app in E.
  cbn [scanning_service_messages In] in Hin.
  destruct Hin as [<- | [<- | [<- | [<- | [<- | []]]]]]; vm_compute in E; discriminate.
Qed.

Lemma isRetryableError_5xx msg st :
  500 <= st -> isRetryableError (ErrorObj (mkError msg (Some st))) = true.
Proof.
  intros Hst. apply isRetryableError_spec. eexists. split; [reflexivity|].
  do 4 right. exists st. split; [reflexivity | lia].
Qed.

(** ** Workflow: submission *)

Lemma fetch_state_eq w s :
  current (sessionDO w) = Some s ->
  sessionDO_fetch GetState w =
  (Returned (json_session s),
   set_sessionDO (set_sessionData (Some s) (sessionDO w)) w).
Proof.
  intros Hcur. unfold sessionDO_fetch, fetch.
  rewrite (handleGetState_found _ _ Hcur). reflexivity.
Qed.

Lemma submit_scan_rejected target w st text :
  scan_api w (scans w) = HttpResponse st text ->
  (200 <=? st) && (st <=? 299) = false ->
  submit_scan target w =
  (Threw (ErrorObj (mkError (radar_api_error st text) (Some st))),
   set_scans (S (scans w)) (emit (ScanRequested target) w)).
Proof.
  intros Hans Hbad. unfold submit_scan, bind, fetch_scan.
  cbn [scan_api scans set_scans emit set_trace]. rewrite Hans. cbn [answer].
  rewrite Hbad. reflexivity.
Qed.

Lemma submit_retries_exhausted target w bodies :
  (forall k, scan_api w k = HttpResponse 500 (bodies k)) ->
  retryWithBackoff (submit_scan target) submit_options w =
  (Threw (submission_error (bodies (S (S (scans w))))),
   {| sessionDO := sessionDO w;
      trace := trace w ++ [ScanRequested target; TimerSet 2000;
                           ScanRequested target; TimerSet 4000;
                           ScanRequested target];
      scan_api := scan_api w; scans := S (S (S (scans w)));
      result_api := result_api w; polls := polls w;
      r2_put := r2_put w; puts := puts w;
      generatePDFReport := generatePDFReport w |}).
Proof.
  intros Hall. unfold retryWithBackoff.
  change (Z.to_nat (opt_maxAttempts (spread_options DEFAULT_OPTIONS submit_options)))
    with 3%nat.
  erewrite retry_loop_again;
    [| apply submit_scan_rejected; [apply Hall | reflexivity]
     | apply isRetryableError_5xx; lia
     | discriminate ].
  erewrite retry_loop_again;
    [| apply submit_scan_rejected; [apply Hall | reflexivity]
     | apply isRetryableError_5xx; lia
     | discriminate ].
  erewrite retry_loop_stop;
    [| apply submit_scan_rejected; [apply Hall | reflexivity]
     | right; reflexivity ].
  destruct w as [sd tr sa sc ra po rp pu pdf].
  unfold setTimeout, world_timers. world_setters.
  rewrite <- !app_assoc. reflexivity.
Qed.

Lemma bind_returned {W A B} (m : Eff W A) (k : A -> Eff W B) w a w1 :
  m w = (Returned a, w1) -> bind m k w = k a w1.
Proof. intros Hm. unfold bind. rewrite Hm. reflexivity. Qed.

Lemma bind_threw {W A B} (m : Eff W A) (k : A -> Eff W B) w e w1 :
  m w = (Threw e, w1) -> bind m k w = (Threw e, w1).
Proof. intros Hm. unfold bind. rewrite Hm. reflexivity. Qed.

Lemma fetch_session_data_eq w s :
  current (sessionDO w) = Some s ->
  step_do "fetch session data"
    (let! response := sessionDO_fetch GetState in
     if negb (ok response)
     then throw (new_Error "Failed to fetch session state")
     else response_session response)%eff w =
  (Returned s, set_sessionDO (set_sessionData (Some s) (sessionDO w)) w).
Proof.
  intros Hcur. unfold step_do.
  rewrite (bind_returned _ _ _ _ _ (fetch_state_eq w s Hcur)). reflexivity.
Qed.

Lemma current_set_sessionData s o : current (set_sessionData (Some s) o) = Some s.
Proof. reflexivity. Qed.

Lemma mark_failed_eq error w :
  mark_failed error w =
  (Threw error,
   set_sessionDO
     (snd (handleUpdate
             (update_of (Some failed) None None
                (Some (displayMessage (getUserFriendlyError error))) None None)
             (sessionDO w))) w).
Proof.
  unfold mark_failed, step_do.
  rewrite (bind_returned _ _ _ _ _ (post_update_eq _ w)). reflexivity.
Qed.

Lemma submission_error_lower body :
  Js.toLowerCase (radar_api_error 500 body) =
  "radar api error (500): " +:+ Js.toLowerCase body.
Proof. reflexivity. Qed.

(** Past the fixed head of the error text nothing matches a keyword of
    the Radar API branch: the search goes on in the body alone. *)
Lemma keyword_search_in_body lower keyword :
  In keyword ["401"; "unauthorized"; "429"; "rate limit"; "400";
              "bad request"; "timeout"] ->
  Js.includes ("radar api error (500): " +:+ lower) keyword =
  Js.includes lower keyword.
Proof.
  cbn [In]. intros [<- | [<- | [<- | [<- | [<- | [<- | [<- | []]]]]]]];
    reflexivity.
Qed.

Lemma submission_error_summary body :
  displayMessage (getUserFriendlyError (submission_error body)) =
  scanning_service_entry (Js.toLowerCase body).
Proof.
  unfold getUserFriendlyError, submission_error, scanning_service_entry.
  cbn [error_text err_message]. rewrite submission_error_lower.
  generalize (Js.toLowerCase body). intros lower.
  change (Js.includes ("radar api error (500): " +:+ lower) "radar api") with true.
  cbv iota.
  rewrite !keyword_search_in_body by (cbn [In]; tauto).
  destruct (Js.includes lower "401" || Js.includes lower "unauthorized");
    [reflexivity|].
  destruct (Js.includes lower "429" || Js.includes lower "rate limit");
    [reflexivity|].
  destruct (Js.includes lower "400" || Js.includes lower "bad request");
    [reflexivity|].
  destruct (Js.includes lower "timeout"); reflexivity.
Qed.

(** C7, as stated, fails in its last clause: when the 500 responses
    carry the body 'Error', the run ends as the claim says (three
    submissions, [status = failed], the 'Scanning Service Error'
    entry), and that summary contains the raw body. *)
Lemma raw_body_counterexample :
  let '(out, w') := run "s-1" (scan_world terse_500 slow_results) in
  out = Threw (submission_error "Error") /\
  scans w' = 3%nat /\
  status <$> current (sessionDO w') = Some failed /\
  current (sessionDO w') ≫= error =
    Some "Scanning Service Error: We encountered an issue while scanning your URL. Please try again in a few moments." /\
  Js.includes
    "Scanning Service Error: We encountered an issue while scanning your URL. Please try again in a few moments."
    "Error" = true.
Proof. vm_compute. repeat split. Qed.

(** C7, amended: when every scan submission answers HTTP 500, a run on
    an existing session makes exactly three submissions (sleeping 2000ms
    and 4000ms in between), rejects with the error of the third, and
    leaves the session with [status = failed] and [error] set to the
    classifier's display string for that error: title, message and
    action of one of the five scanning-service entries, picked by the
    keywords found in the lower-cased body of the third response (the
    'Scanning Service Error' entry when there is none).  The summary is
    that fixed string and nothing of the response is copied into it: it
    never contains the raw error text, and it contains the body alone
    only if one of the five fixed strings does. *)
Theorem failed_submission_is_reported (sessionId : string) (w : World)
    (s : SessionState) (bodies : nat -> string) :
  current (sessionDO w) = Some s ->
  (forall k, scan_api w k = HttpResponse 500 (bodies k)) ->
  let body := bodies (S (S (scans w))) in
  let last := submission_error body in
  let summary := displayMessage (getUserFriendlyError last) in
  let '(out, w') := run sessionId w in
  out = Threw last /\
  scans w' = S (S (S (scans w))) /\
  trace w' = trace w ++ [ScanRequested (url s); TimerSet 2000;
                         ScanRequested (url s); TimerSet 4000;
                         ScanRequested (url s)] /\
  (exists s', current (sessionDO w') = Some s' /\
              status s' = failed /\ error s' = Some summary) /\
  In summary scanning_service_messages /\
  summary = scanning_service_entry (Js.toLowerCase body) /\
  Js.includes summary (radar_api_error 500 body) = false /\
  (Forall (fun m => Js.includes m body = false) scanning_service_messages ->
   Js.includes summary body = false).
Proof.
  intros Hcur Hall. cbv zeta.
  unfold run, try_catch, run_steps.
  rewrite (bind_returned _ _ _ _ _ (fetch_session_data_eq w s Hcur)).
  unfold step_do at 1.
  rewrite (bind_returned _ _ _ _ _ (post_update_eq _ _)).
  unfold step_do at 1.
  erewrite bind_threw; [|apply (submit_retries_exhausted _ _ bodies); exact Hall].
  rewrite mark_failed_eq.
  cbn [set_sessionDO sessionDO trace scans scan_api].
  rewrite (handleUpdate_eq _ _ s (current_set_sessionData s _)). cbv zeta. cbn [snd].
  erewrite handleUpdate_eq by reflexivity. cbv zeta. cbn [snd].
  split; [reflexivity|]. split; [reflexivity|]. split; [reflexivity|].
  split.
  { eexists. split; [reflexivity|]. split; reflexivity. }
  split; [apply radar_error_classified|].
  split; [apply submission_error_summary|].
  split; [apply scanning_messages_hide_raw, radar_error_classified|].
  intros Hnone. rewrite List.Forall_forall in Hnone. apply Hnone.
  apply radar_error_classified.
Qed.

Lemma failed_submission_is_reported_witness :
  let '(out, w') := run "s-1" (scan_world always_500 slow_results) in
  out = Threw (submission_error "Internal Server Error") /\
  scans w' = 3%nat /\
  status <$> current (sessionDO w') = Some failed /\
  current (sessionDO w') ≫= error =
    Some "Scanning Service Error: We encountered an issue while scanning your URL. Please try again in a few moments." /\
  Js.includes
    "Scanning Service Error: We encountered an issue while scanning your URL. Please try again in a few moments."
    "Internal Server Error" = false.
Proof.
  pose proof (failed_submission_is_reported "s-1" (scan_world always_500 slow_results)
                (fresh_session (init_example "https://example.com")
                               (blank_object (fun _ => false)))
                (fun _ => "Internal Server Error") eq_refl (fun _ => eq_refl)) as Hthm.
  cbv zeta in Hthm.
  destruct (run "s-1" (scan_world always_500 slow_results)) as [out w'].
  destruct Hthm as (Hout & Hscans & _ & (s' & Hcur & Hst & Herr) & _ & Hentry & _ & Hbody).
  split; [exact Hout|]. split; [exact Hscans|].
  rewrite Hcur. cbn [fmap option_fmap option_map mbind option_bind].
  rewrite Hst, Herr, Hentry. split; [reflexivity|]. split; [reflexivity|].
  change "Scanning Service Error: We encountered an issue while scanning your URL. Please try again in a few moments."
    with (scanning_service_entry (Js.toLowerCase "Internal Server Error")).
  rewrite <- Hentry. apply Hbody.
  repeat constructor.
Defined.

(** ** Workflow: status transitions *)

Lemma updated_statuses_app l1 l2 :
  updated_statuses (l1 ++ l2) = updated_statuses l1 ++ updated_statuses l2.
Proof.
  induction l1 as [|x l1 IH]; [reflexivity|].
  destruct x; cbn; rewrite ?IH; reflexivity.
Qed.

Lemma updated_statuses_send_failed n :
  updated_statuses (repeat LogSendFailed n) = [].
Proof. induction n as [|n IH]; [reflexivity | exact IH]. Qed.





(** What an accepted update does to the status and to the log. *)
Lemma handleUpdate_status u o s :
  current o = Some s ->
  let o' := snd (handleUpdate u o) in
  exists s', current o' = Some s' /\
    status s' = default (status s) (upd_status u) /\
    exists lines, console o' = console o ++ lines /\
      updated_statuses lines = [default (status s) (upd_status u)].
Proof.
  intros Hcur. cbv zeta. rewrite (handleUpdate_eq u o s Hcur). cbn [snd].
  eexists. split; [reflexivity|]. split; [reflexivity|].
  eexists. cbn [console]. split; [reflexivity|].
  rewrite updated_statuses_app. unfold persist_line.
  destruct (d1_fails o (d1_calls o)); cbn [updated_statuses app];
    rewrite updated_statuses_app, updated_statuses_send_failed; reflexivity.
Qed.



Section Advances.
Context (base : list LogLine) (start : Status).








End Advances.

Lemma retry_loop_keeps_sessionDO {T} (fn : Eff World T) opts :
  (forall w, sessionDO (snd (fn w)) = sessionDO w) ->
  forall remaining attempt lastError w,
    sessionDO (snd (retry_loop fn opts remaining attempt lastError w)) = sessionDO w.
Proof.
  intros Hfn. induction remaining as [|r IH]; intros attempt lastError w.
  - reflexivity.
  - cbn [retry_loop]. specialize (Hfn w).
    destruct (fn w) as [[v|e] w1]; cbn [snd] in *; [exact Hfn|].
    destruct (negb (opt_retryableErrors opts e)); [exact Hfn|].
    destruct (attempt =? opt_maxAttempts opts); [exact Hfn|].
    unfold bind, sleep. rewrite IH. exact Hfn.
Qed.

Lemma submit_scan_keeps_sessionDO target w :
  sessionDO (snd (submit_scan target w)) = sessionDO w.
Proof.
  unfold submit_scan, bind, fetch_scan.
  destruct (scan_api w (scans w)) as [st text|e]; cbn [answer]; [|reflexivity].
  destruct (negb ((200 <=? st) && (st <=? 299))); reflexivity.
Qed.

Lemma put_keeps_sessionDO key w :
  sessionDO (snd (radar_scan_reports_put key w)) = sessionDO w.
Proof.
  unfold radar_scan_reports_put. destruct (r2_put w (puts w)); reflexivity.
Qed.






(* ===================================================================== *)
(** * Further properties *)
(* ===================================================================== *)

(** ** Retry policy *)

Lemma invocations_app tr1 tr2 :
  invocations (tr1 ++ tr2) = (invocations tr1 + invocations tr2)%nat.
Proof. unfold invocations. rewrite List.filter_app, length_app. reflexivity. Qed.

Lemma retries_trace_invocations opts : forall failures attempt,
  invocations (retries_trace opts attempt failures) = S failures.
Proof.
  induction failures as [|f IH]; intros attempt; [reflexivity|].
  cbn [retries_trace]. change (invocations (Invoked :: Slept ?d :: ?l))
    with (S (invocations l)).
  unfold invocations at 1. cbn [List.filter is_invoked length].
  fold (invocations (retries_trace opts (attempt + 1) f)).
  rewrite IH. reflexivity.
Qed.

(** The loop on a scripted action, entered at any attempt. *)
Lemma retry_loop_scripted {T} (script : nat -> Outcome T) opts :
  forall remaining attempt lastError tr,
    attempt + Z.of_nat remaining = opt_maxAttempts opts ->
    let j := retried_run (opt_retryableErrors opts) script (invocations tr) remaining in
    retry_loop (scripted script) opts (S remaining) attempt lastError tr =
    (script (invocations tr + j)%nat, tr ++ retries_trace opts attempt j).
Proof.
  induction remaining as [|r IH]; intros attempt lastError tr Hcount; cbv zeta.
  - cbn [retried_run retries_trace retry_loop]. unfold scripted at 1.
    rewrite Nat.add_0_r.
    destruct (script (invocations tr)) as [v|e]; [reflexivity|].
    destruct (negb (opt_retryableErrors opts e)); [reflexivity|].
    replace (attempt =? opt_maxAttempts opts) with true
      by (symmetry; apply Z.eqb_eq; lia).
    reflexivity.
  - cbn [retried_run].
    destruct (script (invocations tr)) as [v|e] eqn:Hs; cbn [retried].
    + cbn [retry_loop retries_trace]. unfold scripted at 1.
      rewrite Nat.add_0_r, Hs. reflexivity.
    + destruct (opt_retryableErrors opts e) eqn:Hp.
      * rewrite (retry_loop_again (scripted script) opts (S r) attempt lastError
                   tr e (tr ++ [Invoked]));
          [| unfold scripted; rewrite Hs; reflexivity | exact Hp | lia].
        unfold setTimeout, probe_timers.
        rewrite IH by lia. cbv zeta.
        rewrite !invocations_app.
        change (invocations [Invoked]) with 1%nat.
        change (invocations [Slept (backoff_delay opts attempt)]) with 0%nat.
        replace (invocations tr + 1 + 0)%nat with (S (invocations tr)) by lia.
        cbn [retries_trace]. rewrite <- !app_assoc. cbn [app].
        replace (S (invocations tr) + retried_run (opt_retryableErrors opts) script
                                         (S (invocations tr)) r)%nat
          with (invocations tr + S (retried_run (opt_retryableErrors opts) script
                                       (S (invocations tr)) r))%nat by lia.
        reflexivity.
      * rewrite (retry_loop_stop (scripted script) opts (S r) attempt lastError
                   tr e (tr ++ [Invoked]));
          [| unfold scripted; rewrite Hs; reflexivity | left; exact Hp].
        rewrite Nat.add_0_r, Hs. reflexivity.
Qed.

(** X1: retryWithBackoff on an action whose calls settle as a given
    script, with [maxAttempts = n >= 1]: with [j] the number of leading
    outcomes that are rejections accepted by the predicate (counted up
    to [n - 1]), the action is invoked [j + 1] times with the backoff
    delays slept in between, and the call settles as the last
    invocation did: the first fulfilment, the first refused rejection,
    or the n-th attempt. *)
Theorem retry_follows_script {T} (script : nat -> Outcome T)
    (options : RetryOptions) (n : Z) :
  maxAttempts options = Some n ->
  1 <= n ->
  let opts := spread_options DEFAULT_OPTIONS options in
  let j := retried_run (opt_retryableErrors opts) script 0 (Z.to_nat (n - 1)) in
  retryWithBackoff (scripted script) options [] =
    (script j, retries_trace opts 1 j) /\
  invocations (snd (retryWithBackoff (scripted script) options [])) = S j /\
  Z.of_nat (S j) <= n.
Proof.
  intros Hmax Hn. cbv zeta.
  set (opts := spread_options DEFAULT_OPTIONS options).
  assert (Hopt : opt_maxAttempts opts = n)
    by (subst opts; cbn; rewrite Hmax; reflexivity).
  assert (Hrun : retryWithBackoff (scripted script) options [] =
                 (script (retried_run (opt_retryableErrors opts) script 0
                                      (Z.to_nat (n - 1))),
                  retries_trace opts 1
                    (retried_run (opt_retryableErrors opts) script 0
                                 (Z.to_nat (n - 1))))).
  { unfold retryWithBackoff. fold opts. rewrite Hopt.
    replace (Z.to_nat n) with (S (Z.to_nat (n - 1))) by lia.
    rewrite retry_loop_scripted by lia. reflexivity. }
  split; [exact Hrun|]. rewrite Hrun. cbn [snd].
  split; [apply retries_trace_invocations|].
  assert (Hle : forall limit from,
             (retried_run (opt_retryableErrors opts) script from limit <= limit)%nat).
  { induction limit as [|l IH]; intros from; cbn [retried_run]; [lia|].
    destruct (retried _ _); [specialize (IH (S from))|]; lia. }
  specialize (Hle (Z.to_nat (n - 1)) 0%nat). lia.
Qed.

Lemma retry_follows_script_witness :
  retryWithBackoff (scripted (flaky 2 numbered_error "done")) three_attempts [] =
  (Returned "done", [Invoked; Slept 100; Invoked; Slept 200; Invoked]).
Proof.
  destruct (retry_follows_script (flaky 2 numbered_error "done") three_attempts 3
              eq_refl ltac:(lia)) as [Hrun _].
  rewrite Hrun. reflexivity.
Defined.
Lemma retried_run_flaky {T} p k errs (v : T) :
  (forall i, (i < k)%nat -> p (errs i) = true) ->
  forall limit from, (from <= k)%nat ->
    retried_run p (flaky k errs v) from limit = Nat.min (k - from) limit.
Proof.
  intros Hacc. induction limit as [|l IH]; intros from Hfrom.
  - cbn. lia.
  - cbn [retried_run]. unfold flaky at 1.
    destruct (from <? k)%nat eqn:Hlt.
    + apply Nat.ltb_lt in Hlt. cbn [retried]. rewrite (Hacc from Hlt).
      rewrite IH by lia. lia.
    + apply Nat.ltb_ge in Hlt. cbn [retried]. lia.
Qed.

(** X2: an action that fails [k] times with errors the predicate
    accepts and then succeeds, run with more than [k] attempts allowed,
    is invoked exactly [k + 1] times, the backoff delays of attempts
    1..k are slept in between, and the call returns the action's
    value. *)
Theorem retry_recovers {T} (k : nat) (errs : nat -> Thrown) (v : T)
    (options : RetryOptions) (n : Z) :
  let opts := spread_options DEFAULT_OPTIONS options in
  maxAttempts options = Some n ->
  Z.of_nat k < n ->
  (forall i, (i < k)%nat -> opt_retryableErrors opts (errs i) = true) ->
  retryWithBackoff (scripted (flaky k errs v)) options [] =
    (Returned v, retries_trace opts 1 k) /\
  invocations (retries_trace opts 1 k) = S k.
Proof.
  intros opts Hmax Hk Hacc.
  assert (Hopt : opt_maxAttempts opts = n)
    by (subst opts; cbn; rewrite Hmax; reflexivity).
  split; [|apply retries_trace_invocations].
  unfold retryWithBackoff. fold opts. rewrite Hopt.
  replace (Z.to_nat n) with (S (Z.to_nat (n - 1))) by lia.
  rewrite retry_loop_scripted by lia. cbv zeta.
  change (invocations []) with 0%nat.
  rewrite (retried_run_flaky _ k errs v Hacc) by lia.
  replace (Nat.min (k - 0) (Z.to_nat (n - 1))) with k by lia.
  cbn [Nat.add app]. unfold flaky. rewrite Nat.ltb_irrefl. reflexivity.
Qed.

Lemma retry_recovers_witness :
  retryWithBackoff (scripted (flaky 1 numbered_error "done")) three_attempts [] =
  (Returned "done", [Invoked; Slept 100; Invoked]).
Proof.
  destruct (retry_recovers 1 numbered_error "done" three_attempts 3
              eq_refl ltac:(lia) (fun _ _ => eq_refl)) as [Hrun _].
  rewrite Hrun. reflexivity.
Defined.

(** X3: the backoff delay never exceeds [maxDelayMs]; with a
    non-negative initial delay and a multiplier of at least 1 it is at
    least [min initialDelayMs maxDelayMs] and does not decrease from one
    attempt to the next. *)
Theorem backoff_delay_bounds (opts : ResolvedRetryOptions) (a b : Z) :
  0 <= opt_initialDelayMs opts ->
  1 <= opt_backoffMultiplier opts ->
  1 <= a <= b ->
  backoff_delay opts a <= opt_maxDelayMs opts /\
  Z.min (opt_initialDelayMs opts) (opt_maxDelayMs opts) <= backoff_delay opts a /\
  backoff_delay opts a <= backoff_delay opts b.
Proof.
  intros Hinit Hmult Hab. unfold backoff_delay.
  assert (Hpow : opt_backoffMultiplier opts ^ (a - 1)
                 <= opt_backoffMultiplier opts ^ (b - 1))
    by (apply Z.pow_le_mono_r; lia).
  assert (Hone : 1 <= opt_backoffMultiplier opts ^ (a - 1)).
  { rewrite <- (Z.pow_1_l (a - 1)) at 1 by lia.
    apply Z.pow_le_mono_l. lia. }
  split; [apply Z.le_min_r|]. split.
  - apply Z.min_le_compat_r. nia.
  - apply Z.min_le_compat_r. nia.
Qed.

Lemma backoff_delay_bounds_witness :
  backoff_delay DEFAULT_OPTIONS 2 <= 10000 /\
  backoff_delay DEFAULT_OPTIONS 2 <= backoff_delay DEFAULT_OPTIONS 5 /\
  backoff_delay DEFAULT_OPTIONS 5 = 10000.
Proof.
  destruct (backoff_delay_bounds DEFAULT_OPTIONS 2 5 ltac:(cbn; lia) ltac:(cbn; lia)
              ltac:(lia)) as (Hcap & _ & Hmono).
  split; [exact Hcap|]. split; [exact Hmono | reflexivity].
Defined.

(** ** Error classifier *)

(** X4: whatever is thrown, the display string the workflow builds from
    the classifier's answer is one of thirteen constants, and an action
    is always present: nothing of the error's own text reaches it. *)
Theorem classifier_answers_from_catalogue (error : Thrown) :
  In (displayMessage (getUserFriendlyError error))
     (scanning_service_messages ++ general_messages) /\
  exists a, action (getUserFriendlyError error) = Some a /\
    displayMessage (getUserFriendlyError error) =
    title (getUserFriendlyError error) +:+ ": "
      +:+ message (getUserFriendlyError error) +:+ " " +:+ a.
Proof.
  unfold getUserFriendlyError.
  set (lower := Js.toLowerCase (error_text error)).
  split_classifier; (split; [pick_message | eexists; split; reflexivity]).
Qed.

(** X5: the answer is one of the scanning-service entries exactly when
    the error text mentions the Radar API (in any letter case): that
    branch is tried first, so such an error is never reported as a
    connection, storage or generic failure, and no other error is
    reported as a scanning failure. *)
Theorem scanning_entry_iff_radar_error (error : Thrown) :
  Js.includes (Js.toLowerCase (error_text error)) "radar api" = true <->
  In (displayMessage (getUserFriendlyError error)) scanning_service_messages.
Proof.
  unfold getUserFriendlyError.
  set (lower := Js.toLowerCase (error_text error)).
  destruct (Js.includes lower "radar api") eqn:Hradar.
  - split; [intros _ | reflexivity].
    split_classifier; pick_message.
  - split; [discriminate|]. intros Hin. exfalso.
    revert Hin. split_classifier; intros Hin; refute_membership Hin.
Qed.

(** ** Session coordinator *)

(** [handleWebSocket] in closed form. *)
Lemma handleWebSocket_eq server clientId o :
  handleWebSocket server clientId o =
  ({| resp_status := 101; resp_body := None |},
   {| sessions := sessions o ++ [(server, clientId)];
      sessionData := current o;
      storage := storage o;
      alarm_time := alarm_time o;
      radar_scanner_db := radar_scanner_db o;
      console := console o ++
        [LogWebSocketConnected clientId (length (sessions o ++ [(server, clientId)]))];
      wire := wire o ++
        match current o with
        | Some s => [Sent (ws_id server) (StateMessage s (clock o (ticks o)))]
        | None => []
        end;
      ticks := match current o with Some _ => S (ticks o) | None => ticks o end;
      clock := clock o;
      d1_calls := d1_calls o;
      d1_fails := d1_fails o |}).
Proof.
  unfold handleWebSocket, load, current.
  destruct o as [ss sd sto al db con wi ti cl dc df].
  cbn [sessionData set_sessions storage].
  destruct sd as [s|]; [setters; reflexivity|].
  setters. destruct (sto !! "sessionData") as [s|]; setters;
    rewrite ?app_nil_r; reflexivity.
Qed.

(** X6: a client that connects is added at the end of the registry and
    is sent at once one [state] envelope carrying the session exactly
    as [getState] then answers it; when no session exists it is
    registered all the same and sent nothing.  Connecting writes
    neither storage nor the mirror. *)
Theorem connect_receives_snapshot (server : WebSocket) (clientId : string)
    (o : SessionManager) :
  let '(r, o') := handleWebSocket server clientId o in
  resp_status r = 101 /\
  sessions o' = sessions o ++ [(server, clientId)] /\
  match current o with
  | Some s =>
      wire o' = wire o ++ [Sent (ws_id server) (StateMessage s (clock o (ticks o)))] /\
      fst (handleGetState o') = json_session s
  | None =>
      wire o' = wire o /\
      fst (handleGetState o') = text_response 404 "Session not found"
  end /\
  storage o' = storage o /\ radar_scanner_db o' = radar_scanner_db o.
Proof.
  rewrite handleWebSocket_eq. cbn [resp_status sessions wire storage radar_scanner_db].
  split; [reflexivity|]. split; [reflexivity|]. split; [|split; reflexivity].
  destruct (current o) as [s|] eqn:Hcur.
  - split; [reflexivity|]. erewrite handleGetState_found; reflexivity.
  - split; [apply app_nil_r|].
    rewrite handleGetState_missing; [reflexivity|].
    unfold current in *. cbn [sessionData storage].
    destruct (sessionData o); [discriminate | exact Hcur].
Qed.

Lemma fold_sessions_delete ids : forall keys,
  fold_left (fun l ws => sessions_delete ws l) ids keys =
  List.filter (fun e => negb (existsb (Nat.eqb (ws_id (fst e))) ids)) keys.
Proof.
  induction ids as [|d ids IH]; intros keys.
  - cbn. symmetry. apply forallb_filter_id. apply forallb_forall. reflexivity.
  - cbn [fold_left existsb]. rewrite IH. unfold sessions_delete.
    induction keys as [|e keys IHk]; [reflexivity|].
    cbn [List.filter].
    destruct (Nat.eqb (ws_id (fst e)) d) eqn:Hd; cbn [negb orb].
    + exact IHk.
    + cbn [List.filter]. rewrite IHk. reflexivity.
Qed.

Lemma socket_ids_injective keys : List.NoDup (socket_ids keys) ->
  forall e1 e2, In e1 keys -> In e2 keys ->
    ws_id (fst e1) = ws_id (fst e2) -> e1 = e2.
Proof.
  induction keys as [|e keys IH]; intros Hnd e1 e2 H1 H2 Hid; [destruct H1|].
  cbn in Hnd. apply List.NoDup_cons_iff in Hnd. destruct Hnd as [Hnot Hnd].
  destruct H1 as [<- | H1], H2 as [<- | H2].
  - reflexivity.
  - exfalso. apply Hnot. rewrite Hid. apply in_map_iff. exists e2. split; trivial.
  - exfalso. apply Hnot. rewrite <- Hid. apply in_map_iff. exists e1. split; trivial.
  - apply IH; assumption.
Qed.

(** With sockets told apart by their identity, pruning keeps exactly
    the live entries. *)
Lemma prune_live keys : List.NoDup (socket_ids keys) -> prune keys = live keys.
Proof.
  intros Hnd. unfold prune, live. rewrite fold_sessions_delete.
  apply filter_ext_in. intros e He.
  destruct (ws_open (fst e)) eqn:Hopen.
  - apply negb_true_iff. apply not_true_is_false. intros Hex.
    apply existsb_exists in Hex. destruct Hex as (d & Hd & Heq).
    apply Nat.eqb_eq in Heq. unfold dead_ids in Hd.
    apply in_map_iff in Hd. destruct Hd as (e' & Hid & He').
    apply filter_In in He'. destruct He' as [He' Hdead].
    assert (e = e') by (apply (socket_ids_injective keys Hnd); congruence).
    subst e'. rewrite Hopen in Hdead. discriminate.
  - apply negb_false_iff. apply existsb_exists. exists (ws_id (fst e)).
    split; [|apply Nat.eqb_refl].
    unfold dead_ids. apply in_map_iff. exists e. split; [reflexivity|].
    apply filter_In. split; [exact He|]. rewrite Hopen. reflexivity.
Qed.

Lemma live_idempotent keys : live (live keys) = live keys.
Proof.
  unfold live. induction keys as [|e keys IH]; [reflexivity|].
  cbn [List.filter]. destruct (ws_open (fst e)) eqn:Hopen; [|exact IH].
  cbn [List.filter]. rewrite Hopen, IH. reflexivity.
Qed.

Lemma dead_ids_live keys : dead_ids (live keys) = [].
Proof.
  unfold dead_ids, live. induction keys as [|e keys IH]; [reflexivity|].
  cbn [List.filter]. destruct (ws_open (fst e)) eqn:Hopen; [|exact IH].
  cbn [List.filter]. rewrite Hopen. exact IH.
Qed.

Lemma socket_ids_live keys : List.NoDup (socket_ids keys) -> List.NoDup (socket_ids (live keys)).
Proof.
  unfold socket_ids, live. induction keys as [|e keys IH]; intros Hnd; [constructor|].
  cbn in Hnd. apply List.NoDup_cons_iff in Hnd. destruct Hnd as [Hnot Hnd].
  cbn [List.filter]. destruct (ws_open (fst e)); [|apply IH; exact Hnd].
  cbn [map]. constructor; [|apply IH; exact Hnd].
  intros Hin. apply Hnot. apply in_map_iff in Hin. destruct Hin as (e' & Hid & He').
  apply filter_In in He'. apply in_map_iff. exists e'. tauto.
Qed.

(** X7: on a registry whose sockets are distinct, an accepted update
    sends its envelope once to every connection that accepts it, in
    registration order, and drops exactly the connections whose send
    threw.  A second update then reaches the same live connections
    again, tries no dropped one, and meets no send failure. *)
Theorem update_prunes_dead_connections (u1 u2 : SessionUpdate)
    (o : SessionManager) (s : SessionState) :
  List.NoDup (socket_ids (sessions o)) ->
  current o = Some s ->
  let o1 := snd (handleUpdate u1 o) in
  let o2 := snd (handleUpdate u2 o1) in
  sessions o1 = live (sessions o) /\
  wire o1 = wire o ++ map (fun e => Sent (ws_id (fst e))
                                     (UpdateMessage u1 (clock o (S (ticks o)))))
                          (live (sessions o)) /\
  sessions o2 = live (sessions o) /\
  wire o2 = wire o1 ++ map (fun e => Sent (ws_id (fst e))
                                      (UpdateMessage u2 (clock o (S (S (S (ticks o)))))))
                           (live (sessions o)) /\
  ~ In LogSendFailed (skipn (length (console o1)) (console o2)).
Proof.
  intros Hnd Hcur. cbv zeta.
  rewrite (handleUpdate_eq u1 o s Hcur). cbn [snd].
  erewrite handleUpdate_eq by reflexivity. cbv zeta.
  cbn [snd sessions wire console clock ticks].
  rewrite (prune_live _ Hnd).
  rewrite (prune_live _ (socket_ids_live _ Hnd)), live_idempotent.
  unfold sent_frames. rewrite live_idempotent, dead_ids_live.
  split; [reflexivity|]. split; [reflexivity|].
  split; [reflexivity|]. split; [reflexivity|].
  rewrite skipn_app, skipn_all, Nat.sub_diag. cbn [skipn app repeat length].
  intros [H | [H | [H | []]]]; [|discriminate..].
  unfold persist_line in H. destruct (d1_fails _ _); discriminate.
Qed.

Lemma update_prunes_dead_connections_witness :
  let o1 := snd (handleUpdate requeue (watched_object (fun _ => false))) in
  let o2 := snd (handleUpdate progress_20 o1) in
  sessions o1 = [client 1 true; client 3 true] /\
  wire o2 = [Sent 1 (UpdateMessage requeue 1004); Sent 3 (UpdateMessage requeue 1004);
             Sent 1 (UpdateMessage progress_20 1006);
             Sent 3 (UpdateMessage progress_20 1006)].
Proof.
  cbv zeta.
  destruct (update_prunes_dead_connections requeue progress_20
              (watched_object (fun _ => false))
              (fresh_session (init_example "https://example.com")
                             (blank_object (fun _ => false))))
    as (Hs1 & Hw1 & _ & Hw2 & _).
  { repeat constructor; cbn; intuition congruence. }
  { reflexivity. }
  split; [exact Hs1|]. rewrite Hw2, Hw1. reflexivity.
Defined.

(** X8: while no session is stored, [update] and [getState] both
    answer 404 'Session not found' and leave the object exactly as it
    was: nothing is written, mirrored, logged or broadcast. *)
Theorem missing_session_is_not_found (o : SessionManager) (u : SessionUpdate) :
  current o = None ->
  handleUpdate u o = (text_response 404 "Session not found", o) /\
  handleGetState o = (text_response 404 "Session not found", o) /\
  ok (text_response 404 "Session not found") = false.
Proof.
  intros Hcur. split; [apply handleUpdate_missing; exact Hcur|].
  split; [apply handleGetState_missing; exact Hcur | reflexivity].
Qed.

Lemma missing_session_is_not_found_witness :
  handleUpdate requeue (blank_object (fun _ => false)) =
  (text_response 404 "Session not found", blank_object (fun _ => false)).
Proof.
  destruct (missing_session_is_not_found (blank_object (fun _ => false)) requeue
              eq_refl) as [Hupd _].
  exact Hupd.
Defined.

(** X9: once the alarm has torn a session down, a later [update] is
    refused with 404 and changes nothing, so writes of a workflow that
    is still running are dropped; a later [init] starts a fresh
    [queued] session. *)
Theorem expired_session_rejects_updates (o : SessionManager) (s : SessionState)
    (u : SessionUpdate) (data : SessionInit) :
  current o = Some s ->
  clock o (ticks o) >= expiresAt s ->
  handleUpdate u (alarm o) = (text_response 404 "Session not found", alarm o) /\
  fst (handleInit data (alarm o)) = json_success /\
  current (snd (handleInit data (alarm o))) = Some (fresh_session data (alarm o)).
Proof.
  intros Hcur Hdue.
  split.
  - apply handleUpdate_missing. rewrite (alarm_eq o s Hcur Hdue). reflexivity.
  - rewrite handleInit_eq. split; reflexivity.
Qed.

Lemma expired_session_rejects_updates_witness :
  fst (handleUpdate requeue (alarm completed_object)) =
  text_response 404 "Session not found" /\
  wire (snd (handleUpdate requeue (alarm completed_object))) =
  wire (alarm completed_object).
Proof.
  assert (Hcur : current completed_object =
                 Some (updated (fresh_session (init_example "https://example.com")
                                              (blank_object (fun _ => false)))
                         (update_of (Some completed) None
                            (Some "sessions/s-1/report.pdf") None (Some 100) None)
                         (started_object (fun _ => false))))
    by (vm_compute; reflexivity).
  destruct (expired_session_rejects_updates completed_object _ requeue
              (init_example "https://example.com") Hcur
              ltac:(vm_compute; discriminate)) as [Hupd _].
  rewrite Hupd. split; reflexivity.
Defined.

Lemma early_alarm_keeps (o : SessionManager) (s : SessionState) :
  current o = Some s ->
  clock o (ticks o) < expiresAt s ->
  let o' := alarm o in
  current o' = Some s /\ sessions o' = sessions o /\
  storage o' = storage o /\ radar_scanner_db o' = radar_scanner_db o /\
  wire o' = wire o /\ d1_calls o' = d1_calls o /\
  alarm_time o' = alarm_time o /\
  console o' = console o ++ [LogAlarmTriggered].
Proof.
  intros Hcur Hearly. cbv zeta. unfold alarm.
  assert (Hcur' : current (console_log LogAlarmTriggered o) = Some s)
    by (destruct o; exact Hcur).
  rewrite load_current, Hcur'. unfold Date_now.
  replace (clock (load (console_log LogAlarmTriggered o))
                 (ticks (load (console_log LogAlarmTriggered o))))
    with (clock o (ticks o))
    by (unfold load; destruct o as [ss sd sto al db con wi ti cl dc df];
        destruct sd; reflexivity).
  replace (clock o (ticks o) >=? expiresAt s) with false
    by (symmetry; rewrite Z.geb_leb; apply Z.leb_gt; lia).
  unfold load, current in *.
  destruct o as [ss sd sto al db con wi ti cl dc df]; setters.
  destruct sd; setters; rewrite ?Hcur; repeat split; first [reflexivity | assumption].
Qed.

(** X10: an alarm that fires before [expiresAt] tears nothing down:
    the session, the registry, storage, the mirror and the wire are as
    before, no D1 statement is issued, and no new alarm is set.  An
    alarm that finds no session only writes two log lines. *)
Theorem early_alarm_changes_nothing (o : SessionManager) :
  (forall s, current o = Some s ->
     clock o (ticks o) < expiresAt s ->
     let o' := alarm o in
     current o' = Some s /\ sessions o' = sessions o /\
     storage o' = storage o /\ radar_scanner_db o' = radar_scanner_db o /\
     wire o' = wire o /\ d1_calls o' = d1_calls o /\
     alarm_time o' = alarm_time o /\
     console o' = console o ++ [LogAlarmTriggered]) /\
  (current o = None ->
     alarm o = set_console (console o ++ [LogAlarmTriggered; LogNoSessionInAlarm]) o).
Proof.
  split.
  - intros s Hcur Hearly. apply early_alarm_keeps; assumption.
  - intros Hcur. unfold alarm.
    assert (Hcur' : current (console_log LogAlarmTriggered o) = None)
      by (destruct o; exact Hcur).
    rewrite load_current, Hcur'. unfold load, current in *.
    destruct o as [ss sd sto al db con wi ti cl dc df]; setters.
    destruct sd; [discriminate|]. setters. rewrite Hcur, <- app_assoc. reflexivity.
Qed.

Lemma early_alarm_changes_nothing_witness :
  current (alarm (started_object (fun _ => false))) =
  current (started_object (fun _ => false)) /\
  storage (alarm (started_object (fun _ => false))) =
  storage (started_object (fun _ => false)).
Proof.
  destruct (early_alarm_changes_nothing (started_object (fun _ => false))) as [Hearly _].
  destruct (Hearly _ eq_refl ltac:(vm_compute; reflexivity))
    as (Hcur & _ & Hsto & _).
  rewrite Hcur, Hsto. split; reflexivity.
Defined.

(** X11: [init] reads the clock three times, for [createdAt],
    [updatedAt] and [expiresAt].  On a clock that does not run backwards
    [createdAt <= updatedAt] and the session expires no earlier than 24
    hours after [createdAt] (exactly 24 hours after the third reading);
    the alarm is armed for [expiresAt], and an alarm whose clock reading
    has reached that time tears the session down. *)
Theorem init_arms_expiry (data : SessionInit) (o : SessionManager) :
  monotone (clock o) ->
  let o1 := snd (handleInit data o) in
  exists s, current o1 = Some s /\
    createdAt s <= updatedAt s /\
    createdAt s + 24 * 60 * 60 * 1000 <= expiresAt s /\
    expiresAt s = clock o (S (S (ticks o))) + 86400000 /\
    alarm_time o1 = Some (expiresAt s) /\
    (clock o (S (S (S (ticks o)))) >= expiresAt s -> current (alarm o1) = None) /\
    (clock o (S (S (S (ticks o)))) < expiresAt s -> current (alarm o1) = Some s).
Proof.
  intros Hmono. cbv zeta. rewrite handleInit_eq. cbn [snd].
  exists (fresh_session data o).
  split; [reflexivity|]. cbn [createdAt updatedAt expiresAt fresh_session alarm_time].
  pose proof (Hmono (ticks o) (S (ticks o)) ltac:(lia)).
  pose proof (Hmono (ticks o) (S (S (ticks o))) ltac:(lia)).
  split; [lia|]. split; [lia|]. split; [reflexivity|]. split; [reflexivity|].
  split.
  - intros Hdue. erewrite alarm_eq; [reflexivity | reflexivity | exact Hdue].
  - intros Hearly.
    match goal with |- current (alarm ?o1) = _ =>
      destruct (early_alarm_keeps o1 (fresh_session data o) eq_refl Hearly) as [Hc _]
    end.
    exact Hc.
Qed.

Lemma init_arms_expiry_witness :
  alarm_time (started_object (fun _ => false)) = Some (1002 + 86400000) /\
  current (alarm (started_object (fun _ => false))) =
  current (started_object (fun _ => false)).
Proof.
  destruct (init_arms_expiry (init_example "https://example.com")
              (blank_object (fun _ => false)) (blank_clock_monotone _))
    as (s & Hcur & _ & _ & Hexp & Halarm & _ & Hearly).
  unfold started_object. rewrite Halarm, Hexp, Hcur. split; [reflexivity|].
  apply Hearly. rewrite Hexp. cbn. lia.
Defined.



(** X13: [getState] is a read: it answers from memory or from storage,
    leaves storage, the mirror, the wire, the log, the registry, the
    alarm and the clock as they were, and asked again at once answers
    the same. *)
Theorem getState_only_reads (o : SessionManager) :
  let '(r, o1) := handleGetState o in
  current o1 = current o /\ storage o1 = storage o /\
  radar_scanner_db o1 = radar_scanner_db o /\ wire o1 = wire o /\
  console o1 = console o /\ sessions o1 = sessions o /\
  alarm_time o1 = alarm_time o /\ ticks o1 = ticks o /\
  d1_calls o1 = d1_calls o /\
  handleGetState o1 = (r, o1).
Proof.
  destruct (current o) as [s|] eqn:Hcur.
  - rewrite (handleGetState_found o s Hcur).
    rewrite (handleGetState_found _ s (current_set_sessionData s o)).
    destruct o; repeat split; first [reflexivity | symmetry; exact Hcur].
  - rewrite (handleGetState_missing o Hcur).
    rewrite (handleGetState_missing o Hcur). repeat split; exact Hcur.
Qed.

Lemma sessions_delete_forgets ws keys :
  ~ In ws (socket_ids (sessions_delete ws keys)).
Proof.
  unfold socket_ids, sessions_delete. intros Hin.
  apply in_map_iff in Hin. destruct Hin as (e & Hid & He).
  apply filter_In in He. destruct He as [_ Hne].
  rewrite Hid, Nat.eqb_refl in Hne. discriminate.
Qed.

Lemma sessions_delete_fresh ws keys :
  ~ In ws (socket_ids keys) -> sessions_delete ws keys = keys.
Proof.
  intros Hfresh. unfold sessions_delete. apply forallb_filter_id.
  apply forallb_forall. intros e He. apply negb_true_iff, Nat.eqb_neq.
  intros Hid. apply Hfresh. unfold socket_ids. apply in_map_iff.
  exists e. split; assumption.
Qed.

(** X14: after the [close] listener has run for a socket, the registry
    holds no entry for it, and the frames a later update sends include
    none for it; for a socket that was new to the registry, connecting
    and closing leaves the registry as it was before. *)
Theorem closed_connection_is_forgotten (server : WebSocket) (clientId : string)
    (o : SessionManager) :
  let o' := on_close server clientId o in
  ~ In (ws_id server) (socket_ids (sessions o')) /\
  (forall u s payload,
     current o' = Some s ->
     ~ In (Sent (ws_id server) payload)
          (skipn (length (wire o')) (wire (snd (handleUpdate u o'))))) /\
  (~ In (ws_id server) (socket_ids (sessions o)) ->
   sessions (on_close server clientId (snd (handleWebSocket server clientId o)))
   = sessions o).
Proof.
  cbv zeta. split; [|split].
  - unfold on_close. destruct o; setters. apply sessions_delete_forgets.
  - intros u s payload Hcur Hin.
    rewrite (handleUpdate_eq u _ s Hcur) in Hin. cbn [snd wire] in Hin.
    rewrite skipn_app, skipn_all, Nat.sub_diag in Hin. cbn [skipn app] in Hin.
    unfold sent_frames, live in Hin. apply in_map_iff in Hin.
    destruct Hin as (e & Heq & He). apply filter_In in He. destruct He as [He _].
    injection Heq as Hid _.
    assert (Hforgot : ~ In (ws_id server)
                        (socket_ids (sessions (on_close server clientId o))))
      by (unfold on_close; destruct o; setters; apply sessions_delete_forgets).
    apply Hforgot. unfold socket_ids. apply in_map_iff. exists e. split; assumption.
  - intros Hfresh. rewrite handleWebSocket_eq. cbn [snd]. unfold on_close.
    cbv [console_log set_sessions set_console sessions console].
    unfold sessions_delete. rewrite List.filter_app. cbn [List.filter fst].
    rewrite Nat.eqb_refl. cbn [negb]. rewrite app_nil_r.
    apply (sessions_delete_fresh (ws_id server) (sessions o) Hfresh).
Qed.

Lemma closed_connection_is_forgotten_witness :
  let o := watched_object (fun _ => false) in
  let server := {| ws_id := 7; ws_open := true |} in
  sessions (on_close server "c7" (snd (handleWebSocket server "c7" o))) = sessions o.
Proof.
  cbv zeta.
  destruct (closed_connection_is_forgotten {| ws_id := 7; ws_open := true |} "c7"
              (watched_object (fun _ => false))) as (_ & _ & Hround).
  apply Hround. cbn. intuition congruence.
Defined.

(** ** Workflow: whole runs *)

Lemma run_steps_split sessionId :
  run_steps sessionId =
  (let! sessionState := step_do "fetch session data"
     (let! response := sessionDO_fetch GetState in
      if negb (ok response)
      then throw (new_Error "Failed to fetch session state")
      else response_session response) in
   await! step_do "update progress: starting"
     (post_update (update_of None None None None
        (Some 5) (Some "Submitting URL to Cloudflare Radar..."))) in
   let! radarScan := step_do "submit to radar api"
     (retryWithBackoff (submit_scan (url sessionState)) submit_options) in
   await! step_do "update session with radar uuid"
     (post_update (update_of (Some scanning) (Some radarScan) None None
        (Some 15) (Some "Scan submitted. Waiting for results..."))) in
   let! scanResult := step_do "poll for scan results"
     (poll_for_scan_results radarScan) in
   finish_run sessionId sessionState scanResult)%eff.
Proof. reflexivity. Qed.

(** X16: on a durable object that holds no session the run fails at
    its first step with 'Failed to fetch session state'; it calls no
    outside service, and the failure report it posts is refused by the
    object, so the whole world is left as it was. *)
Theorem run_without_session (sessionId : string) (w : World) :
  current (sessionDO w) = None ->
  run sessionId w = (Threw (new_Error "Failed to fetch session state"), w).
Proof.
  intros Hcur. unfold run, try_catch. rewrite run_steps_split.
  assert (Hfirst : sessionDO_fetch GetState w =
                   (Returned (text_response 404 "Session not found"), w)).
  { unfold sessionDO_fetch, fetch. rewrite (handleGetState_missing _ Hcur).
    destruct w; reflexivity. }
  unfold step_do at 1.
  erewrite bind_threw;
    [| rewrite (bind_returned _ _ _ _ _ Hfirst); reflexivity].
  rewrite mark_failed_eq, (handleUpdate_missing _ _ Hcur).
  destruct w; reflexivity.
Qed.

Lemma run_without_session_witness :
  run "s-1" orphan_world =
  (Threw (new_Error "Failed to fetch session state"), orphan_world) /\
  trace (snd (run "s-1" orphan_world)) = [].
Proof.
  rewrite (run_without_session "s-1" orphan_world eq_refl). split; reflexivity.
Defined.

(** ** Workflow: runs over an unreliable stub *)

(** The parametrised text is the workflow's own when the stub is the
    durable object itself. *)
Lemma run_via_in_process sessionId :
  run_via sessionDO_fetch sessionId = run sessionId.
Proof. reflexivity. Qed.

Lemma sessionDO_fetch_over_reliable request :
  sessionDO_fetch_over reliable request = sessionDO_fetch request.
Proof. reflexivity. Qed.

Section Ensures.
Context (net : Network).

Lemma ensures_bind {A B} P Q R S (m : Eff World A) (k : A -> Eff World B) :
  ensures P m Q S ->
  (forall a, ensures Q (k a) R S) ->
  ensures P (bind m k) R S.
Proof.
  intros Hm Hk w Hw. specialize (Hm w Hw). unfold bind.
  destruct (m w) as [[a|e] w1]; [apply Hk; exact Hm | exact Hm].
Qed.

Lemma ensures_ret {A} P R (a : A) : ensures P (ret a) P R.
Proof. intros w Hw. exact Hw. Qed.

Lemma ensures_throw {A} P Q e : ensures P (@throw World A e) Q P.
Proof. intros w Hw. exact Hw. Qed.

Lemma unreported_same w w' :
  sessionDO w' = sessionDO w -> unreported w -> unreported w'.
Proof. intros Hsame (s & Hcur & Hst). exists s. rewrite Hsame. split; assumption. Qed.

(** A computation that leaves the durable object alone. *)
Lemma ensures_frame {A} (m : Eff World A) :
  (forall w, sessionDO (snd (m w)) = sessionDO w) ->
  ensures unreported m unreported unreported.
Proof.
  intros Hframe w Hw. specialize (Hframe w).
  destruct (m w) as [[a|e] w1]; cbn [snd] in Hframe;
    apply (unreported_same w); assumption.
Qed.

Lemma served_update u w s :
  current (sessionDO w) = Some s ->
  session_holds (fun s' => status s' = default (status s) (upd_status u))
    (snd (sessionDO_fetch (PostUpdate u) w)).
Proof.
  intros Hcur. unfold sessionDO_fetch, fetch.
  destruct (handleUpdate_status u (sessionDO w) s Hcur) as (s' & Hcur' & Hst' & _).
  destruct (handleUpdate u (sessionDO w)) as [r o']. cbn [snd] in *.
  exists s'. split; assumption.
Qed.

(** An update that goes over the link: the session has the status the
    update gives it when the call returns; when the call rejects, the
    session has that status or the one it had. *)
Lemma ensures_update u :
  upd_status u <> Some failed ->
  ensures unreported (sessionDO_fetch_over net (PostUpdate u))
    (fun w' => unreported w' /\
               forall st, upd_status u = Some st ->
                          session_holds (fun s => status s = st) w')
    unreported.
Proof.
  intros Hu w (s & Hcur & Hst). unfold sessionDO_fetch_over.
  pose proof (served_update u w s Hcur) as (s' & Hcur' & Hst').
  assert (Hnf : status s' <> failed).
  { rewrite Hst'. destruct (upd_status u) as [st|]; cbn; congruence. }
  destruct (net (PostUpdate u) w) as [[e|e]|].
  - exists s. split; assumption.
  - exists s'. split; assumption.
  - unfold sessionDO_fetch in *. destruct (fetch (PostUpdate u) (sessionDO w)) as [r o'].
    cbn [snd] in *. split.
    + exists s'. split; assumption.
    + intros st Hgiven. exists s'. split; [exact Hcur'|].
      rewrite Hst', Hgiven. reflexivity.
Qed.

Lemma ensures_post_update u :
  upd_status u <> Some failed ->
  ensures unreported (post_update_via (sessionDO_fetch_over net) u)
    (fun w' => unreported w' /\
               forall st, upd_status u = Some st ->
                          session_holds (fun s => status s = st) w')
    unreported.
Proof.
  intros Hu. unfold post_update_via.
  eapply ensures_bind; [apply ensures_update; exact Hu|].
  intros _. apply ensures_ret.
Qed.

Lemma ensures_weaken {A} (P Q Q' R : World -> Prop) (m : Eff World A) :
  (forall w, Q w -> Q' w) -> ensures P m Q R -> ensures P m Q' R.
Proof.
  intros Himp Hm w Hw. specialize (Hm w Hw).
  destruct (m w) as [[a|e] w1]; [apply Himp; exact Hm | exact Hm].
Qed.

Lemma ensures_progress u :
  upd_status u <> Some failed ->
  ensures unreported (post_update_via (sessionDO_fetch_over net) u)
    unreported unreported.
Proof.
  intros Hu. eapply ensures_weaken; [|apply ensures_post_update; exact Hu].
  intros w [Hw _]. exact Hw.
Qed.

Lemma ensures_fetch_session_data :
  ensures unreported
    (step_do "fetch session data"
       (let! response := sessionDO_fetch_over net GetState in
        if negb (ok response)
        then throw (new_Error "Failed to fetch session state")
        else response_session response)%eff)
    unreported unreported.
Proof.
  intros w (s & Hcur & Hst). unfold step_do, bind, sessionDO_fetch_over.
  assert (Hkept : unreported (set_sessionDO (set_sessionData (Some s) (sessionDO w)) w))
    by (exists s; split; [reflexivity | exact Hst]).
  rewrite (fetch_state_eq w s Hcur). cbn [snd].
  destruct (net GetState w) as [[e|e]|]; [| exact Hkept | exact Hkept].
  exists s. split; assumption.
Qed.

Lemma ensures_poll_loop uuid : forall remaining attempt,
  ensures unreported (poll_loop_via (sessionDO_fetch_over net) uuid remaining attempt)
    unreported unreported.
Proof.
  induction remaining as [|r IH]; intros attempt.
  - apply ensures_throw.
  - cbn [poll_loop_via]. eapply ensures_bind.
    + eapply ensures_weaken; [|apply ensures_update; discriminate].
      intros w [Hw _]. exact Hw.
    + intros _. eapply ensures_bind.
      * apply ensures_frame. intros w. unfold fetch_result.
        destruct (result_api w (polls w)); reflexivity.
      * intros [st text].
        destruct (st =? 200); [apply ensures_ret|].
        destruct (st =? 404); [|apply ensures_throw].
        eapply ensures_bind; [|intros _; apply IH].
        destruct (attempt <? 40 - 1); [|apply ensures_ret].
        apply ensures_frame. reflexivity.
Qed.

Lemma ensures_run_steps sessionId :
  ensures unreported (run_steps_via (sessionDO_fetch_over net) sessionId)
    (session_holds (fun s => status s = completed)) unreported.
Proof.
  unfold run_steps_via.
  eapply ensures_bind; [apply ensures_fetch_session_data|]. intros sessionState.
  eapply ensures_bind; [unfold step_do; apply ensures_progress; discriminate|].
  intros _.
  eapply ensures_bind.
  { unfold step_do. apply ensures_frame.
    intros w. unfold retryWithBackoff.
    apply retry_loop_keeps_sessionDO. apply submit_scan_keeps_sessionDO. }
  intros radarScan.
  eapply ensures_bind; [unfold step_do; apply ensures_progress; discriminate|].
  intros _.
  eapply ensures_bind; [unfold step_do; apply ensures_poll_loop|].
  intros scanResult.
  eapply ensures_bind; [unfold step_do; apply ensures_progress; discriminate|].
  intros _.
  eapply ensures_bind; [unfold step_do; apply ensures_frame; reflexivity|].
  intros pdfBuffer.
  eapply ensures_bind; [unfold step_do; apply ensures_progress; discriminate|].
  intros _.
  eapply ensures_bind.
  { unfold step_do. eapply ensures_bind; [|intros _; apply ensures_ret].
    apply ensures_frame.
    intros w. unfold retryWithBackoff.
    apply retry_loop_keeps_sessionDO. apply put_keeps_sessionDO. }
  intros r2Key. unfold step_do.
  eapply ensures_weaken; [|apply ensures_post_update; discriminate].
  intros w [_ Hw]. apply (Hw completed). reflexivity.
Qed.
End Ensures.

(** X17: how a run on a queued session ends, over a link on which any
    call to the durable object may reject (before or after the object
    handled it), with nothing else acting on the object meanwhile.  If
    the run returns, the session is [completed].  If it throws, its
    [try] block threw some error and left the session unreported; then
    the failure report decides: when it is handled, the session is
    [failed] with [error] the display string of the classifier's answer
    for the error of the [try] block, and the run throws that error, or
    the link's error when only the answer was lost; when it is lost on
    its way, the run throws the link's error and the session stays as
    the [try] block left it, not [failed].  Over a link without faults
    this is the run of the workflow itself. *)
Theorem run_ends_as_reported (net : Network) (sessionId : string) (w : World)
    (s : SessionState) :
  current (sessionDO w) = Some s ->
  status s = queued ->
  let reported e0 w' :=
    session_holds
      (fun s' => status s' = failed /\
                 error s' = Some (displayMessage (getUserFriendlyError e0))) w' in
  match run_via (sessionDO_fetch_over net) sessionId w with
  | (Returned _, w') => session_holds (fun s' => status s' = completed) w'
  | (Threw e, w') =>
      exists e0 w1,
        run_steps_via (sessionDO_fetch_over net) sessionId w = (Threw e0, w1) /\
        unreported w1 /\
        match net (PostUpdate (failure_report e0)) w1 with
        | None => e = e0 /\ reported e0 w'
        | Some (LostResponse e2) => e = e2 /\ reported e0 w'
        | Some (LostRequest e2) => e = e2 /\ w' = w1
        end
  end /\
  run_via (sessionDO_fetch_over reliable) sessionId w = run sessionId w.
Proof.
  intros Hcur Hst. cbv zeta. split; [|reflexivity].
  assert (Hw : unreported w)
    by (exists s; split; [exact Hcur | rewrite Hst; discriminate]).
  pose proof (ensures_run_steps net sessionId w Hw) as Hrun.
  unfold run_via, try_catch.
  destruct (run_steps_via (sessionDO_fetch_over net) sessionId w) as [[a|e0] w1];
    [exact Hrun|].
  destruct Hrun as (s1 & Hc1 & Hnf).
  assert (Hhandled :
    session_holds
      (fun s' => status s' = failed /\
                 error s' = Some (displayMessage (getUserFriendlyError e0)))
      (snd (sessionDO_fetch (PostUpdate (failure_report e0)) w1))).
  { unfold sessionDO_fetch, fetch.
    rewrite (handleUpdate_eq (failure_report e0) _ s1 Hc1). cbn [snd].
    eexists. split; [reflexivity|]. split; reflexivity. }
  unfold mark_failed_via, step_do, post_update_via, bind.
  change (update_of (Some failed) None None
            (Some (displayMessage (getUserFriendlyError e0))) None None)
    with (failure_report e0).
  unfold sessionDO_fetch_over.
  destruct (net (PostUpdate (failure_report e0)) w1) as [[e2|e2]|] eqn:Hnet.
  - exists e0, w1. split; [reflexivity|].
    split; [exists s1; split; assumption|]. rewrite Hnet. split; reflexivity.
  - exists e0, w1. split; [reflexivity|].
    split; [exists s1; split; assumption|]. rewrite Hnet.
    split; [reflexivity | exact Hhandled].
  - destruct (sessionDO_fetch (PostUpdate (failure_report e0)) w1) as [[r|e] w2] eqn:Hcall.
    + exists e0, w1. split; [reflexivity|].
      split; [exists s1; split; assumption|]. rewrite Hnet.
      split; [reflexivity | exact Hhandled].
    + unfold sessionDO_fetch in Hcall.
      destruct (fetch (PostUpdate (failure_report e0)) (sessionDO w1)); discriminate.
Qed.

Lemma run_ends_as_reported_witness :
  let w := scan_world always_500 slow_results in
  let '(out, w') := run_via (sessionDO_fetch_over loses_failure_report) "s-1" w in
  out = Threw connection_lost /\
  unreported w' /\
  scans w' = 3%nat /\
  status <$> current (sessionDO w') = Some queued /\
  status <$> current (sessionDO (snd (run "s-1" w))) = Some failed.
Proof.
  cbv zeta.
  pose proof (run_ends_as_reported loses_failure_report "s-1"
                (scan_world always_500 slow_results)
                (fresh_session (init_example "https://example.com")
                               (blank_object (fun _ => false)))
                eq_refl eq_refl) as [Hthm _].
  assert (Hthrows : fst (run_via (sessionDO_fetch_over loses_failure_report) "s-1"
                           (scan_world always_500 slow_results)) =
                    Threw connection_lost) by (vm_compute; reflexivity).
  assert (Hleft : let w' := snd (run_via (sessionDO_fetch_over loses_failure_report)
                                   "s-1" (scan_world always_500 slow_results)) in
                  scans w' = 3%nat /\
                  status <$> current (sessionDO w') = Some queued)
    by (vm_compute; split; reflexivity).
  cbv zeta in Hleft.
  destruct (run_via (sessionDO_fetch_over loses_failure_report) "s-1"
              (scan_world always_500 slow_results)) as [[a|e] w']; [discriminate|].
  cbn [fst snd] in *.
  destruct Hthm as (e0 & w1 & _ & Hun & Hend).
  cbn [loses_failure_report failure_report update_of upd_status] in Hend.
  destruct Hend as [_ ->].
  split; [exact Hthrows|]. split; [exact Hun|].
  destruct Hleft as [Hscans Hq]. split; [exact Hscans|]. split; [exact Hq|].
  vm_compute. reflexivity.
Defined.

(** ** Workflow: scenarios *)

Lemma retry_loop_first_success {W} `{Timers W} {T} (fn : Eff W T) opts
    remaining attempt lastError w v w1 :
  fn w = (Returned v, w1) ->
  retry_loop fn opts (S remaining) attempt lastError w = (Returned v, w1).
Proof. intros Hfn. cbn [retry_loop]. rewrite Hfn. reflexivity. Qed.

Lemma submit_scan_accepted target w st text :
  scan_api w (scans w) = HttpResponse st text ->
  (200 <=? st) && (st <=? 299) = true ->
  submit_scan target w =
  (Returned text, set_scans (S (scans w)) (emit (ScanRequested target) w)).
Proof.
  intros Hans Hok. unfold submit_scan, bind, fetch_scan.
  cbn [scan_api scans set_scans emit set_trace]. rewrite Hans. cbn [answer].
  rewrite Hok. reflexivity.
Qed.

(** The run up to the poll step, when the first submission is accepted. *)
Lemma run_steps_to_poll sessionId w s st uuid :
  current (sessionDO w) = Some s ->
  scan_api w (scans w) = HttpResponse st uuid ->
  (200 <=? st) && (st <=? 299) = true ->
  run_steps sessionId w =
  (let! scanResult := poll_for_scan_results uuid in
   finish_run sessionId s scanResult)%eff
    {| sessionDO :=
         snd (handleUpdate
                (update_of (Some scanning) (Some uuid) None None (Some 15)
                   (Some "Scan submitted. Waiting for results..."))
                (snd (handleUpdate
                        (update_of None None None None (Some 5)
                           (Some "Submitting URL to Cloudflare Radar..."))
                        (set_sessionData (Some s) (sessionDO w)))));
       trace := trace w ++ [ScanRequested (url s)];
       scan_api := scan_api w; scans := S (scans w);
       result_api := result_api w; polls := polls w;
       r2_put := r2_put w; puts := puts w;
       generatePDFReport := generatePDFReport w |}.
Proof.
  intros Hcur Hans Hok. rewrite run_steps_split.
  rewrite (bind_returned _ _ _ _ _ (fetch_session_data_eq w s Hcur)).
  unfold step_do at 1.
  rewrite (bind_returned _ _ _ _ _ (post_update_eq _ _)).
  unfold step_do at 1.
  erewrite bind_returned.
  2:{ unfold retryWithBackoff.
      change (Z.to_nat (opt_maxAttempts (spread_options DEFAULT_OPTIONS submit_options)))
        with 3%nat.
      apply retry_loop_first_success.
      apply (submit_scan_accepted _ _ st uuid); [exact Hans | exact Hok]. }
  unfold step_do at 1.
  rewrite (bind_returned _ _ _ _ _ (post_update_eq _ _)).
  unfold step_do at 1.
  destruct w; reflexivity.
Qed.

(** The poll loop touches only the durable object, the trace and the
    count of result requests. *)
Lemma poll_loop_frame uuid : forall remaining attempt w out w',
  poll_loop uuid remaining attempt w = (out, w') ->
  scan_api w' = scan_api w /\ scans w' = scans w /\
  r2_put w' = r2_put w /\ puts w' = puts w /\
  generatePDFReport w' = generatePDFReport w.
Proof.
  induction remaining as [|r IH]; intros attempt w out w' Hrun.
  - injection Hrun as <- <-. repeat split.
  - cbn [poll_loop] in Hrun. unfold bind at 1 in Hrun.
    unfold sessionDO_fetch at 1 in Hrun.
    destruct (fetch _ (sessionDO w)) as [resp o1].
    unfold bind at 1 in Hrun. unfold fetch_result at 1 in Hrun.
    cbn [result_api polls set_sessionDO] in Hrun.
    destruct (result_api w (polls w)) as [st text|e]; cbn [answer] in Hrun;
      [|injection Hrun as <- <-; repeat split].
    destruct (st =? 200); [injection Hrun as <- <-; repeat split|].
    destruct (st =? 404); [|injection Hrun as <- <-; repeat split].
    unfold bind at 1 in Hrun.
    destruct (attempt <? 40 - 1); unfold step_sleep, ret in Hrun;
      cbv beta iota in Hrun; apply IH in Hrun;
      destruct Hrun as (H1 & H2 & H3 & H4 & H5);
      rewrite H1, H2, H3, H4, H5; repeat split.
Qed.

(** A property of the session that progress updates keep survives the
    poll loop. *)
Lemma poll_loop_holds uuid (P : SessionState -> Prop) :
  (forall s attempt now, P s ->
     P (stamp (spread s (update_of None None None None
                           (Some (poll_progress attempt))
                           (Some (poll_message attempt)))) now)) ->
  forall remaining attempt w,
    session_holds P w ->
    session_holds P (snd (poll_loop uuid remaining attempt w)).
Proof.
  intros Hkeep. induction remaining as [|r IH]; intros attempt w Hw.
  - exact Hw.
  - cbn [poll_loop]. unfold bind at 1. unfold sessionDO_fetch at 1, fetch.
    destruct Hw as (s & Hcur & HP).
    rewrite (handleUpdate_eq _ _ s Hcur). cbv beta iota zeta.
    match goal with
    | |- context [set_sessionDO ?o1 w] =>
        assert (Hw1 : session_holds P (set_sessionDO o1 w))
          by (eexists; split; [reflexivity | apply Hkeep; exact HP]);
        set (w1 := set_sessionDO o1 w) in *
    end.
    unfold bind at 1. unfold fetch_result at 1.
    destruct (result_api w1 (polls w1)) as [st text|e]; cbn [answer];
      [|exact Hw1].
    destruct (st =? 200); [exact Hw1|].
    destruct (st =? 404); [|exact Hw1].
    unfold bind at 1.
    destruct (attempt <? 40 - 1); unfold step_sleep, ret; cbv beta iota;
      apply IH; exact Hw1.
Qed.

(** Steps 4 to 8 when the renderer and the first [put] succeed. *)
Lemma finish_run_returns sessionId s0 scanResult pdf w s5 :
  current (sessionDO w) = Some s5 ->
  generatePDFReport w scanResult (url s0) = Returned pdf ->
  r2_put w (puts w) = None ->
  exists w', finish_run sessionId s0 scanResult w = (Returned tt, w') /\
    trace w' = trace w ++ [PdfRequested (url s0); R2Put (report_key sessionId)] /\
    puts w' = S (puts w) /\ polls w' = polls w /\ scans w' = scans w /\
    exists s', current (sessionDO w') = Some s' /\
      status s' = completed /\
      r2Key s' = Some (report_key sessionId) /\
      progressPercent s' = Some 100 /\
      radarUuid s' = radarUuid s5 /\
      same_identity s5 s'.
Proof.
  intros Hcur Hpdf Hput. unfold finish_run.
  unfold step_do at 1.
  rewrite (bind_returned _ _ _ _ _ (post_update_eq _ _)).
  unfold step_do at 1.
  erewrite bind_returned.
  2:{ unfold render_pdf. cbn [generatePDFReport set_sessionDO]. rewrite Hpdf.
      reflexivity. }
  unfold step_do at 1.
  rewrite (bind_returned _ _ _ _ _ (post_update_eq _ _)).
  unfold step_do at 1.
  erewrite bind_returned.
  2:{ erewrite bind_returned; [reflexivity|].
      unfold retryWithBackoff.
      change (Z.to_nat (opt_maxAttempts (spread_options DEFAULT_OPTIONS upload_options)))
        with 3%nat.
      apply retry_loop_first_success. unfold radar_scan_reports_put.
      cbn [r2_put puts set_sessionDO emit set_trace]. rewrite Hput. reflexivity. }
  unfold step_do at 1. rewrite post_update_eq.
  eexists. split; [reflexivity|].
  cbn [sessionDO trace puts polls scans set_sessionDO set_puts emit set_trace].
  rewrite (handleUpdate_eq _ _ s5 Hcur). cbn [snd].
  erewrite (handleUpdate_eq (update_of (Some uploading) None None None _ _))
    by reflexivity.
  cbn [snd].
  erewrite handleUpdate_eq by reflexivity. cbn [snd].
  split; [rewrite <- app_assoc; reflexivity|].
  split; [reflexivity|]. split; [reflexivity|]. split; [reflexivity|].
  eexists. split; [reflexivity|]. repeat split.
Qed.

(** X15: the complete scenario.  On an existing session, when the
    first submission is accepted with scan id [uuid], the result
    service is not ready [j < 40] times and then answers 200, the
    renderer returns and the first [put] succeeds, the run returns; the
    session ends [completed] with [r2Key = sessions/<id>/report.pdf],
    [progressPercent = 100] and [radarUuid = uuid], its identity fields
    and [error] untouched; and the outside saw, in order, one
    submission, the [j + 1] result requests with their sleeps, one
    render and one [put]. *)
Theorem run_completes (sessionId : string) (w : World) (s : SessionState)
    (st : Z) (uuid scanResult pdf : string) :
  current (sessionDO w) = Some s ->
  scan_api w (scans w) = HttpResponse st uuid ->
  200 <= st <= 299 ->
  let j := not_ready_run (result_api w) (polls w) 40 in
  (j < 40)%nat ->
  result_api w (polls w + j)%nat = HttpResponse 200 scanResult ->
  generatePDFReport w scanResult (url s) = Returned pdf ->
  r2_put w (puts w) = None ->
  let '(out, w') := run sessionId w in
  out = Returned tt /\
  trace w' = trace w ++ [ScanRequested (url s)] ++ poll_events uuid 0 j
               ++ [ResultRequested uuid; PdfRequested (url s);
                   R2Put (report_key sessionId)] /\
  scans w' = S (scans w) /\ polls w' = (polls w + j + 1)%nat /\
  puts w' = S (puts w) /\
  exists s', current (sessionDO w') = Some s' /\
    status s' = completed /\
    r2Key s' = Some (report_key sessionId) /\
    progressPercent s' = Some 100 /\
    radarUuid s' = Some uuid /\
    same_identity s s'.
Proof.
  intros Hcur Hans Hst j Hj Hready Hpdf Hput.
  unfold run, try_catch.
  rewrite (run_steps_to_poll sessionId w s st uuid Hcur Hans)
    by (apply andb_true_iff; split; apply Z.leb_le; lia).
  match goal with |- context [bind _ _ ?x] => set (w4 := x) end.
  unfold poll_for_scan_results, bind.
  pose proof (poll_loop_spec uuid 40 0 w4) as Hspec. cbv zeta in Hspec.
  assert (Hhold : session_holds (fun s1 => radarUuid s1 = Some uuid /\ same_identity s s1)
                    (snd (poll_loop uuid 40 0 w4))).
  { apply poll_loop_holds.
    - intros s1 attempt now (Hu & Hid). split; [exact Hu | exact Hid].
    - subst w4. unfold session_holds. cbn [sessionDO].
      erewrite (handleUpdate_eq (update_of None None None None _ _)) by reflexivity.
      cbn [snd].
      erewrite handleUpdate_eq by reflexivity. cbn [snd].
      eexists. split; [reflexivity|]. repeat split. }
  destruct (poll_loop uuid 40 0 w4) as [out w5] eqn:Hpoll.
  destruct (poll_loop_frame uuid 40 0 w4 out w5 Hpoll) as (_ & Hsc & Hr2 & Hpu & Hgen).
  cbn [snd] in Hhold. destruct Hhold as (s5 & Hcur5 & Hu5 & Hid5).
  change (result_api w4) with (result_api w) in Hspec.
  change (polls w4) with (polls w) in Hspec.
  change (trace w4) with (trace w ++ [ScanRequested (url s)]) in Hspec.
  fold j in Hspec. destruct Hspec as (Htr & Hpo & _ & Hout).
  replace (j <? 40)%nat with true in * by (symmetry; apply Nat.ltb_lt; exact Hj).
  rewrite Hready in Hout. cbn [poll_outcome Z.eqb Pos.eqb] in Hout. subst out.
  destruct (finish_run_returns sessionId s scanResult pdf w5 s5 Hcur5)
    as (w' & Hfin & Htr' & Hpu' & Hpo' & Hsc' & s' & Hcur' & Hst' & Hkey & Hpct & Hu & Hid).
  { rewrite Hgen. exact Hpdf. }
  { rewrite Hr2, Hpu. exact Hput. }
  rewrite Hfin. split; [reflexivity|].
  split; [rewrite Htr', Htr, <- !app_assoc; reflexivity|].
  split; [rewrite Hsc', Hsc; reflexivity|].
  split; [rewrite Hpo', Hpo; reflexivity|].
  split; [rewrite Hpu', Hpu; reflexivity|].
  exists s'. split; [exact Hcur'|]. split; [exact Hst'|]. split; [exact Hkey|].
  split; [exact Hpct|]. split; [congruence|].
  destruct Hid as (I1 & I2 & I3 & I4 & I5 & I6).
  destruct Hid5 as (J1 & J2 & J3 & J4 & J5 & J6).
  repeat split; congruence.
Qed.

Lemma run_completes_witness :
  let '(out, w') := run "s-1" (scan_world accepts ready_at_third) in
  out = Returned tt /\
  trace w' = [ScanRequested "https://example.com";
              ResultRequested "uuid-1"; StepSleep "wait for scan" 5;
              ResultRequested "uuid-1"; StepSleep "wait for scan" 5;
              ResultRequested "uuid-1";
              PdfRequested "https://example.com";
              R2Put "sessions/s-1/report.pdf"] /\
  status <$> current (sessionDO w') = Some completed /\
  current (sessionDO w') ≫= r2Key = Some "sessions/s-1/report.pdf".
Proof.
  pose proof (run_completes "s-1" (scan_world accepts ready_at_third)
                (fresh_session (init_example "https://example.com")
                               (blank_object (fun _ => false)))
                200 "uuid-1" "{result}" "%PDF-1.7"
                eq_refl eq_refl ltac:(lia)) as Hthm.
  cbv zeta in Hthm.
  specialize (Hthm ltac:(vm_compute; lia) eq_refl eq_refl eq_refl).
  destruct (run "s-1" (scan_world accepts ready_at_third)) as [out w'].
  destruct Hthm as (Hout & Htr & _ & _ & _ & s' & Hcur & Hst & Hkey & _).
  split; [exact Hout|]. split; [rewrite Htr; reflexivity|].
  rewrite Hcur. cbn [fmap option_fmap option_map mbind option_bind].
  rewrite Hst, Hkey. split; reflexivity.
Defined.

(** X18: the timeout is a failure of the job, not a silent success.
    On an existing session, when the submission is accepted and the
    result service is not ready forty times in a row, the run throws
    'Scan timeout after 10 minutes' after one submission and forty
    result requests; it renders and uploads nothing, and the session
    ends [failed] with the 'Request Timeout' entry as its [error] and
    the scan id kept. *)
Theorem run_times_out (sessionId : string) (w : World) (s : SessionState)
    (st : Z) (uuid : string) :
  current (sessionDO w) = Some s ->
  scan_api w (scans w) = HttpResponse st uuid ->
  200 <= st <= 299 ->
  not_ready_run (result_api w) (polls w) 40 = 40%nat ->
  let '(out, w') := run sessionId w in
  out = Threw scan_timeout /\
  trace w' = trace w ++ [ScanRequested (url s)] ++ rounds uuid 5 5
               ++ rounds uuid 10 10 ++ rounds uuid 15 24
               ++ [ResultRequested uuid] /\
  polls w' = (polls w + 40)%nat /\ puts w' = puts w /\
  exists s', current (sessionDO w') = Some s' /\
    status s' = failed /\
    error s' = Some "Request Timeout: The request took too long to complete. Please try again." /\
    radarUuid s' = Some uuid.
Proof.
  intros Hcur Hans Hst Hnever.
  unfold run, try_catch.
  rewrite (run_steps_to_poll sessionId w s st uuid Hcur Hans)
    by (apply andb_true_iff; split; apply Z.leb_le; lia).
  match goal with |- context [bind _ _ ?x] => set (w4 := x) end.
  unfold poll_for_scan_results, bind.
  pose proof (poll_loop_spec uuid 40 0 w4) as Hspec. cbv zeta in Hspec.
  assert (Hhold : session_holds (fun s1 => radarUuid s1 = Some uuid)
                    (snd (poll_loop uuid 40 0 w4))).
  { apply poll_loop_holds.
    - intros s1 attempt now Hu. exact Hu.
    - subst w4. unfold session_holds. cbn [sessionDO].
      erewrite (handleUpdate_eq (update_of None None None None _ _)) by reflexivity.
      cbn [snd].
      erewrite handleUpdate_eq by reflexivity. cbn [snd].
      eexists. split; reflexivity. }
  destruct (poll_loop uuid 40 0 w4) as [out w5] eqn:Hpoll.
  destruct (poll_loop_frame uuid 40 0 w4 out w5 Hpoll) as (_ & _ & _ & Hpu & _).
  cbn [snd] in Hhold. destruct Hhold as (s5 & Hcur5 & Hu5).
  change (result_api w4) with (result_api w) in Hspec.
  change (polls w4) with (polls w) in Hspec.
  change (trace w4) with (trace w ++ [ScanRequested (url s)]) in Hspec.
  rewrite Hnever in Hspec. cbn [Nat.ltb Nat.leb] in Hspec.
  destruct Hspec as (Htr & Hpo & _ & Hout). subst out.
  rewrite mark_failed_eq.
  cbn [sessionDO trace polls puts set_sessionDO].
  rewrite (handleUpdate_eq _ _ s5 Hcur5). cbn [snd].
  split; [reflexivity|].
  split; [rewrite Htr, <- !app_assoc; reflexivity|].
  split; [lia|]. split; [exact Hpu|].
  eexists. split; [reflexivity|]. split; [reflexivity|]. split; [reflexivity|].
  exact Hu5.
Qed.

Lemma run_times_out_witness :
  let '(out, w') := run "s-1" (scan_world accepts never_ready) in
  out = Threw scan_timeout /\ polls w' = 40%nat /\ puts w' = 0%nat /\
  status <$> current (sessionDO w') = Some failed.
Proof.
  pose proof (run_times_out "s-1" (scan_world accepts never_ready)
                (fresh_session (init_example "https://example.com")
                               (blank_object (fun _ => false)))
                200 "uuid-1" eq_refl eq_refl ltac:(lia) eq_refl) as Hthm.
  destruct (run "s-1" (scan_world accepts never_ready)) as [out w'].
  destruct Hthm as (Hout & _ & Hpolls & Hputs & s' & Hcur & Hst & _).
  split; [exact Hout|]. split; [exact Hpolls|]. split; [exact Hputs|].
  rewrite Hcur. cbn. rewrite Hst. reflexivity.
Defined.

(** ** Workflow: progress *)

(** X19: during polling the posted [progressPercent] starts at 15,
    never decreases from one attempt to the next and stays at most 63,
    so it fits between the 15 posted before polling and the 70 posted
    after it; the cap at 65 is never what decides. *)
Theorem poll_progress_bounds (a b : Z) :
  0 <= a <= b -> b < 40 ->
  poll_progress 0 = 15 /\
  15 <= poll_progress a /\
  poll_progress a <= poll_progress b /\
  poll_progress b <= 63 /\
  poll_progress a = 15 + a * 50 / 40.
Proof.
  intros Hab Hb. unfold poll_progress.
  assert (Ha : 0 <= a * 50 / 40) by (apply Z.div_pos; lia).
  assert (Hmono : a * 50 / 40 <= b * 50 / 40) by (apply Z.div_le_mono; lia).
  assert (Hcap : b * 50 / 40 <= 48).
  { apply Z.lt_succ_r. apply Z.div_lt_upper_bound; lia. }
  split; [reflexivity|]. lia.
Qed.

Lemma poll_progress_bounds_witness :
  poll_progress 8 = 25 /\ poll_progress 8 <= poll_progress 39 /\
  poll_progress 39 = 63.
Proof.
  destruct (poll_progress_bounds 8 39 ltac:(lia) ltac:(lia)) as (_ & _ & Hmono & _).
  split; [reflexivity|]. split; [exact Hmono | reflexivity].
Defined.

(** ** Input sanitizing *)

Lemma every_substring p : forall n s,
  every p s = true -> every p (String.substring 0 n s) = true.
Proof.
  induction n as [|n IH]; intros s Hs.
  - destruct s; reflexivity.
  - destruct s as [|c s]; [reflexivity|]. cbn in *.
    apply andb_true_iff in Hs. destruct Hs as [Hc Hs].
    rewrite Hc. cbn. apply IH. exact Hs.
Qed.

Lemma every_trimStart p s : every p s = true -> every p (trimStart s) = true.
Proof.
  induction s as [|c s IH]; intros Hs; [reflexivity|].
  cbn [trimStart]. destruct (is_white_space c); [|exact Hs].
  cbn in Hs. apply andb_true_iff in Hs. apply IH. tauto.
Qed.

Lemma every_trimEnd p s : every p s = true -> every p (trimEnd s) = true.
Proof.
  induction s as [|c s IH]; intros Hs; [reflexivity|].
  cbn in Hs. apply andb_true_iff in Hs. destruct Hs as [Hc Hs].
  specialize (IH Hs). cbn [trimEnd].
  destruct (trimEnd s) as [|d kept].
  - destruct (is_white_space c); [reflexivity|]. cbn. rewrite Hc. reflexivity.
  - cbn [every]. rewrite Hc. exact IH.
Qed.

Lemma every_remove_angles s :
  every (fun c => negb (is_angle c)) (remove_angles s) = true.
Proof.
  induction s as [|c s IH]; [reflexivity|].
  cbn [remove_angles]. destruct (is_angle c) eqn:Hc; [exact IH|].
  cbn [every]. rewrite Hc, IH. reflexivity.
Qed.

Lemma length_substring : forall n s,
  (String.length (String.substring 0 n s) <= n)%nat.
Proof.
  induction n as [|n IH]; intros s; destruct s as [|c s]; cbn; try lia.
  specialize (IH s). lia.
Qed.

Lemma starts_clean_trimStart s : starts_clean (trimStart s) = true.
Proof.
  induction s as [|c s IH]; [reflexivity|].
  cbn [trimStart]. destruct (is_white_space c) eqn:Hc; [exact IH|].
  cbn. rewrite Hc. reflexivity.
Qed.

Lemma starts_clean_trimEnd s : starts_clean s = true -> starts_clean (trimEnd s) = true.
Proof.
  destruct s as [|c s]; [reflexivity|]. cbn. intros Hc.
  destruct (trimEnd s); [|exact Hc].
  apply negb_true_iff in Hc. rewrite Hc. cbn. rewrite Hc. reflexivity.
Qed.

Lemma starts_clean_substring n s :
  starts_clean s = true -> starts_clean (String.substring 0 n s) = true.
Proof. destruct n, s; cbn; trivial. Qed.

Lemma every_not_included p (c : ascii) : forall s,
  every p s = true -> p c = false ->
  Js.includes s (String c EmptyString) = false.
Proof.
  induction s as [|d s IH]; intros Hs Hc; [reflexivity|].
  cbn in Hs. apply andb_true_iff in Hs. destruct Hs as [Hd Hs].
  cbn [Js.includes Js.startsWith].
  destruct (Ascii.eqb d c) eqn:Heq; [|apply IH; assumption].
  apply Ascii.eqb_eq in Heq. congruence.
Qed.

(** X20: whatever the input, [sanitizeString] returns at most 2048
    code units, none of them an angle bracket, and the result does not
    begin with white space. *)
Theorem sanitizeString_is_safe (input : string) :
  (String.length (sanitizeString input) <= 2048)%nat /\
  Js.includes (sanitizeString input) "<" = false /\
  Js.includes (sanitizeString input) ">" = false /\
  starts_clean (sanitizeString input) = true.
Proof.
  unfold sanitizeString, trim.
  assert (Hall : every (fun c => negb (is_angle c))
                   (String.substring 0 2048 (trimEnd (trimStart (remove_angles input))))
                 = true)
    by (apply every_substring, every_trimEnd, every_trimStart, every_remove_angles).
  split; [apply length_substring|].
  split; [apply (every_not_included _ _ _ Hall); reflexivity|].
  split; [apply (every_not_included _ _ _ Hall); reflexivity|].
  apply starts_clean_substring, starts_clean_trimEnd, starts_clean_trimStart.
Qed.

Lemma remove_angles_clean s :
  every (fun c => negb (is_angle c)) s = true -> remove_angles s = s.
Proof.
  induction s as [|c s IH]; intros Hs; [reflexivity|].
  cbn in Hs. apply andb_true_iff in Hs. destruct Hs as [Hc Hs].
  cbn [remove_angles]. apply negb_true_iff in Hc. rewrite Hc, (IH Hs). reflexivity.
Qed.

Lemma trimStart_clean s : starts_clean s = true -> trimStart s = s.
Proof.
  destruct s as [|c s]; [reflexivity|]. cbn. intros Hc.
  apply negb_true_iff in Hc. rewrite Hc. reflexivity.
Qed.

Lemma trimEnd_clean s : ends_clean s = true -> trimEnd s = s.
Proof.
  induction s as [|c s IH]; intros Hs; [reflexivity|].
  cbn [trimEnd]. destruct s as [|d s'].
  - cbn in *. apply negb_true_iff in Hs. rewrite Hs. reflexivity.
  - rewrite (IH Hs). reflexivity.
Qed.

Lemma substring_short : forall n s,
  (String.length s <= n)%nat -> String.substring 0 n s = s.
Proof.
  induction n as [|n IH]; intros s Hlen; destruct s as [|c s]; cbn in *;
    try reflexivity; try lia.
  rewrite IH by lia. reflexivity.
Qed.

(** X21: an input that has no angle bracket, neither begins nor ends
    with white space and is at most 2048 code units long comes back
    from [sanitizeString] unchanged. *)
Theorem sanitizeString_keeps_clean_input (input : string) :
  every (fun c => negb (is_angle c)) input = true ->
  starts_clean input = true ->
  ends_clean input = true ->
  (String.length input <= 2048)%nat ->
  sanitizeString input = input.
Proof.
  intros Hangle Hstart Hend Hlen. unfold sanitizeString, trim.
  rewrite (remove_angles_clean _ Hangle), (trimStart_clean _ Hstart),
          (trimEnd_clean _ Hend).
  apply substring_short. exact Hlen.
Qed.

Lemma sanitizeString_keeps_clean_input_witness :
  sanitizeString "https://example.com/a?b=1" = "https://example.com/a?b=1".
Proof.
  apply sanitizeString_keeps_clean_input; try reflexivity. cbn. lia.
Defined.

(** X22: a submission answered with a status that is not ok, whose
    error the retry classifier refuses (a 4xx other than 429 with no
    network-class word in its text), is not retried: the run makes one
    submission, sleeps nowhere, throws that error, and the session ends
    [failed] with one of the scanning-service entries as its [error]. *)
Theorem refused_submission_fails_at_once (sessionId : string) (w : World)
    (s : SessionState) (st : Z) (text : string) :
  current (sessionDO w) = Some s ->
  scan_api w (scans w) = HttpResponse st text ->
  (200 <=? st) && (st <=? 299) = false ->
  isRetryableError (rejected_submission st text) = false ->
  let '(out, w') := run sessionId w in
  out = Threw (rejected_submission st text) /\
  trace w' = trace w ++ [ScanRequested (url s)] /\
  scans w' = S (scans w) /\
  exists s', current (sessionDO w') = Some s' /\ status s' = failed /\
    error s' = Some (displayMessage (getUserFriendlyError (rejected_submission st text))) /\
    In (displayMessage (getUserFriendlyError (rejected_submission st text)))
       scanning_service_messages.
Proof.
  intros Hcur Hans Hbad Hrefused.
  unfold run, try_catch. rewrite run_steps_split.
  rewrite (bind_returned _ _ _ _ _ (fetch_session_data_eq w s Hcur)).
  unfold step_do at 1.
  rewrite (bind_returned _ _ _ _ _ (post_update_eq _ _)).
  unfold step_do at 1.
  erewrite bind_threw.
  2:{ unfold retryWithBackoff.
      change (Z.to_nat (opt_maxAttempts (spread_options DEFAULT_OPTIONS submit_options)))
        with 3%nat.
      eapply retry_loop_stop.
      - apply (submit_scan_rejected _ _ st text); [exact Hans | exact Hbad].
      - left. exact Hrefused. }
  rewrite mark_failed_eq.
  cbn [set_sessionDO sessionDO trace scans set_scans emit set_trace].
  rewrite (handleUpdate_eq _ _ s (current_set_sessionData s _)). cbn [snd].
  erewrite handleUpdate_eq by reflexivity. cbn [snd].
  split; [reflexivity|]. split; [reflexivity|]. split; [reflexivity|].
  eexists. split; [reflexivity|]. split; [reflexivity|]. split; [reflexivity|].
  apply radar_error_classified.
Qed.

Lemma refused_submission_fails_at_once_witness :
  let '(out, w') := run "s-1" (scan_world forbids slow_results) in
  out = Threw (rejected_submission 403 "Forbidden") /\
  trace w' = [ScanRequested "https://example.com"] /\
  status <$> current (sessionDO w') = Some failed.
Proof.
  pose proof (refused_submission_fails_at_once "s-1" (scan_world forbids slow_results)
                (fresh_session (init_example "https://example.com")
                               (blank_object (fun _ => false)))
                403 "Forbidden" eq_refl eq_refl eq_refl eq_refl) as Hthm.
  destruct (run "s-1" (scan_world forbids slow_results)) as [out w'].
  destruct Hthm as (Hout & Htr & _ & s' & Hcur & Hst & _).
  split; [exact Hout|]. split; [exact Htr|].
  rewrite Hcur. cbn. rewrite Hst. reflexivity.
Defined.
